(** * fast-trips: the assignment / simulation loop of [fasttrips/Assignment.py]

    A shallow embedding of the assignment controller, the event simulator,
    the deterministic trip-based shortest path search, the stochastic
    trip-based hyperpath search and its path sampler, with the properties
    of the specification proved (or refuted) on them.

    Conventions of the embedding.
    - Python [int]s are [Z].  A [datetime.datetime] of the run's single day
      ([Assignment.TODAY]) and a [datetime.timedelta] are both [Z], counted in
      microseconds (the resolution of Python's [datetime]); so
      [datetime.timedelta(minutes = 0.01)] is [600000] and
      [datetime.datetime.combine(TODAY, t)] is the identity.
    - Python [float]s are idealised: the capacity gap is an exact rational
      ([Q]), the hyperpath labels and costs are real numbers ([R]) with the
      library's [exp] and [ln].
    - A [dict] that is only looked up is a [gmap]; a [dict] that the code
      iterates over ([access_links], [transfers]) is the list of its items in
      iteration order; a [set] is a [gset].
    - A Python exception is the [Raise] constructor of [result]. *)

From Stdlib Require Import ZArith QArith Reals Lra Lia.
From stdpp Require Import gmap list.

#[local] Set Warnings "-clear-no-such-hyp".

(** ** Exceptions and the error monad *)

Inductive exn : Type :=
  | KeyError
  | IndexError
  | ValueError
  | ZeroDivisionError
  | UnboundLocalError
  | SimulationOnlyNotImplemented   (* Exception("Simulation only not implemented yet") *)
  | ThisShouldntHappen             (* Exception("This shouldn't happen") *)
  | StopNotFound                   (* Exception("get_scheduled_departure: stop ... not find ...") *)
  | FuelExhausted.                 (* no exception: the fuel of a modelled [while True] ran out *)

Inductive result (A : Type) : Type :=
  | Ok (a : A)
  | Raise (e : exn).
Arguments Ok {A} a.
Arguments Raise {A} e.

#[global] Instance result_ret : MRet result := fun A a => Ok a.
#[global] Instance result_bind : MBind result := fun A B f r =>
  match r with
  | Ok a => f a
  | Raise e => Raise e
  end.

(** [d[k]] on a dict: [KeyError] when the key is absent. *)
Definition getitem `{Countable K} {V} (d : gmap K V) (k : K) : result V :=
  match d !! k with
  | Some v => Ok v
  | None => Raise KeyError
  end.

(** [d[k]] on a dict given by the list of its items in iteration order. *)
Fixpoint getassoc {V} (items : list (Z * V)) (k : Z) : result V :=
  match items with
  | [] => Raise KeyError
  | (k', v) :: items' => if decide (k = k') then Ok v else getassoc items' k
  end.

(** [l[i]] on a list, with Python's negative indices: [IndexError] out of range. *)
Definition py_index {A} (l : list A) (i : Z) : result A :=
  let j := if (i <? 0)%Z then (Z.of_nat (length l) + i)%Z else i in
  if (j <? 0)%Z then Raise IndexError
  else match l !! Z.to_nat j with
       | Some a => Ok a
       | None => Raise IndexError
       end.

(** [l[-1]] *)
Definition py_last {A} (l : list A) : result A :=
  match last l with
  | Some a => Ok a
  | None => Raise IndexError
  end.

(** [d[k]] on a [collections.defaultdict(list)], read only. *)
Definition getlist `{Countable K} {V} (d : gmap K (list V)) (k : K) : list V :=
  default [] (d !! k).

(** [d[k].append(v)] on a [collections.defaultdict(list)]. *)
Definition append_at `{Countable K} {V} (d : gmap K (list V)) (k : K) (v : V)
  : gmap K (list V) :=
  <[k := getlist d k ++ [v]]> d.

(** [l.remove(x)]: removes the first occurrence, [ValueError] when absent. *)
Fixpoint list_remove_first (x : Z) (l : list Z) : result (list Z) :=
  match l with
  | [] => Raise ValueError
  | y :: l' => if decide (x = y) then Ok l'
               else l'' ← list_remove_first x l'; Ok (y :: l'')
  end.

(** ** Identifiers, times and modes *)

(** Modelled from the spec: the mode constants belong to the [Path] class,
    which is not among the sources.  The departure/arrival mode of a state
    is one of the three walk modes ([Path.STATE_MODE_ACCESS], [_EGRESS],
    [_TRANSFER]) or a trip id. *)
Inductive mode : Type :=
  | ACCESS
  | EGRESS
  | TRANSFER
  | TRIP (trip_id : Z).

#[global] Instance mode_eq_dec : EqDecision mode.
Proof. solve_decision. Defined.

#[global] Instance mode_countable : Countable mode.
Proof.
  refine (inj_countable'
    (fun m => match m with
              | ACCESS => inl 0%nat | EGRESS => inl 1%nat
              | TRANSFER => inl 2%nat | TRIP t => inr t end)
    (fun x => match x with
              | inl 0%nat => ACCESS | inl 1%nat => EGRESS
              | inl _ => TRANSFER | inr t => TRIP t end) _).
  by intros [].
Defined.

(** [mode in [EGRESS, TRANSFER, ACCESS]] *)
Definition is_walk_mode (m : mode) : bool :=
  match m with
  | TRIP _ => false
  | _ => true
  end.

(** [mode in [EGRESS, ACCESS]] *)
Definition is_access_egress (m : mode) : bool :=
  match m with
  | ACCESS | EGRESS => true
  | _ => false
  end.

Inductive direction : Type := OUTBOUND | INBOUND.

#[global] Instance direction_eq_dec : EqDecision direction.
Proof. solve_decision. Defined.

Definition dir_factor (d : direction) : Z :=
  match d with OUTBOUND => 1 | INBOUND => -1 end.

(** [Assignment.bump_wait]: (trip_id, stop_id) -> earliest time a bumped
    passenger started waiting.  The path finders look it up under
    [(mode, stop_id)] keys, so the key's first component is a [mode]. *)
Abbreviation bump_wait_table := (gmap (mode * Z) Z).

(** [datetime.timedelta(minutes = 0.01)] *)
Definition GRACE : Z := 600000.

(** Modelled from the spec: the indices [Path.STATE_IDX_*] belong to the
    [Path] class, which is not among the sources.  A state is the list
    [[label, deparr, deparr_mode, succpred, linktime]], followed by
    [[cost, arrival]] in the hyperpath search only. *)
Record State (L : Type) : Type := mkState {
  STATE_LABEL : L;
  STATE_DEPARR : Z;
  STATE_DEPARRMODE : mode;
  STATE_SUCCPRED : Z;
  STATE_LINKTIME : Z;
  STATE_HYPER : option (L * Z)      (* (cost, arrival), hyperpath only *)
}.
Arguments mkState {L}.
Arguments STATE_LABEL {L}.
Arguments STATE_DEPARR {L}.
Arguments STATE_DEPARRMODE {L}.
Arguments STATE_SUCCPRED {L}.
Arguments STATE_LINKTIME {L}.
Arguments STATE_HYPER {L}.

(** Modelled from the spec: the trip objects that [Assignment.py] reads
    ([FT.trips[trip_id].stops[i]], [.capacity], [.number_of_stops()]) are
    not among the sources ([Trip.py] holds a table-based [Trip] class).  A
    trip has its stops [(stop_id, arrival_time, departure_time)], indexed
    0...N-1 in sequence order, and the capacity of its vehicle. *)
Record Trip : Type := mkTrip {
  trip_stops : list (Z * Z * Z);
  capacity : Z
}.

Definition number_of_stops (t : Trip) : nat := length (trip_stops t).

(** Modelled from the spec: the [Path] class is not among the sources.  A
    path has an origin and a destination TAZ, a direction, a preferred time
    and [states], an ordered map from stop (or TAZ) id to state that is
    traversed in insertion order and indexed by position. *)
Record Path (L : Type) : Type := mkPath {
  origin_taz_id : Z;
  destination_taz_id : Z;
  preferred_time : Z;
  path_direction : direction;
  states : list (Z * State L)
}.
Arguments mkPath {L}.
Arguments origin_taz_id {L}.
Arguments destination_taz_id {L}.
Arguments preferred_time {L}.
Arguments path_direction {L}.
Arguments states {L}.

Definition outbound {L} (p : Path L) : bool :=
  bool_decide (path_direction p = OUTBOUND).

Definition num_states {L} (p : Path L) : Z := Z.of_nat (length (states p)).

(** [path.states[k] = v] on the ordered map: an existing key keeps its
    position, a new key goes to the end. *)
Fixpoint states_set {L} (k : Z) (v : State L) (l : list (Z * State L))
  : list (Z * State L) :=
  match l with
  | [] => [(k, v)]
  | (k', v') :: l' =>
      if decide (k = k') then (k, v) :: l' else (k', v') :: states_set k v l'
  end.

(** [for x in l: ...] with a body that may raise. *)
Fixpoint for_each {A S} (body : A -> S -> result S) (l : list A) (s : S)
  : result S :=
  match l with
  | [] => Ok s
  | x :: l' => s' ← body x s; for_each body l' s'
  end.

(** ** Generic facts about the error monad, loops and tables *)

Lemma bind_Ok {A B} (x : result A) (f : A -> result B) b :
  x ≫= f = Ok b -> exists a, x = Ok a /\ f a = Ok b.
Proof. destruct x as [a|]; [|done]. simpl. eauto. Qed.

Lemma for_each_inv {A S} (P : S -> Prop) (body : A -> S -> result S) l :
  (forall x s s', P s -> body x s = Ok s' -> P s') ->
  forall s s', P s -> for_each body l s = Ok s' -> P s'.
Proof.
  intros Hbody. induction l as [|x l IH]; intros s s' HP Hrun; simpl in Hrun.
  - by injection Hrun as <-.
  - destruct (body x s) as [s1|] eqn:E; simpl in Hrun; [|done].
    eapply IH; [|done]. eauto.
Qed.

Lemma for_each_inv_acc {A S N} (P : S -> Prop) (body : A -> S * N -> result (S * N)) l :
  (forall x s n s' n', P s -> body x (s, n) = Ok (s', n') -> P s') ->
  forall s n s' n', P s -> for_each body l (s, n) = Ok (s', n') -> P s'.
Proof.
  intros Hbody s n s' n' HP Hrun.
  apply (for_each_inv (fun a => P a.1) body l) with (s := (s, n)) (s' := (s', n'));
    [|done|done].
  intros x [a na] [b nb] Ha Hb. by eapply Hbody.
Qed.

Lemma list_remove_first_length x l l' :
  list_remove_first x l = Ok l' -> length l = S (length l').
Proof.
  revert l'. induction l as [|y l IH]; intros l' H; simpl in H; [done|].
  destruct (decide (x = y)); [by injection H as <-|].
  destruct (list_remove_first x l) as [l1|]; simpl in H; [|done].
  injection H as <-. simpl. f_equal. by apply IH.
Qed.

Lemma list_remove_first_elem x l :
  x ∈ l -> exists l', list_remove_first x l = Ok l'.
Proof.
  induction l as [|y l IH]; intros Hin; [by apply elem_of_nil in Hin|].
  simpl. destruct (decide (x = y)); [eauto|].
  apply elem_of_cons in Hin as [?|Hin]; [done|].
  destruct (IH Hin) as [l' ->]. simpl. eauto.
Qed.

Lemma getlist_insert {V} (m : gmap Z (list V)) k k' v :
  getlist (<[k := v]> m) k' = if decide (k = k') then v else getlist m k'.
Proof.
  unfold getlist. destruct (decide (k = k')) as [->|Hne].
  - by rewrite lookup_insert_eq.
  - by rewrite lookup_insert_ne.
Qed.

Lemma getlist_append_at {V} (m : gmap Z (list V)) k k' v :
  getlist (append_at m k v) k'
    = if decide (k = k') then getlist m k ++ [v] else getlist m k'.
Proof. unfold append_at. apply getlist_insert. Qed.

(** A loop seen with the elements still to come: an invariant on them and
    on the state, and a property of the exception when the body raises. *)
Lemma for_each_rest {A S} (P : list A -> S -> Prop) (Q : exn -> Prop)
    (body : A -> S -> result S) l s :
  (forall x rest s, P (x :: rest) s ->
     match body x s with Ok s' => P rest s' | Raise e => Q e end) ->
  P l s ->
  match for_each body l s with Ok s' => P [] s' | Raise e => Q e end.
Proof.
  intros Hbody. revert s. induction l as [|x l IH]; intros s HP; simpl; [done|].
  specialize (Hbody x l s HP). destruct (body x s) as [s1|e]; simpl; [|done].
  by apply IH.
Qed.

Lemma for_each_raise {A S} (body : A -> S -> result S) l s e :
  for_each body l s = Raise e -> exists x s1, x ∈ l /\ body x s1 = Raise e.
Proof.
  revert s. induction l as [|x l IH]; intros s H; simpl in H; [done|].
  destruct (body x s) as [s1|e1] eqn:E; simpl in H.
  - destruct (IH _ H) as (y & s2 & Hy & Hr). exists y, s2.
    split; [by apply elem_of_cons; right|done].
  - injection H as ->. exists x, s. split; [by apply elem_of_cons; left|done].
Qed.

Lemma bind_Raise {A B} (x : result A) (f : A -> result B) e :
  x ≫= f = Raise e -> x = Raise e \/ exists a, x = Ok a /\ f a = Raise e.
Proof. destruct x as [a|e']; simpl; [eauto|]. intros [= ->]. by left. Qed.

Lemma getitem_raise `{Countable K} {V} (d : gmap K V) k e :
  getitem d k = Raise e -> e = KeyError /\ d !! k = None.
Proof. unfold getitem. destruct (d !! k); [done|]. by intros [= <-]. Qed.

Lemma getassoc_raise {V} (items : list (Z * V)) k e :
  getassoc items k = Raise e -> e = KeyError /\ k ∉ items.*1.
Proof.
  induction items as [|[k' v] items IH]; simpl.
  - intros [= <-]. split; [done|]. apply not_elem_of_nil.
  - destruct (decide (k = k')); [done|]. intros H.
    destruct (IH H) as [-> Hn]. split; [done|].
    apply not_elem_of_cons. done.
Qed.

Lemma py_index_raise {A} (l : list A) i e : py_index l i = Raise e -> e = IndexError.
Proof.
  unfold py_index. destruct (_ <? 0)%Z; [by intros [= <-]|].
  destruct (l !! _); [done|]. by intros [= <-].
Qed.

Lemma py_last_raise {A} (l : list A) e :
  py_last l = Raise e -> e = IndexError /\ l = [].
Proof.
  unfold py_last. destruct (last l) eqn:E; [done|]. intros [= <-].
  split; [done|]. by apply last_None.
Qed.

Lemma list_remove_first_perm x l l' :
  list_remove_first x l = Ok l' -> l ≡ₚ x :: l'.
Proof.
  revert l'. induction l as [|y l IH]; intros l' H; simpl in H; [done|].
  destruct (decide (x = y)) as [->|Hne]; [by injection H as <-|].
  apply bind_Ok in H as (l1 & H1 & H). injection H as <-.
  rewrite (IH _ H1). apply Permutation_swap.
Qed.

Lemma list_remove_first_raise x l e :
  list_remove_first x l = Raise e -> e = ValueError /\ x ∉ l.
Proof.
  induction l as [|y l IH]; simpl.
  - intros [= <-]. split; [done|]. apply not_elem_of_nil.
  - destruct (decide (x = y)); [done|]. intros H.
    apply bind_Raise in H as [H|(a & _ & H)]; [|done].
    destruct (IH H) as [-> Hn]. split; [done|]. by apply not_elem_of_cons.
Qed.

(** Removing the head of the elements still to come from a list that holds
    them all leaves a list that holds the others. *)
Lemma list_remove_first_rest x (rest l : list Z) :
  x :: rest ⊆+ l ->
  exists l', list_remove_first x l = Ok l' /\ rest ⊆+ l'.
Proof.
  intros Hsub.
  assert (x ∈ l) as Hin.
  { eapply elem_of_submseteq; [|exact Hsub]. apply elem_of_cons. by left. }
  destruct (list_remove_first_elem _ _ Hin) as [l' Hl']. exists l'.
  split; [done|]. apply list_remove_first_perm in Hl'. rewrite Hl' in Hsub.
  by apply (submseteq_app_inv_l _ _ [x]).
Qed.

(** The number of elements of all the lists of a table. *)
Definition headcount (m : gmap Z (list Z)) : nat :=
  map_fold (fun _ l n => (length l + n)%nat) 0%nat m.

Lemma headcount_insert m k l :
  (headcount (<[k := l]> m) + length (getlist m k) = headcount m + length l)%nat.
Proof.
  unfold headcount, getlist. rewrite <- (insert_delete_eq m k l).
  rewrite map_fold_insert_L; [|intros; lia|apply lookup_delete_eq].
  destruct (m !! k) as [l0|] eqn:E; simpl.
  - rewrite (map_fold_delete_L _ _ k l0 m); [lia|intros; lia|done].
  - rewrite delete_id by done. lia.
Qed.

Lemma headcount_append_at m k v :
  headcount (append_at m k v) = S (headcount m).
Proof.
  unfold append_at.
  pose proof (headcount_insert m k (getlist m k ++ [v])) as H.
  rewrite length_app in H. simpl in H. lia.
Qed.

Lemma headcount_empty : headcount ∅ = 0%nat.
Proof. unfold headcount. apply map_fold_empty. Qed.

(** The sum of a list of counts. *)
Definition total (l : list Z) : Z := foldr Z.add 0%Z l.

Lemma total_snoc l n : total (l ++ [n]) = (total l + n)%Z.
Proof. unfold total. induction l as [|x l IH]; simpl; lia. Qed.

(** ** The delay of an inbound departure: [Assignment.delay_inbound_path_departure]

    Both path finders call it, on paths whose states carry the labels of
    the one or the other; it is embedded for any type of label. *)

Module Departure.

(** Modelled from the spec: [trips[trip_id].get_scheduled_departure(stop_id)],
    the method of a trip object that [Assignment.py] calls, is not among
    the sources (the method of the table-based class of [Trip.py] takes the
    trip id as well and reads a table).  It gives the scheduled departure of
    the trip at the stop: here the departure time of the first stop of the
    trip with that id, an exception when there is none. *)
Fixpoint get_scheduled_departure (rows : list (Z * Z * Z)) (stop_id : Z) : result Z :=
  match rows with
  | [] => Raise StopNotFound
  | (row_stop, _, departure) :: rows' =>
      if decide (row_stop = stop_id) then Ok departure
      else get_scheduled_departure rows' stop_id
  end.

Section delay.
Context {L : Type}.
(** [FT.trips], [Assignment.BUMP_BUFFER], [Assignment.bump_wait] and
    [path.preferred_time]. *)
Variable trips : gmap Z Trip.
Variable BUMP_BUFFER : Z.
Variable bump_wait : bump_wait_table.
Variable preferred : Z.

Definition set_deparr (v : Z) (state : State L) : State L :=
  mkState (STATE_LABEL state) v (STATE_DEPARRMODE state) (STATE_SUCCPRED state)
    (STATE_LINKTIME state) (STATE_HYPER state).

Definition set_linktime (v : Z) (state : State L) : State L :=
  mkState (STATE_LABEL state) (STATE_DEPARR state) (STATE_DEPARRMODE state)
    (STATE_SUCCPRED state) v (STATE_HYPER state).

(** [FT.trips[mode]]: a walk mode is no key of [FT.trips]. *)
Definition trip_of_mode (m : mode) : result Trip :=
  match m with
  | TRIP trip_id => getitem trips trip_id
  | _ => Raise KeyError
  end.

(** [delay_inbound_path_departure(FT, path, trace)], on the states of the
    path: the two states it rewrites in place are the last two items. *)
Definition delay_inbound_path_departure (states0 : list (Z * State L))
  : result (list (Z * State L)) :=
  let first_trip_idx := (Z.of_nat (length states0) - 2)%Z in
  first_trip_item ← py_index states0 first_trip_idx;
  let '(first_trip_alight_stop, first_trip_state) := first_trip_item in
  let first_trip_board_stop := STATE_SUCCPRED first_trip_state in
  first_trip ← trip_of_mode (STATE_DEPARRMODE first_trip_state);
  alight_departure ←
    get_scheduled_departure (trip_stops first_trip) first_trip_alight_stop;
  board_departure ←
    get_scheduled_departure (trip_stops first_trip) first_trip_board_stop;
  let first_trip_state1 :=
    set_linktime (alight_departure - board_departure)%Z first_trip_state in
  let stop_depart_time :=
    (STATE_DEPARR first_trip_state1 - STATE_LINKTIME first_trip_state1)%Z in
  let states1 :=
    <[Z.to_nat first_trip_idx := (first_trip_alight_stop, first_trip_state1)]>
      states0 in
  let access_idx := (Z.of_nat (length states0) - 1)%Z in
  access_item ← py_index states1 access_idx;
  let '(access_stop, access_state) := access_item in
  let access_state1 := set_deparr stop_depart_time access_state in
  let states2 := <[Z.to_nat access_idx := (access_stop, access_state1)]> states1 in
  match bump_wait !! (STATE_DEPARRMODE first_trip_state1, first_trip_board_stop) with
  | None => Ok states2
  | Some latest_time =>
      let pref_datetime := preferred in
      if (latest_time <=? pref_datetime + STATE_LINKTIME access_state1 + GRACE)%Z
      then Ok []
      else
        let start_time :=
          Z.max pref_datetime
            (latest_time - STATE_LINKTIME access_state1 - BUMP_BUFFER)%Z in
        let access_state2 :=
          set_deparr (start_time + STATE_LINKTIME access_state1)%Z access_state1 in
        let first_trip_state2 :=
          set_linktime
            (STATE_DEPARR first_trip_state1 - STATE_DEPARR access_state2)%Z
            first_trip_state1 in
        Ok (<[Z.to_nat first_trip_idx := (first_trip_alight_stop, first_trip_state2)]>
              (<[Z.to_nat access_idx := (access_stop, access_state2)]> states2))
  end.

(** *** Properties *)

Lemma py_index_last_two (front : list (Z * State L)) a b :
  py_index (front ++ [a; b]) (Z.of_nat (length (front ++ [a; b])) - 2) = Ok a
  /\ py_index (front ++ [a; b]) (Z.of_nat (length (front ++ [a; b])) - 1) = Ok b.
Proof.
  rewrite length_app. simpl. unfold py_index. split.
  - destruct (Z.ltb_spec (Z.of_nat (length front + 2) - 2) 0); [lia|].
    destruct (Z.ltb_spec (Z.of_nat (length front + 2) - 2) 0); [lia|].
    replace (Z.to_nat (Z.of_nat (length front + 2) - 2)) with (length front + 0)%nat
      by lia.
    rewrite lookup_app_r by lia.
    by replace (length front + 0 - length front)%nat with 0%nat by lia.
  - destruct (Z.ltb_spec (Z.of_nat (length front + 2) - 1) 0); [lia|].
    destruct (Z.ltb_spec (Z.of_nat (length front + 2) - 1) 0); [lia|].
    replace (Z.to_nat (Z.of_nat (length front + 2) - 1)) with (length front + 1)%nat
      by lia.
    rewrite lookup_app_r by lia.
    by replace (length front + 1 - length front)%nat with 1%nat by lia.
Qed.

Lemma insert_last_two (front : list (Z * State L)) a b x y :
  <[Z.to_nat (Z.of_nat (length (front ++ [a; b])) - 2) := x]> (front ++ [a; b])
    = front ++ [x; b]
  /\ <[Z.to_nat (Z.of_nat (length (front ++ [a; b])) - 1) := y]> (front ++ [a; b])
     = front ++ [a; y].
Proof.
  rewrite length_app. simpl. split.
  - replace (Z.to_nat (Z.of_nat (length front + 2) - 2)) with (length front + 0)%nat
      by lia.
    by rewrite insert_app_r.
  - replace (Z.to_nat (Z.of_nat (length front + 2) - 1)) with (length front + 1)%nat
      by lia.
    by rewrite insert_app_r.
Qed.

(** X14. The delay of the departure of an inbound path.  The path ends with the
    state of its first trip (kept under the stop where the passenger alights,
    with the boarding stop as predecessor) and its access state.  The link time
    of the trip becomes the scheduled ride from the boarding stop to the
    alighting stop and the passenger reaches the boarding stop just in time
    for it; every other state is left alone.  When a bumped passenger waits for
    that trip at that stop, the path is dropped if the passenger cannot be
    there, with the grace of 0.01 minute, before the bumped passenger started
    waiting; otherwise the passenger starts no earlier than the preferred time
    and, with a non-negative buffer, reaches the stop no later than the bumped
    passenger did. *)
Theorem delay_of_inbound_departure front alight_stop trip_state access_stop
    access_state trip_id trip alight_departure board_departure :
  STATE_DEPARRMODE trip_state = TRIP trip_id ->
  trips !! trip_id = Some trip ->
  get_scheduled_departure (trip_stops trip) alight_stop = Ok alight_departure ->
  get_scheduled_departure (trip_stops trip) (STATE_SUCCPRED trip_state)
    = Ok board_departure ->
  let states0 := front ++ [(alight_stop, trip_state); (access_stop, access_state)] in
  let ride := (alight_departure - board_departure)%Z in
  let walk := STATE_LINKTIME access_state in
  match bump_wait !! (TRIP trip_id, STATE_SUCCPRED trip_state) with
  | None =>
      delay_inbound_path_departure states0
      = Ok (front
            ++ [(alight_stop, set_linktime ride trip_state);
                (access_stop,
                 set_deparr (STATE_DEPARR trip_state - ride)%Z access_state)])
  | Some latest_time =>
      if (latest_time <=? preferred + walk + GRACE)%Z
      then delay_inbound_path_departure states0 = Ok []
      else
        let start_time := Z.max preferred (latest_time - walk - BUMP_BUFFER)%Z in
        delay_inbound_path_departure states0
        = Ok (front
              ++ [(alight_stop,
                   set_linktime (STATE_DEPARR trip_state - (start_time + walk))%Z
                     trip_state);
                  (access_stop, set_deparr (start_time + walk)%Z access_state)])
        /\ (preferred <= start_time)%Z
        /\ ((0 <= BUMP_BUFFER)%Z -> (start_time + walk <= latest_time)%Z)
  end.
Proof.
  intros Hmode Htrip Hal Hbo states0 ride walk.
  unfold delay_inbound_path_departure.
  destruct (py_index_last_two front (alight_stop, trip_state)
              (access_stop, access_state)) as [Hi1 Hi2].
  fold states0 in Hi1, Hi2. rewrite Hi1. simpl.
  rewrite Hmode. simpl. unfold getitem. rewrite Htrip. simpl.
  rewrite Hal. simpl. rewrite Hbo. simpl. fold ride.
  destruct (insert_last_two front (alight_stop, trip_state)
              (access_stop, access_state)
              (alight_stop, set_linktime ride trip_state)
              (access_stop, access_state)) as [Hs1 _].
  fold states0 in Hs1. rewrite Hs1.
  assert (Z.of_nat (length states0)
          = Z.of_nat (length (front ++ [(alight_stop, set_linktime ride trip_state);
                                        (access_stop, access_state)]))) as Hlen
    by (unfold states0; by rewrite !length_app).
  rewrite Hlen.
  destruct (py_index_last_two front (alight_stop, set_linktime ride trip_state)
              (access_stop, access_state)) as [_ Hi3].
  rewrite Hi3. simpl.
  destruct (bump_wait !! (TRIP trip_id, STATE_SUCCPRED trip_state)) as [latest|].
  - fold walk. destruct (Z.leb_spec latest (preferred + walk + GRACE)); [done|].
    split; [|split; [lia|unfold GRACE in *; lia]].
    f_equal.
    destruct (insert_last_two front (alight_stop, set_linktime ride trip_state)
                (access_stop, access_state) (alight_stop, trip_state)
                (access_stop,
                 set_deparr (STATE_DEPARR trip_state - ride)%Z access_state))
      as [_ ->].
    set (acc1 := set_deparr (STATE_DEPARR trip_state - ride)%Z access_state).
    set (start := Z.max preferred (latest - walk - BUMP_BUFFER)%Z).
    assert (Z.of_nat (length (front ++ [(alight_stop, set_linktime ride trip_state);
                                        (access_stop, access_state)]))
            = Z.of_nat (length (front ++ [(alight_stop,
                                           set_linktime ride trip_state);
                                          (access_stop, acc1)]))) as Hlen2
      by (by rewrite !length_app).
    rewrite Hlen2.
    destruct (insert_last_two front (alight_stop, set_linktime ride trip_state)
                (access_stop, acc1) (alight_stop, trip_state)
                (access_stop, set_deparr (start + walk)%Z acc1)) as [_ ->].
    assert (Z.of_nat (length (front ++ [(alight_stop,
                                         set_linktime ride trip_state);
                                        (access_stop, acc1)]))
            = Z.of_nat (length (front ++ [(alight_stop,
                                           set_linktime ride trip_state);
                                          (access_stop,
                                           set_deparr (start + walk)%Z acc1)])))
      as Hlen3 by (by rewrite !length_app).
    rewrite Hlen3.
    destruct (insert_last_two front (alight_stop, set_linktime ride trip_state)
                (access_stop, set_deparr (start + walk)%Z acc1)
                (alight_stop,
                 set_linktime (STATE_DEPARR trip_state - (start + walk))%Z
                   (set_linktime ride trip_state))
                (access_stop, access_state)) as [-> _].
    done.
  - f_equal.
    destruct (insert_last_two front (alight_stop, set_linktime ride trip_state)
                (access_stop, access_state) (alight_stop, trip_state)
                (access_stop,
                 set_deparr (STATE_DEPARR trip_state - ride)%Z access_state))
      as [_ ->].
    done.
Qed.

End delay.

End Departure.

(** ** The assignment controller: [Assignment.assign_paths] *)

Module Controller.

Inductive assignment_type : Type :=
  | ASSIGNMENT_TYPE_SIM_ONLY
  | ASSIGNMENT_TYPE_DET_ASGN
  | ASSIGNMENT_TYPE_STO_ASGN.

#[global] Instance assignment_type_eq_dec : EqDecision assignment_type.
Proof. solve_decision. Defined.

(** [100.0*num_bumped_passengers/num_paths_assigned]; the float division
    raises [ZeroDivisionError] on a zero divisor. *)
Definition capacity_gap (num_bumped_passengers num_paths_assigned : Z) : result Q :=
  if decide (num_paths_assigned = 0%Z) then Raise ZeroDivisionError
  else Ok (Qdiv (inject_Z (100 * num_bumped_passengers)) (inject_Z num_paths_assigned)).

(** [capacity_gap < 0.001] *)
Definition gap_closed (gap : Q) : bool :=
  if Qlt_le_dec gap (1 # 1000) then true else false.

Section assign_paths.
(** [FT]: the schedule and the passengers with their paths and
    simulation status; both callees update it in place. *)
Context {FastTrips : Type}.
Variable ITERATION_FLAG : Z.
Variable ASSIGNMENT_TYPE : assignment_type.
Variable SIMULATION_FLAG : bool.
(** [Assignment.assign_passengers(FT, iteration)], which reads
    [Assignment.bump_wait] and returns the number of paths assigned. *)
Variable assign_passengers :
  FastTrips -> bump_wait_table -> Z -> result (Z * FastTrips).
(** [Assignment.simulate(FT)], which updates [Assignment.bump_wait] and
    returns the number of passengers arrived. *)
Variable simulate :
  FastTrips -> bump_wait_table -> result (Z * FastTrips * bump_wait_table).

(** The variables live across the iterations of the loop of
    [assign_paths].  The local [num_passengers_arrived] is bound only once
    [simulate] has returned. *)
Record loop_state : Type := mkLoop {
  FT : FastTrips;
  bump_wait : bump_wait_table;
  num_passengers_arrived : option Z
}.

(** One pass through the body of the [for iteration in ...] loop, up to
    the test of the [break]: the state after it and whether the loop is
    left.  (The writing of the passenger files is not modelled.) *)
Definition iteration_body (iteration : Z) (s : loop_state)
  : result (loop_state * bool) :=
  '(num_paths_assigned, ft1) ←
     (if decide (ASSIGNMENT_TYPE = ASSIGNMENT_TYPE_SIM_ONLY)
      then Raise SimulationOnlyNotImplemented
      else assign_passengers (FT s) (bump_wait s) iteration);
  s2 ← (if SIMULATION_FLAG
        then '(arrived, ft2, bw2) ← simulate ft1 (bump_wait s);
             Ok (mkLoop ft2 bw2 (Some arrived))
        else Ok (mkLoop ft1 (bump_wait s) (num_passengers_arrived s)));
  arrived ← match num_passengers_arrived s2 with
            | Some n => Ok n
            | None => Raise UnboundLocalError
            end;
  let num_bumped_passengers := (num_paths_assigned - arrived)%Z in
  gap ← capacity_gap num_bumped_passengers num_paths_assigned;
  Ok (s2, gap_closed gap
          || bool_decide (ASSIGNMENT_TYPE = ASSIGNMENT_TYPE_STO_ASGN)).

(** The [for] loop over the iteration numbers still to run.  It returns
    the iteration numbers that were begun (the ones the loop logs with
    its "ITERATION %d" line) and the outcome. *)
Fixpoint iterations (its : list Z) (s : loop_state)
  : list Z * result loop_state :=
  match its with
  | [] => ([], Ok s)
  | iteration :: rest =>
      match iteration_body iteration s with
      | Raise e => ([iteration], Raise e)
      | Ok (s', true) => ([iteration], Ok s')
      | Ok (s', false) =>
          let '(begun, r) := iterations rest s' in (iteration :: begun, r)
      end
  end.

(** [range(1, ITERATION_FLAG+1)] *)
Definition iteration_range : list Z :=
  map Z.of_nat (seq 1 (Z.to_nat ITERATION_FLAG)).

(** [assign_paths]: [Assignment.bump_wait = {}], then the loop.  (The
    final writing of the load profile is not modelled.) *)
Definition assign_paths (ft : FastTrips) : list Z * result loop_state :=
  iterations iteration_range (mkLoop ft ∅ None).

(** *** Properties *)

Lemma iterations_begun_le its s :
  (length (iterations its s).1 <= length its)%nat.
Proof.
  revert s. induction its as [|i rest IH]; intros s; simpl; [lia|].
  destruct (iteration_body i s) as [[s' [|]]|e]; simpl; try lia.
  specialize (IH s'). destruct (iterations rest s') as [begun r]. simpl in *. lia.
Qed.

Lemma iterations_begun_prefix its s :
  (iterations its s).1 = take (length (iterations its s).1) its.
Proof.
  revert s. induction its as [|i rest IH]; intros s; simpl; [done|].
  destruct (iteration_body i s) as [[s' [|]]|e]; simpl; try done.
  specialize (IH s'). destruct (iterations rest s') as [begun r]. simpl in *.
  by f_equal.
Qed.

Lemma iteration_range_length : length iteration_range = Z.to_nat ITERATION_FLAG.
Proof. unfold iteration_range. by rewrite length_map, length_seq. Qed.

Lemma iterations_sto_one i rest s :
  ASSIGNMENT_TYPE = ASSIGNMENT_TYPE_STO_ASGN ->
  (iterations (i :: rest) s).1 = [i].
Proof.
  intros Hsto. simpl.
  destruct (iteration_body i s) as [[s' b]|e] eqn:Hb; [|done].
  assert (b = true) as ->; [|done].
  unfold iteration_body in Hb.
  repeat match type of Hb with
  | (mbind _ ?x) = _ => destruct x as [?|?]; simpl in Hb; [|discriminate]
  | context [let '(_, _) := ?p in _] => destruct p
  end.
  injection Hb as _ <-. rewrite bool_decide_eq_true_2 by done.
  by rewrite orb_true_r.
Qed.

(** C2. [assign_paths] begins at most [ITERATION_FLAG] iterations; the loop
    is left after an iteration whose capacity gap
    [100*(paths_found - passengers_arrived)/paths_found] is below [0.001] or
    when the assignment type is stochastic; and in stochastic mode (with
    [ITERATION_FLAG] at least one) exactly one iteration is run. *)
Theorem assign_paths_iterations (ft : FastTrips) :
  (Z.of_nat (length (assign_paths ft).1) <= Z.max 0 ITERATION_FLAG)%Z
  /\ (forall iteration rest s paths ft1 arrived ft2 bw2 gap,
        ASSIGNMENT_TYPE <> ASSIGNMENT_TYPE_SIM_ONLY ->
        SIMULATION_FLAG = true ->
        assign_passengers (FT s) (bump_wait s) iteration = Ok (paths, ft1) ->
        simulate ft1 (bump_wait s) = Ok (arrived, ft2, bw2) ->
        capacity_gap (paths - arrived) paths = Ok gap ->
        Qlt gap (1 # 1000) \/ ASSIGNMENT_TYPE = ASSIGNMENT_TYPE_STO_ASGN ->
        iterations (iteration :: rest) s
          = ([iteration], Ok (mkLoop ft2 bw2 (Some arrived))))
  /\ (ASSIGNMENT_TYPE = ASSIGNMENT_TYPE_STO_ASGN ->
      (1 <= ITERATION_FLAG)%Z ->
      (assign_paths ft).1 = [1%Z]).
Proof.
  split; [|split].
  - unfold assign_paths.
    pose proof (iterations_begun_le iteration_range (mkLoop ft ∅ None)) as Hle.
    rewrite iteration_range_length in Hle. lia.
  - intros iteration rest s paths ft1 arrived ft2 bw2 gap Hns Hsim Ha Hs Hg Hor.
    simpl. unfold iteration_body.
    rewrite decide_False by done. rewrite Ha. simpl.
    rewrite Hsim, Hs. simpl. rewrite Hg. simpl.
    assert (gap_closed gap
            || bool_decide (ASSIGNMENT_TYPE = ASSIGNMENT_TYPE_STO_ASGN) = true) as ->;
      [|done].
    destruct Hor as [Hlt|Hsto].
    + unfold gap_closed. destruct (Qlt_le_dec gap (1 # 1000)) as [|Hle]; [done|].
      exfalso. eapply Qlt_not_le; eauto.
    + rewrite (bool_decide_eq_true_2 _ Hsto). apply orb_true_r.
  - intros Hsto Hge. unfold assign_paths, iteration_range.
    destruct (Z.to_nat ITERATION_FLAG) as [|n] eqn:Hn; [lia|].
    simpl seq. simpl map. by apply iterations_sto_one.
Qed.

(** With the simulation switched off the local [num_passengers_arrived] is
    never bound, and the first iteration stops at its first use. *)
Lemma iterations_no_simulation iteration rest ft bw paths ft1 :
  ASSIGNMENT_TYPE <> ASSIGNMENT_TYPE_SIM_ONLY ->
  SIMULATION_FLAG = false ->
  assign_passengers ft bw iteration = Ok (paths, ft1) ->
  iterations (iteration :: rest) (mkLoop ft bw None)
    = ([iteration], Raise UnboundLocalError).
Proof.
  intros Hns Hsim Ha. simpl. unfold iteration_body. simpl.
  rewrite decide_False by done. rewrite Ha. simpl. by rewrite Hsim.
Qed.

(** C8. If an iteration of [assign_paths] assigns zero paths, the capacity
    gap computation divides by zero: the iteration (simulation on, the
    simulator having returned) ends the run with an uncaught
    [ZeroDivisionError]; nothing later is run and no state is returned. *)
Theorem assign_paths_zero_paths iteration rest s ft1 arrived ft2 bw2 :
  ASSIGNMENT_TYPE <> ASSIGNMENT_TYPE_SIM_ONLY ->
  SIMULATION_FLAG = true ->
  assign_passengers (FT s) (bump_wait s) iteration = Ok (0%Z, ft1) ->
  simulate ft1 (bump_wait s) = Ok (arrived, ft2, bw2) ->
  capacity_gap (0 - arrived) 0 = Raise ZeroDivisionError
  /\ iterations (iteration :: rest) s = ([iteration], Raise ZeroDivisionError).
Proof.
  intros Hns Hsim Ha Hs. split; [done|].
  simpl. unfold iteration_body.
  rewrite decide_False by done. rewrite Ha. simpl.
  by rewrite Hsim, Hs.
Qed.

End assign_paths.

End Controller.

(** A stochastic run configured for three iterations in which two paths are
    assigned and one passenger arrives: one iteration is run. *)
Lemma assign_paths_iterations_witness :
  let assign := fun (ft : unit) (_ : bump_wait_table) (_ : Z) => Ok (2%Z, ft) in
  let sim := fun (ft : unit) (bw : bump_wait_table) => Ok (1%Z, ft, bw) in
  (Controller.assign_paths 3 Controller.ASSIGNMENT_TYPE_STO_ASGN true assign sim tt).1
    = [1%Z]
  /\ Controller.iterations Controller.ASSIGNMENT_TYPE_STO_ASGN true assign sim
       [1%Z; 2%Z; 3%Z] (Controller.mkLoop tt ∅ None)
     = ([1%Z], Ok (Controller.mkLoop tt ∅ (Some 1%Z))).
Proof.
  intros assign sim.
  destruct (Controller.assign_paths_iterations 3 Controller.ASSIGNMENT_TYPE_STO_ASGN
              true assign sim tt) as (_ & Hexit & Hsto).
  split.
  - apply Hsto; [reflexivity | lia].
  - eapply (Hexit 1%Z [2%Z; 3%Z] (Controller.mkLoop tt ∅ None) 2%Z tt 1%Z tt ∅);
      [discriminate | reflexivity | reflexivity | reflexivity | reflexivity
      | right; reflexivity].
Defined.

(** A deterministic run whose first iteration assigns no path at all. *)
Lemma assign_paths_zero_paths_witness :
  let assign := fun (ft : unit) (_ : bump_wait_table) (_ : Z) => Ok (0%Z, ft) in
  let sim := fun (ft : unit) (bw : bump_wait_table) => Ok (0%Z, ft, bw) in
  Controller.capacity_gap (0 - 0) 0 = Raise ZeroDivisionError
  /\ Controller.assign_paths 2 Controller.ASSIGNMENT_TYPE_DET_ASGN true assign sim tt
     = ([1%Z], Raise ZeroDivisionError).
Proof.
  intros assign sim.
  apply (Controller.assign_paths_zero_paths Controller.ASSIGNMENT_TYPE_DET_ASGN true
           assign sim 1%Z [2%Z] (Controller.mkLoop tt ∅ None) tt 0%Z tt ∅);
    [discriminate | reflexivity | reflexivity | reflexivity].
Defined.

(** ** The simulator: [Assignment.simulate] *)

Module Simulator.

(** Modelled from the spec: the [Passenger] and [Event] classes are not
    among the sources.  A passenger's status is one of INITIAL, WALKING,
    WAITING, ON_BOARD, ARRIVED, BUMPED; an event has a trip, a stop, a time
    and a type, ARRIVAL or DEPARTURE. *)
Inductive status : Type :=
  | STATUS_INITIAL
  | STATUS_WALKING
  | STATUS_WAITING
  | STATUS_ON_BOARD
  | STATUS_ARRIVED
  | STATUS_BUMPED.

Inductive event_type : Type :=
  | EVENT_TYPE_ARRIVAL
  | EVENT_TYPE_DEPARTURE.

(** An element of [FT.events]. *)
Record Event : Type := mkEvent {
  trip_id : Z;
  stop_id : Z;
  event_time : Z;
  event_kind : event_type
}.

Section simulate.
Context {L Dwell : Type}.
(** [FT.passengers]: passenger id to the passenger's path, as the items of
    the dict in iteration order. *)
Variable passengers : list (Z * Path L).
(** [FT.trips] *)
Variable trips : gmap Z Trip.
(** [Path.goes_somewhere()] and [Path.path_found()], methods of the [Path]
    class, taken as given. *)
Variable goes_somewhere : Path L -> bool.
Variable path_found : Path L -> bool.
(** [Trip.calculate_dwell_time(boards, alights)], the trip's dwell formula,
    taken as given. *)
Variable calculate_dwell_time : Trip -> Z -> Z -> Dwell.
Variable CAPACITY_CONSTRAINT : bool.

(** The local variables of [simulate], with [Assignment.bump_wait], the one
    table that outlives the call.  [bump_log] is a history variable: it is
    written at each bump and never read. *)
Record sim : Type := mkSim {
  (* trip_id to current [passenger_ids] on board *)
  trip_pax : gmap Z (list Z);
  (* stop_id to current [passenger_ids] waiting to board *)
  stop_pax : gmap Z (list Z);
  (* passenger id to (current passenger status, current path idx) *)
  passenger_id_to_state : gmap Z (status * Z);
  (* passenger ids for passengers who are currently walking or transfering *)
  transfer_passengers : list Z;
  (* passenger id to [arrival time] at stops *)
  passenger_arrivals : gmap Z (list Z);
  (* passenger id to [board time] at stops *)
  passenger_boards : gmap Z (list Z);
  (* passenger id to [alight time] at stops *)
  passenger_alights : gmap Z (list Z);
  (* passenger id to arrival time at destination TAZ *)
  passenger_dest_arrivals : gmap Z Z;
  (* trip_id to [number boards per stop] *)
  trip_boards : gmap Z (list Z);
  (* trip_id to [number alights per stop] *)
  trip_alights : gmap Z (list Z);
  (* trip_id to [dwell times per stop] *)
  trip_dwells : gmap Z (list Dwell);
  events_simulated : Z;
  (* arrived at destination TAZ *)
  passengers_arrived : Z;
  passengers_bumped : Z;
  (* Assignment.bump_wait *)
  bump_wait : bump_wait_table;
  (* history: (trip_id, stop_id, arrival at stop) of each bump, oldest first *)
  bump_log : list (Z * Z * Z)
}.

Definition set_trip_pax (v : gmap Z (list Z)) (s : sim) : sim :=
  {| trip_pax := v; stop_pax := stop_pax s;
     passenger_id_to_state := passenger_id_to_state s;
     transfer_passengers := transfer_passengers s;
     passenger_arrivals := passenger_arrivals s;
     passenger_boards := passenger_boards s;
     passenger_alights := passenger_alights s;
     passenger_dest_arrivals := passenger_dest_arrivals s;
     trip_boards := trip_boards s; trip_alights := trip_alights s;
     trip_dwells := trip_dwells s; events_simulated := events_simulated s;
     passengers_arrived := passengers_arrived s;
     passengers_bumped := passengers_bumped s; bump_wait := bump_wait s;
     bump_log := bump_log s |}.

Definition set_stop_pax (v : gmap Z (list Z)) (s : sim) : sim :=
  {| trip_pax := trip_pax s; stop_pax := v;
     passenger_id_to_state := passenger_id_to_state s;
     transfer_passengers := transfer_passengers s;
     passenger_arrivals := passenger_arrivals s;
     passenger_boards := passenger_boards s;
     passenger_alights := passenger_alights s;
     passenger_dest_arrivals := passenger_dest_arrivals s;
     trip_boards := trip_boards s; trip_alights := trip_alights s;
     trip_dwells := trip_dwells s; events_simulated := events_simulated s;
     passengers_arrived := passengers_arrived s;
     passengers_bumped := passengers_bumped s; bump_wait := bump_wait s;
     bump_log := bump_log s |}.

Definition set_passenger_id_to_state (v : gmap Z (status * Z)) (s : sim) : sim :=
  {| trip_pax := trip_pax s; stop_pax := stop_pax s;
     passenger_id_to_state := v;
     transfer_passengers := transfer_passengers s;
     passenger_arrivals := passenger_arrivals s;
     passenger_boards := passenger_boards s;
     passenger_alights := passenger_alights s;
     passenger_dest_arrivals := passenger_dest_arrivals s;
     trip_boards := trip_boards s; trip_alights := trip_alights s;
     trip_dwells := trip_dwells s; events_simulated := events_simulated s;
     passengers_arrived := passengers_arrived s;
     passengers_bumped := passengers_bumped s; bump_wait := bump_wait s;
     bump_log := bump_log s |}.

Definition set_transfer_passengers (v : list Z) (s : sim) : sim :=
  {| trip_pax := trip_pax s; stop_pax := stop_pax s;
     passenger_id_to_state := passenger_id_to_state s;
     transfer_passengers := v; passenger_arrivals := passenger_arrivals s;
     passenger_boards := passenger_boards s;
     passenger_alights := passenger_alights s;
     passenger_dest_arrivals := passenger_dest_arrivals s;
     trip_boards := trip_boards s; trip_alights := trip_alights s;
     trip_dwells := trip_dwells s; events_simulated := events_simulated s;
     passengers_arrived := passengers_arrived s;
     passengers_bumped := passengers_bumped s; bump_wait := bump_wait s;
     bump_log := bump_log s |}.

Definition set_passenger_arrivals (v : gmap Z (list Z)) (s : sim) : sim :=
  {| trip_pax := trip_pax s; stop_pax := stop_pax s;
     passenger_id_to_state := passenger_id_to_state s;
     transfer_passengers := transfer_passengers s; passenger_arrivals := v;
     passenger_boards := passenger_boards s;
     passenger_alights := passenger_alights s;
     passenger_dest_arrivals := passenger_dest_arrivals s;
     trip_boards := trip_boards s; trip_alights := trip_alights s;
     trip_dwells := trip_dwells s; events_simulated := events_simulated s;
     passengers_arrived := passengers_arrived s;
     passengers_bumped := passengers_bumped s; bump_wait := bump_wait s;
     bump_log := bump_log s |}.

Definition set_passenger_boards (v : gmap Z (list Z)) (s : sim) : sim :=
  {| trip_pax := trip_pax s; stop_pax := stop_pax s;
     passenger_id_to_state := passenger_id_to_state s;
     transfer_passengers := transfer_passengers s;
     passenger_arrivals := passenger_arrivals s; passenger_boards := v;
     passenger_alights := passenger_alights s;
     passenger_dest_arrivals := passenger_dest_arrivals s;
     trip_boards := trip_boards s; trip_alights := trip_alights s;
     trip_dwells := trip_dwells s; events_simulated := events_simulated s;
     passengers_arrived := passengers_arrived s;
     passengers_bumped := passengers_bumped s; bump_wait := bump_wait s;
     bump_log := bump_log s |}.

Definition set_passenger_alights (v : gmap Z (list Z)) (s : sim) : sim :=
  {| trip_pax := trip_pax s; stop_pax := stop_pax s;
     passenger_id_to_state := passenger_id_to_state s;
     transfer_passengers := transfer_passengers s;
     passenger_arrivals := passenger_arrivals s;
     passenger_boards := passenger_boards s; passenger_alights := v;
     passenger_dest_arrivals := passenger_dest_arrivals s;
     trip_boards := trip_boards s; trip_alights := trip_alights s;
     trip_dwells := trip_dwells s; events_simulated := events_simulated s;
     passengers_arrived := passengers_arrived s;
     passengers_bumped := passengers_bumped s; bump_wait := bump_wait s;
     bump_log := bump_log s |}.

Definition set_passenger_dest_arrivals (v : gmap Z Z) (s : sim) : sim :=
  {| trip_pax := trip_pax s; stop_pax := stop_pax s;
     passenger_id_to_state := passenger_id_to_state s;
     transfer_passengers := transfer_passengers s;
     passenger_arrivals := passenger_arrivals s;
     passenger_boards := passenger_boards s;
     passenger_alights := passenger_alights s; passenger_dest_arrivals := v;
     trip_boards := trip_boards s; trip_alights := trip_alights s;
     trip_dwells := trip_dwells s; events_simulated := events_simulated s;
     passengers_arrived := passengers_arrived s;
     passengers_bumped := passengers_bumped s; bump_wait := bump_wait s;
     bump_log := bump_log s |}.

Definition set_trip_boards (v : gmap Z (list Z)) (s : sim) : sim :=
  {| trip_pax := trip_pax s; stop_pax := stop_pax s;
     passenger_id_to_state := passenger_id_to_state s;
     transfer_passengers := transfer_passengers s;
     passenger_arrivals := passenger_arrivals s;
     passenger_boards := passenger_boards s;
     passenger_alights := passenger_alights s;
     passenger_dest_arrivals := passenger_dest_arrivals s; trip_boards := v;
     trip_alights := trip_alights s; trip_dwells := trip_dwells s;
     events_simulated := events_simulated s;
     passengers_arrived := passengers_arrived s;
     passengers_bumped := passengers_bumped s; bump_wait := bump_wait s;
     bump_log := bump_log s |}.

Definition set_trip_alights (v : gmap Z (list Z)) (s : sim) : sim :=
  {| trip_pax := trip_pax s; stop_pax := stop_pax s;
     passenger_id_to_state := passenger_id_to_state s;
     transfer_passengers := transfer_passengers s;
     passenger_arrivals := passenger_arrivals s;
     passenger_boards := passenger_boards s;
     passenger_alights := passenger_alights s;
     passenger_dest_arrivals := passenger_dest_arrivals s;
     trip_boards := trip_boards s; trip_alights := v;
     trip_dwells := trip_dwells s; events_simulated := events_simulated s;
     passengers_arrived := passengers_arrived s;
     passengers_bumped := passengers_bumped s; bump_wait := bump_wait s;
     bump_log := bump_log s |}.

Definition set_trip_dwells (v : gmap Z (list Dwell)) (s : sim) : sim :=
  {| trip_pax := trip_pax s; stop_pax := stop_pax s;
     passenger_id_to_state := passenger_id_to_state s;
     transfer_passengers := transfer_passengers s;
     passenger_arrivals := passenger_arrivals s;
     passenger_boards := passenger_boards s;
     passenger_alights := passenger_alights s;
     passenger_dest_arrivals := passenger_dest_arrivals s;
     trip_boards := trip_boards s; trip_alights := trip_alights s;
     trip_dwells := v; events_simulated := events_simulated s;
     passengers_arrived := passengers_arrived s;
     passengers_bumped := passengers_bumped s; bump_wait := bump_wait s;
     bump_log := bump_log s |}.

Definition set_events_simulated (v : Z) (s : sim) : sim :=
  {| trip_pax := trip_pax s; stop_pax := stop_pax s;
     passenger_id_to_state := passenger_id_to_state s;
     transfer_passengers := transfer_passengers s;
     passenger_arrivals := passenger_arrivals s;
     passenger_boards := passenger_boards s;
     passenger_alights := passenger_alights s;
     passenger_dest_arrivals := passenger_dest_arrivals s;
     trip_boards := trip_boards s; trip_alights := trip_alights s;
     trip_dwells := trip_dwells s; events_simulated := v;
     passengers_arrived := passengers_arrived s;
     passengers_bumped := passengers_bumped s; bump_wait := bump_wait s;
     bump_log := bump_log s |}.

Definition set_passengers_arrived (v : Z) (s : sim) : sim :=
  {| trip_pax := trip_pax s; stop_pax := stop_pax s;
     passenger_id_to_state := passenger_id_to_state s;
     transfer_passengers := transfer_passengers s;
     passenger_arrivals := passenger_arrivals s;
     passenger_boards := passenger_boards s;
     passenger_alights := passenger_alights s;
     passenger_dest_arrivals := passenger_dest_arrivals s;
     trip_boards := trip_boards s; trip_alights := trip_alights s;
     trip_dwells := trip_dwells s; events_simulated := events_simulated s;
     passengers_arrived := v; passengers_bumped := passengers_bumped s;
     bump_wait := bump_wait s; bump_log := bump_log s |}.

Definition set_passengers_bumped (v : Z) (s : sim) : sim :=
  {| trip_pax := trip_pax s; stop_pax := stop_pax s;
     passenger_id_to_state := passenger_id_to_state s;
     transfer_passengers := transfer_passengers s;
     passenger_arrivals := passenger_arrivals s;
     passenger_boards := passenger_boards s;
     passenger_alights := passenger_alights s;
     passenger_dest_arrivals := passenger_dest_arrivals s;
     trip_boards := trip_boards s; trip_alights := trip_alights s;
     trip_dwells := trip_dwells s; events_simulated := events_simulated s;
     passengers_arrived := passengers_arrived s; passengers_bumped := v;
     bump_wait := bump_wait s; bump_log := bump_log s |}.

Definition set_bump_wait (v : bump_wait_table) (s : sim) : sim :=
  {| trip_pax := trip_pax s; stop_pax := stop_pax s;
     passenger_id_to_state := passenger_id_to_state s;
     transfer_passengers := transfer_passengers s;
     passenger_arrivals := passenger_arrivals s;
     passenger_boards := passenger_boards s;
     passenger_alights := passenger_alights s;
     passenger_dest_arrivals := passenger_dest_arrivals s;
     trip_boards := trip_boards s; trip_alights := trip_alights s;
     trip_dwells := trip_dwells s; events_simulated := events_simulated s;
     passengers_arrived := passengers_arrived s;
     passengers_bumped := passengers_bumped s; bump_wait := v;
     bump_log := bump_log s |}.

Definition set_bump_log (v : list (Z * Z * Z)) (s : sim) : sim :=
  {| trip_pax := trip_pax s; stop_pax := stop_pax s;
     passenger_id_to_state := passenger_id_to_state s;
     transfer_passengers := transfer_passengers s;
     passenger_arrivals := passenger_arrivals s;
     passenger_boards := passenger_boards s;
     passenger_alights := passenger_alights s;
     passenger_dest_arrivals := passenger_dest_arrivals s;
     trip_boards := trip_boards s; trip_alights := trip_alights s;
     trip_dwells := trip_dwells s; events_simulated := events_simulated s;
     passengers_arrived := passengers_arrived s;
     passengers_bumped := passengers_bumped s; bump_wait := bump_wait s;
     bump_log := v |}.

(** The state at the start of [simulate]: every passenger who goes somewhere
    and has a path starts [WALKING] at the access end of the path. *)
Definition reset_passenger (passenger_id : Z) (s : sim) : result sim :=
  passenger_path ← getassoc passengers passenger_id;
  if negb (goes_somewhere passenger_path) then Ok s
  else if negb (path_found passenger_path) then Ok s
  else Ok (set_transfer_passengers (transfer_passengers s ++ [passenger_id])
          (set_passenger_id_to_state
             (<[passenger_id :=
                  (STATUS_WALKING,
                   if outbound passenger_path then 0
                   else num_states passenger_path - 1)%Z]>
                (passenger_id_to_state s)) s)).

Definition initial (bw : bump_wait_table) : sim :=
  {| trip_pax := ∅; stop_pax := ∅; passenger_id_to_state := ∅;
     transfer_passengers := []; passenger_arrivals := ∅;
     passenger_boards := ∅; passenger_alights := ∅;
     passenger_dest_arrivals := ∅; trip_boards := ∅; trip_alights := ∅;
     trip_dwells := ∅; events_simulated := 0; passengers_arrived := 0;
     passengers_bumped := 0; bump_wait := bw; bump_log := [] |}.

(** The passenger's path index, path, and the item of the path's states at
    that index: [path.states.items()[path_idx]]. *)
Definition current_item (passenger_id : Z) (s : sim)
  : result (Z * Path L * Z * State L) :=
  st ← getitem (passenger_id_to_state s) passenger_id;
  path ← getassoc passengers passenger_id;
  item ← py_index (states path) st.2;
  Ok (st.2, path, item.1, item.2).

(** The body of the alighting loop of an ARRIVAL event. *)
Definition alight_one (e : Event) (passenger_id : Z) (acc : sim * Z)
  : result (sim * Z) :=
  let '(s, num_alights) := acc in
  '(path_idx, path, state_stop, path_state) ← current_item passenger_id s;
  let alight_stop :=
    if outbound path then STATE_SUCCPRED path_state else state_stop in
  if negb (bool_decide (alight_stop = stop_id e)) then Ok (s, num_alights)
  else
    on_board ← list_remove_first passenger_id (getlist (trip_pax s) (trip_id e));
    Ok (set_trip_pax (<[trip_id e := on_board]> (trip_pax s))
        (set_transfer_passengers (transfer_passengers s ++ [passenger_id])
        (set_passenger_alights
           (append_at (passenger_alights s) passenger_id (event_time e))
        (set_passenger_id_to_state
           (<[passenger_id :=
                (STATUS_WALKING,
                 path_idx + (if outbound path then 1 else -1))%Z]>
              (passenger_id_to_state s)) s))),
        (num_alights + 1)%Z).

(** The body of the loop over the walking passengers of a DEPARTURE event. *)
Definition walk_one (e : Event) (passenger_id : Z) (s : sim) : result sim :=
  '(path_idx, path, state_stop, path_state) ← current_item passenger_id s;
  alight_time ←
    (if outbound path && bool_decide (path_idx = 0%Z)
     then Ok (STATE_DEPARR path_state)
     else if negb (outbound path)
             && bool_decide (path_idx = (num_states path - 1)%Z)
     then Ok (STATE_DEPARR path_state - STATE_LINKTIME path_state)%Z
     else py_last (getlist (passenger_alights s) passenger_id));
  let '(walk_time, board_stop, new_path_idx) :=
    if is_walk_mode (STATE_DEPARRMODE path_state)
    then (STATE_LINKTIME path_state,
          if outbound path then STATE_SUCCPRED path_state else state_stop,
          (path_idx + (if outbound path then 1 else -1))%Z)
    else (0%Z,
          if outbound path then state_stop else STATE_SUCCPRED path_state,
          path_idx) in
  let arrive_time := (alight_time + walk_time)%Z in
  if negb (arrive_time <=? event_time e)%Z then Ok s
  else
    let s1 :=
      if bool_decide (STATE_DEPARRMODE path_state = EGRESS)
      then set_passengers_arrived (passengers_arrived s + 1)%Z
           (set_passenger_dest_arrivals
              (<[passenger_id := arrive_time]> (passenger_dest_arrivals s))
           (set_passenger_id_to_state
              (<[passenger_id := (STATUS_ARRIVED, new_path_idx)]>
                 (passenger_id_to_state s)) s))
      else set_passenger_arrivals
             (append_at (passenger_arrivals s) passenger_id arrive_time)
           (set_stop_pax (append_at (stop_pax s) board_stop passenger_id)
           (set_passenger_id_to_state
              (<[passenger_id := (STATUS_WAITING, new_path_idx)]>
                 (passenger_id_to_state s)) s)) in
    walking ← list_remove_first passenger_id (transfer_passengers s1);
    Ok (set_transfer_passengers walking s1).

(** The update of [Assignment.bump_wait] at a bump: the entry is written
    when there is none, or when the stored time is later than the
    passenger's arrival at the stop. *)
Definition update_bump_wait (bw : bump_wait_table) (key : mode * Z) (arrival : Z)
  : bump_wait_table :=
  match bw !! key with
  | None => <[key := arrival]> bw
  | Some t => if (arrival <? t)%Z then <[key := arrival]> bw else bw
  end.

(** The body of the boarding loop of a DEPARTURE event. *)
Definition board_one (e : Event) (passenger_id : Z) (acc : sim * Z)
  : result (sim * Z) :=
  let '(s, num_boards) := acc in
  '(path_idx, path, state_stop, path_state) ← current_item passenger_id s;
  if negb (bool_decide (STATE_DEPARRMODE path_state = TRIP (trip_id e)))
  then Ok (s, num_boards)
  else
    trip ← getitem trips (trip_id e);
    let available_capacity :=
      (capacity trip - Z.of_nat (length (getlist (trip_pax s) (trip_id e))))%Z in
    '(s1, num_boards1) ←
      (if CAPACITY_CONSTRAINT && bool_decide (available_capacity = 0%Z)
       then
         arrival ← py_last (getlist (passenger_arrivals s) passenger_id);
         Ok (set_bump_log (bump_log s ++ [(trip_id e, stop_id e, arrival)])
             (set_passengers_bumped (passengers_bumped s + 1)%Z
             (set_bump_wait
                (update_bump_wait (bump_wait s) (TRIP (trip_id e), stop_id e) arrival)
             (set_passenger_id_to_state
                (<[passenger_id := (STATUS_BUMPED, -1)%Z]>
                   (passenger_id_to_state s)) s))),
             num_boards)
       else
         Ok (set_passenger_boards
               (append_at (passenger_boards s) passenger_id (event_time e))
             (set_passenger_id_to_state
                (<[passenger_id := (STATUS_ON_BOARD, path_idx)]>
                   (passenger_id_to_state s))
             (set_trip_pax (append_at (trip_pax s) (trip_id e) passenger_id) s)),
             (num_boards + 1)%Z));
    waiting ← list_remove_first passenger_id (getlist (stop_pax s1) (stop_id e));
    Ok (set_stop_pax (<[stop_id e := waiting]> (stop_pax s1)) s1, num_boards1).

(** The body of the loop over [FT.events]. *)
Definition process_event (e : Event) (s : sim) : result sim :=
  s' ←
    match event_kind e with
    | EVENT_TYPE_ARRIVAL =>
        '(s1, num_alights) ←
          for_each (alight_one e) (getlist (trip_pax s) (trip_id e)) (s, 0%Z);
        Ok (set_trip_alights
              (append_at (trip_alights s1) (trip_id e) num_alights) s1)
    | EVENT_TYPE_DEPARTURE =>
        s1 ← for_each (walk_one e) (transfer_passengers s) s;
        '(s2, num_boards) ←
          for_each (board_one e) (getlist (stop_pax s1) (stop_id e)) (s1, 0%Z);
        let s3 :=
          set_trip_boards (append_at (trip_boards s2) (trip_id e) num_boards) s2 in
        trip ← getitem trips (trip_id e);
        boards ← py_last (getlist (trip_boards s3) (trip_id e));
        alights ← py_last (getlist (trip_alights s3) (trip_id e));
        Ok (set_trip_dwells
              (append_at (trip_dwells s3) (trip_id e)
                 (calculate_dwell_time trip boards alights)) s3)
    end;
  Ok (set_events_simulated (events_simulated s' + 1)%Z s').

Definition run_events (events : list Event) (s : sim) : result sim :=
  for_each process_event events s.

(** [simulate(FT)], started with [Assignment.bump_wait = bw]: the number of
    passengers arrived, with the final tables.  (The copy of the final
    statuses and times into the passengers and trips is the returned
    state.) *)
Definition simulate (events : list Event) (bw : bump_wait_table)
  : result (Z * sim) :=
  s0 ← for_each reset_passenger passengers.*1 (initial bw);
  s ← run_events events s0;
  Ok (passengers_arrived s, s).

(** *** Properties *)

(** The passengers on board a trip. *)
Definition on_board (s : sim) (tid : Z) : list Z := getlist (trip_pax s) tid.

(** No trip carries more passengers than its capacity. *)
Definition cap_ok (s : sim) : Prop :=
  forall tid trip, trips !! tid = Some trip ->
    (Z.of_nat (length (on_board s tid)) <= capacity trip)%Z.

(** The points of an event pass started in [s0]: the states after any
    number of loop bodies and whole events. *)
Inductive point (s0 : sim) : sim -> Prop :=
  | point_start : point s0 s0
  | point_alight e pid s n s' n' :
      point s0 s -> alight_one e pid (s, n) = Ok (s', n') -> point s0 s'
  | point_walk e pid s s' :
      point s0 s -> walk_one e pid s = Ok s' -> point s0 s'
  | point_board e pid s n s' n' :
      point s0 s -> board_one e pid (s, n) = Ok (s', n') -> point s0 s'
  | point_event e s s' :
      point s0 s -> process_event e s = Ok s' -> point s0 s'.

Lemma run_events_point s0 events s s' :
  point s0 s -> run_events events s = Ok s' -> point s0 s'.
Proof.
  intros Hp Hrun. eapply (for_each_inv (point s0)); [|exact Hp|exact Hrun].
  intros e s1 s2 H1 H2. by eapply point_event.
Qed.

Lemma alight_one_cap e pid s n s' n' :
  cap_ok s -> alight_one e pid (s, n) = Ok (s', n') -> cap_ok s'.
Proof.
  intros Hc H. unfold alight_one in H.
  destruct (current_item pid s) as [[[[idx path] sstop] pstate]|] eqn:E;
    simpl in H; [|done].
  destruct (negb _); [by injection H as <- <-|].
  destruct (list_remove_first _ _) as [l'|] eqn:Hl; simpl in H; [|done].
  injection H as <- <-. intros tid trip Htrip. unfold on_board. simpl.
  rewrite getlist_insert. specialize (Hc tid trip Htrip). unfold on_board in Hc.
  destruct (decide (trip_id e = tid)) as [<-|]; [|done].
  apply list_remove_first_length in Hl. lia.
Qed.

Lemma walk_one_trip_pax e pid s s' :
  walk_one e pid s = Ok s' -> trip_pax s' = trip_pax s.
Proof.
  intros H. unfold walk_one in H.
  destruct (current_item pid s) as [[[[idx path] sstop] pstate]|] eqn:E;
    simpl in H; [|done].
  match type of H with mbind _ ?x = _ => destruct x as [alight_time|] end;
    simpl in H; [|done].
  destruct (if is_walk_mode _ then _ else _) as [[walk_time board_stop] new_idx].
  destruct (negb _); [by injection H as <-|].
  match type of H with mbind _ ?x = _ => destruct x as [walking|] end;
    simpl in H; [|done].
  injection H as <-. simpl. by destruct (bool_decide _).
Qed.

Lemma board_one_cap e pid s n s' n' :
  CAPACITY_CONSTRAINT = true ->
  cap_ok s -> board_one e pid (s, n) = Ok (s', n') -> cap_ok s'.
Proof.
  intros Hcc Hc H. unfold board_one in H. rewrite Hcc in H. simpl in H.
  destruct (current_item pid s) as [[[[idx path] sstop] pstate]|] eqn:E;
    simpl in H; [|done].
  destruct (negb _); [by injection H as <- <-|].
  destruct (getitem trips (trip_id e)) as [trip|] eqn:Ht; simpl in H; [|done].
  unfold getitem in Ht. destruct (trips !! trip_id e) as [trip'|] eqn:Ht'; [|done].
  injection Ht as ->.
  case_bool_decide as Hav; simpl in H.
  - destruct (py_last _) as [arr|]; simpl in H; [|done].
    destruct (list_remove_first _ _) as [w|]; simpl in H; [|done].
    injection H as <- <-. intros tid tr Htr. unfold on_board. simpl.
    by apply Hc.
  - destruct (list_remove_first _ _) as [w|]; simpl in H; [|done].
    injection H as <- <-. intros tid tr Htr. unfold on_board. simpl.
    rewrite getlist_append_at. specialize (Hc tid tr Htr). unfold on_board in Hc.
    destruct (decide (trip_id e = tid)) as [<-|]; [|done].
    rewrite length_app. simpl. rewrite Htr in Ht'. injection Ht' as <-. lia.
Qed.

Lemma process_event_cap e s s' :
  CAPACITY_CONSTRAINT = true ->
  cap_ok s -> process_event e s = Ok s' -> cap_ok s'.
Proof.
  intros Hcc Hc H. unfold process_event in H.
  apply bind_Ok in H as (s1' & H & Hs'). injection Hs' as <-.
  destruct (event_kind e).
  - destruct (for_each _ _ _) as [[s1 na]|] eqn:Hl; simpl in H; [|done].
    injection H as <-.
    assert (cap_ok s1) as H1.
    { eapply (for_each_inv_acc cap_ok); [|exact Hc|exact Hl].
      intros x u nu v nv Hu Hv. by eapply alight_one_cap. }
    exact H1.
  - destruct (for_each (walk_one e) _ _) as [s1|] eqn:Hw; simpl in H; [|done].
    destruct (for_each (board_one e) _ _) as [[s2 nb]|] eqn:Hb; simpl in H; [|done].
    apply bind_Ok in H as (trip & _ & H).
    apply bind_Ok in H as (b & _ & H).
    apply bind_Ok in H as (a & _ & H).
    injection H as <-.
    assert (cap_ok s1) as H1.
    { eapply (for_each_inv cap_ok); [|exact Hc|exact Hw].
      intros x u v Hu Hv tid tr Htr. unfold on_board.
      rewrite (walk_one_trip_pax _ _ _ _ Hv). by apply Hu. }
    assert (cap_ok s2) as H2.
    { eapply (for_each_inv_acc cap_ok); [|exact H1|exact Hb].
      intros x u nu v nv Hu Hv. by eapply board_one_cap. }
    exact H2.
Qed.

Lemma point_cap s0 s :
  CAPACITY_CONSTRAINT = true -> cap_ok s0 -> point s0 s -> cap_ok s.
Proof.
  intros Hcc H0. induction 1 as [|e pid s n s' n' _ IH H|e pid s s' _ IH H
                                |e pid s n s' n' _ IH H|e s s' _ IH H].
  - done.
  - by eapply alight_one_cap.
  - intros tid tr Htr. unfold on_board.
    rewrite (walk_one_trip_pax _ _ _ _ H). by apply IH.
  - by eapply board_one_cap.
  - by eapply process_event_cap.
Qed.

Lemma reset_passenger_trip_pax pid s s' :
  reset_passenger pid s = Ok s' -> trip_pax s' = trip_pax s.
Proof.
  unfold reset_passenger. intros H.
  destruct (getassoc passengers pid) as [p|]; simpl in H; [|done].
  destruct (negb _); [by injection H as <-|].
  destruct (negb _); [by injection H as <-|].
  by injection H as <-.
Qed.

(** The state in which the event pass starts. *)
Definition started (bw : bump_wait_table) (s0 : sim) : Prop :=
  for_each reset_passenger passengers.*1 (initial bw) = Ok s0.

Lemma started_trip_pax bw s0 : started bw s0 -> trip_pax s0 = ∅.
Proof.
  intros H. eapply (for_each_inv (fun s => trip_pax s = ∅)); [| |exact H]; [|done].
  intros x s s' Hs Hr. by rewrite (reset_passenger_trip_pax _ _ _ Hr).
Qed.

Lemma started_cap bw s0 :
  (forall tid trip, trips !! tid = Some trip -> (0 <= capacity trip)%Z) ->
  started bw s0 -> cap_ok s0.
Proof.
  intros Hnn Hs tid trip Htrip. unfold on_board, getlist.
  rewrite (started_trip_pax _ _ Hs), lookup_empty. simpl. eauto.
Qed.

Lemma board_one_full e pid s n path_idx path state_stop path_state trip arrival :
  CAPACITY_CONSTRAINT = true ->
  current_item pid s = Ok (path_idx, path, state_stop, path_state) ->
  STATE_DEPARRMODE path_state = TRIP (trip_id e) ->
  trips !! trip_id e = Some trip ->
  pid ∈ getlist (stop_pax s) (stop_id e) ->
  (capacity trip - Z.of_nat (length (on_board s (trip_id e))) = 0)%Z ->
  last (getlist (passenger_arrivals s) pid) = Some arrival ->
  exists s', board_one e pid (s, n) = Ok (s', n)
    /\ on_board s' (trip_id e) = on_board s (trip_id e)
    /\ passenger_id_to_state s' !! pid = Some (STATUS_BUMPED, (-1)%Z)
    /\ bump_wait s'
       = update_bump_wait (bump_wait s) (TRIP (trip_id e), stop_id e) arrival
    /\ bump_log s' = bump_log s ++ [(trip_id e, stop_id e, arrival)].
Proof.
  intros Hcc Hitem Hmode Htrip Hwait Hav Harr.
  destruct (list_remove_first_elem _ _ Hwait) as [w Hw].
  unfold board_one. rewrite Hitem. simpl. rewrite Hmode.
  rewrite bool_decide_eq_true_2 by done. simpl.
  unfold getitem. rewrite Htrip. simpl. rewrite Hcc. unfold on_board in Hav.
  rewrite bool_decide_eq_true_2 by done. simpl.
  unfold py_last. rewrite Harr. simpl. rewrite Hw. simpl.
  eexists. split; [done|]. simpl. split; [done|]. split; [|done].
  by rewrite lookup_insert_eq.
Qed.

Lemma board_one_room e pid s n path_idx path state_stop path_state trip :
  current_item pid s = Ok (path_idx, path, state_stop, path_state) ->
  STATE_DEPARRMODE path_state = TRIP (trip_id e) ->
  trips !! trip_id e = Some trip ->
  pid ∈ getlist (stop_pax s) (stop_id e) ->
  (capacity trip - Z.of_nat (length (on_board s (trip_id e))) <> 0)%Z ->
  exists s', board_one e pid (s, n) = Ok (s', (n + 1)%Z)
    /\ on_board s' (trip_id e) = on_board s (trip_id e) ++ [pid]
    /\ passenger_id_to_state s' !! pid = Some (STATUS_ON_BOARD, path_idx)
    /\ bump_wait s' = bump_wait s
    /\ bump_log s' = bump_log s.
Proof.
  intros Hitem Hmode Htrip Hwait Hav.
  destruct (list_remove_first_elem _ _ Hwait) as [w Hw].
  unfold board_one. rewrite Hitem. simpl. rewrite Hmode.
  rewrite bool_decide_eq_true_2 by done. simpl.
  unfold getitem. rewrite Htrip. simpl. unfold on_board in Hav.
  rewrite (bool_decide_eq_false_2 _ Hav). rewrite andb_false_r. simpl.
  rewrite Hw. simpl.
  eexists. split; [done|]. simpl. split; [|split; [|done]].
  - unfold on_board. simpl. rewrite getlist_append_at. by rewrite decide_True.
  - by rewrite lookup_insert_eq.
Qed.

(** C3. With [CAPACITY_CONSTRAINT] on, at every point of the event pass no
    trip has more passengers on board than its capacity; at a DEPARTURE a
    waiting passenger whose next state is the trip boards when the capacity
    less the number on board is not zero and is marked [BUMPED] when it is. *)
Theorem capacity_respected bw s0 :
  CAPACITY_CONSTRAINT = true ->
  (forall tid trip, trips !! tid = Some trip -> (0 <= capacity trip)%Z) ->
  started bw s0 ->
  (forall s, point s0 s ->
     forall tid trip, trips !! tid = Some trip ->
       (Z.of_nat (length (on_board s tid)) <= capacity trip)%Z)
  /\ (forall events s, run_events events s0 = Ok s -> point s0 s)
  /\ (forall e pid s n path_idx path state_stop path_state trip,
        current_item pid s = Ok (path_idx, path, state_stop, path_state) ->
        STATE_DEPARRMODE path_state = TRIP (trip_id e) ->
        trips !! trip_id e = Some trip ->
        pid ∈ getlist (stop_pax s) (stop_id e) ->
        if decide (capacity trip - Z.of_nat (length (on_board s (trip_id e))) = 0)%Z
        then forall arrival,
               last (getlist (passenger_arrivals s) pid) = Some arrival ->
               exists s', board_one e pid (s, n) = Ok (s', n)
                 /\ on_board s' (trip_id e) = on_board s (trip_id e)
                 /\ passenger_id_to_state s' !! pid = Some (STATUS_BUMPED, (-1)%Z)
        else exists s', board_one e pid (s, n) = Ok (s', (n + 1)%Z)
               /\ on_board s' (trip_id e) = on_board s (trip_id e) ++ [pid]
               /\ passenger_id_to_state s' !! pid = Some (STATUS_ON_BOARD, path_idx)).
Proof.
  intros Hcc Hnn Hs. split; [|split].
  - intros s Hp. apply (point_cap s0 s Hcc); [|done]. by eapply started_cap.
  - intros events s Hrun. eapply run_events_point; [apply point_start|done].
  - intros e pid s n path_idx path state_stop path_state trip Hi Hm Ht Hw.
    destruct (decide _) as [Hav|Hav].
    + intros arrival Harr.
      destruct (board_one_full e pid s n _ _ _ _ _ _ Hcc Hi Hm Ht Hw Hav Harr)
        as (s' & ? & ? & ? & _). eauto.
    + destruct (board_one_room e pid s n _ _ _ _ _ Hi Hm Ht Hw Hav)
        as (s' & ? & ? & ? & _). eauto.
Qed.

(** *** The bump-wait table *)

Definition earlier (acc : option Z) (t : Z) : option Z :=
  Some (match acc with None => t | Some a => Z.min a t end).

(** The earliest of an optional earlier value and a list of times. *)
Definition earliest (o : option Z) (l : list Z) : option Z :=
  fold_left earlier l o.

(** The arrival-at-stop times of the bumps logged under a key. *)
Definition observed (log : list (Z * Z * Z)) (key : mode * Z) : list Z :=
  (filter (fun x => (TRIP x.1.1, x.1.2) = key) log).*2.

Definition bump_inv (bw : bump_wait_table) (s : sim) : Prop :=
  forall key, bump_wait s !! key = earliest (bw !! key) (observed (bump_log s) key).

Lemma update_bump_wait_lookup bw key arrival key' :
  update_bump_wait bw key arrival !! key'
    = if decide (key = key') then earlier (bw !! key) arrival else bw !! key'.
Proof.
  unfold update_bump_wait, earlier.
  destruct (decide (key = key')) as [<-|Hne].
  - destruct (bw !! key) as [t|] eqn:E.
    + destruct (Z.ltb_spec arrival t).
      * rewrite lookup_insert_eq. f_equal. lia.
      * rewrite E. f_equal. lia.
    + by rewrite lookup_insert_eq.
  - destruct (bw !! key) as [t|] eqn:E.
    + destruct (arrival <? t)%Z; [by rewrite lookup_insert_ne|done].
    + by rewrite lookup_insert_ne.
Qed.

Lemma earliest_snoc o l t : earliest o (l ++ [t]) = earlier (earliest o l) t.
Proof. unfold earliest. by rewrite fold_left_app. Qed.

Lemma observed_snoc log trip stop arrival key :
  observed (log ++ [(trip, stop, arrival)]) key
    = if decide ((TRIP trip, stop) = key) then observed log key ++ [arrival]
      else observed log key.
Proof.
  unfold observed. rewrite filter_app, fmap_app.
  destruct (decide ((TRIP trip, stop) = key)) as [Heq|Hne].
  - by rewrite filter_cons_True.
  - rewrite filter_cons_False by done. by rewrite filter_nil, app_nil_r.
Qed.

Lemma earliest_spec o l :
  match earliest o l with
  | Some v => (v ∈ l \/ o = Some v)
              /\ (forall t, t ∈ l -> (v <= t)%Z)
              /\ (forall a, o = Some a -> (v <= a)%Z)
  | None => o = None /\ l = []
  end.
Proof.
  induction l as [|t l IH] using rev_ind.
  - simpl. destruct o as [a|]; [|done].
    split; [by right|]. split; [by intros t Ht; apply elem_of_nil in Ht|].
    intros ? [= <-]. lia.
  - rewrite earliest_snoc. unfold earlier. destruct (earliest o l) as [v|].
    + destruct IH as (Hin & Hle & Hole). split; [|split].
      * destruct (Z.min_spec v t) as [[_ ->]|[_ ->]].
        -- destruct Hin as [?|?]; [left; apply elem_of_app; by left|by right].
        -- left. apply elem_of_app. right. by apply list_elem_of_singleton.
      * intros t' [Ht'|Ht']%elem_of_app.
        -- specialize (Hle _ Ht'). lia.
        -- apply list_elem_of_singleton in Ht' as ->. lia.
      * intros a Ha. specialize (Hole _ Ha). lia.
    + destruct IH as [-> ->]. split; [|split].
      * left. by apply list_elem_of_singleton.
      * intros t' Ht'. apply list_elem_of_singleton in Ht' as ->. lia.
      * done.
Qed.

Lemma alight_one_bump e pid s n s' n' :
  alight_one e pid (s, n) = Ok (s', n') ->
  bump_wait s' = bump_wait s /\ bump_log s' = bump_log s.
Proof.
  intros H. unfold alight_one in H.
  destruct (current_item pid s) as [[[[idx path] sstop] pstate]|] eqn:E;
    simpl in H; [|done].
  destruct (negb _); [by injection H as <- <-|].
  destruct (list_remove_first _ _) as [l'|] eqn:Hl; simpl in H; [|done].
  by injection H as <- <-.
Qed.

Lemma walk_one_bump e pid s s' :
  walk_one e pid s = Ok s' ->
  bump_wait s' = bump_wait s /\ bump_log s' = bump_log s.
Proof.
  intros H. unfold walk_one in H.
  destruct (current_item pid s) as [[[[idx path] sstop] pstate]|] eqn:E;
    simpl in H; [|done].
  match type of H with mbind _ ?x = _ => destruct x as [alight_time|] end;
    simpl in H; [|done].
  destruct (if is_walk_mode _ then _ else _) as [[walk_time board_stop] new_idx].
  destruct (negb _); [by injection H as <-|].
  match type of H with mbind _ ?x = _ => destruct x as [walking|] end;
    simpl in H; [|done].
  injection H as <-. simpl. by destruct (bool_decide _).
Qed.

Lemma board_one_bump bw e pid s n s' n' :
  bump_inv bw s -> board_one e pid (s, n) = Ok (s', n') -> bump_inv bw s'.
Proof.
  intros Hinv H. unfold board_one in H.
  destruct (current_item pid s) as [[[[idx path] sstop] pstate]|] eqn:E;
    simpl in H; [|done].
  destruct (negb _); [by injection H as <- <-|].
  apply bind_Ok in H as (trip & _ & H).
  destruct (CAPACITY_CONSTRAINT && _).
  - apply bind_Ok in H as ([s1 n1] & H1 & H).
    apply bind_Ok in H1 as (arr & _ & H1). injection H1 as <- <-.
    apply bind_Ok in H as (w & _ & H). injection H as <- <-.
    intros key. simpl. rewrite update_bump_wait_lookup, observed_snoc.
    destruct (decide _) as [Heq|Hne]; [|apply Hinv].
    by rewrite earliest_snoc, <- Heq, Hinv.
  - apply bind_Ok in H as ([s1 n1] & H1 & H). injection H1 as <- <-.
    apply bind_Ok in H as (w & _ & H). injection H as <- <-.
    intros key. simpl. apply Hinv.
Qed.

Lemma process_event_bump bw e s s' :
  bump_inv bw s -> process_event e s = Ok s' -> bump_inv bw s'.
Proof.
  intros Hinv H. unfold process_event in H.
  apply bind_Ok in H as (s1' & H & Hs'). injection Hs' as <-.
  destruct (event_kind e).
  - apply bind_Ok in H as ([s1 na] & Hl & H). injection H as <-.
    assert (bump_inv bw s1) as H1; [|exact H1].
    eapply (for_each_inv_acc (bump_inv bw)); [|exact Hinv|exact Hl].
    intros x u nu v nv Hu Hv key.
    destruct (alight_one_bump _ _ _ _ _ _ Hv) as [-> ->]. apply Hu.
  - apply bind_Ok in H as (s1 & Hw & H).
    apply bind_Ok in H as ([s2 nb] & Hb & H).
    apply bind_Ok in H as (trip & _ & H).
    apply bind_Ok in H as (b & _ & H).
    apply bind_Ok in H as (a & _ & H).
    injection H as <-.
    assert (bump_inv bw s1) as H1.
    { eapply (for_each_inv (bump_inv bw)); [|exact Hinv|exact Hw].
      intros x u v Hu Hv key.
      destruct (walk_one_bump _ _ _ _ Hv) as [-> ->]. apply Hu. }
    assert (bump_inv bw s2) as H2; [|exact H2].
    eapply (for_each_inv_acc (bump_inv bw)); [|exact H1|exact Hb].
    intros x u nu v nv Hu Hv. by eapply board_one_bump.
Qed.

Lemma point_bump bw s0 s : bump_inv bw s0 -> point s0 s -> bump_inv bw s.
Proof.
  intros H0. induction 1 as [|e pid s n s' n' _ IH H|e pid s s' _ IH H
                            |e pid s n s' n' _ IH H|e s s' _ IH H].
  - done.
  - intros key. destruct (alight_one_bump _ _ _ _ _ _ H) as [-> ->]. apply IH.
  - intros key. destruct (walk_one_bump _ _ _ _ H) as [-> ->]. apply IH.
  - by eapply board_one_bump.
  - by eapply process_event_bump.
Qed.

Lemma reset_passenger_bump pid s s' :
  reset_passenger pid s = Ok s' ->
  bump_wait s' = bump_wait s /\ bump_log s' = bump_log s.
Proof.
  unfold reset_passenger. intros H.
  destruct (getassoc passengers pid) as [p|]; simpl in H; [|done].
  destruct (negb _); [by injection H as <-|].
  destruct (negb _); [by injection H as <-|].
  by injection H as <-.
Qed.

Lemma started_bump bw s0 : started bw s0 -> bump_inv bw s0.
Proof.
  intros H.
  assert (bump_wait s0 = bw /\ bump_log s0 = []) as [Hb Hl].
  { eapply (for_each_inv (fun s => bump_wait s = bw /\ bump_log s = []));
      [| |exact H]; [|done].
    intros x s s' [<- <-] Hr. by apply reset_passenger_bump in Hr. }
  intros key. by rewrite Hb, Hl.
Qed.

(** An entry of the table never goes away and never grows. *)
Definition never_later (s s' : sim) : Prop :=
  forall key v, bump_wait s !! key = Some v ->
    exists v', bump_wait s' !! key = Some v' /\ (v' <= v)%Z.

Lemma never_later_refl s : never_later s s.
Proof. intros key v H. exists v. split; [done|lia]. Qed.

Lemma never_later_trans s1 s2 s3 :
  never_later s1 s2 -> never_later s2 s3 -> never_later s1 s3.
Proof.
  intros H12 H23 key v H. destruct (H12 key v H) as (v2 & H2 & Hle2).
  destruct (H23 key v2 H2) as (v3 & H3 & Hle3). exists v3. split; [done|lia].
Qed.

Lemma never_later_same s s' : bump_wait s' = bump_wait s -> never_later s s'.
Proof. intros Heq key v H. exists v. rewrite Heq. split; [done|lia]. Qed.

Lemma board_one_never_later e pid s n s' n' :
  board_one e pid (s, n) = Ok (s', n') -> never_later s s'.
Proof.
  intros H. unfold board_one in H.
  destruct (current_item pid s) as [[[[idx path] sstop] pstate]|] eqn:E;
    simpl in H; [|done].
  destruct (negb _); [injection H as <- <-; apply never_later_refl|].
  apply bind_Ok in H as (trip & _ & H).
  destruct (CAPACITY_CONSTRAINT && _).
  - apply bind_Ok in H as ([s1 n1] & H1 & H).
    apply bind_Ok in H1 as (arr & _ & H1). injection H1 as <- <-.
    apply bind_Ok in H as (w & _ & H). injection H as <- <-.
    intros key v Hv. simpl. rewrite update_bump_wait_lookup.
    destruct (decide _) as [<-|Hne].
    + rewrite Hv. simpl. eexists. split; [done|]. lia.
    + exists v. split; [done|lia].
  - apply bind_Ok in H as ([s1 n1] & H1 & H). injection H1 as <- <-.
    apply bind_Ok in H as (w & _ & H). injection H as <- <-.
    by apply never_later_same.
Qed.

Lemma process_event_never_later e s s' :
  process_event e s = Ok s' -> never_later s s'.
Proof.
  intros H. unfold process_event in H.
  apply bind_Ok in H as (s1' & H & Hs'). injection Hs' as <-.
  destruct (event_kind e).
  - apply bind_Ok in H as ([s1 na] & Hl & H). injection H as <-.
    assert (never_later s s1) as H1; [|exact H1].
    eapply (for_each_inv_acc (never_later s)); [|apply never_later_refl|exact Hl].
    intros x u nu v nv Hu Hv. eapply never_later_trans; [exact Hu|].
    apply never_later_same. by destruct (alight_one_bump _ _ _ _ _ _ Hv).
  - apply bind_Ok in H as (s1 & Hw & H).
    apply bind_Ok in H as ([s2 nb] & Hb & H).
    apply bind_Ok in H as (trip & _ & H).
    apply bind_Ok in H as (b & _ & H).
    apply bind_Ok in H as (a & _ & H).
    injection H as <-.
    assert (never_later s s1) as H1.
    { eapply (for_each_inv (never_later s)); [|apply never_later_refl|exact Hw].
      intros x u v Hu Hv. eapply never_later_trans; [exact Hu|].
      apply never_later_same. by destruct (walk_one_bump _ _ _ _ Hv). }
    assert (never_later s s2) as H2; [|exact H2].
    eapply (for_each_inv_acc (never_later s)); [|exact H1|exact Hb].
    intros x u nu v nv Hu Hv. eapply never_later_trans; [exact Hu|].
    by eapply board_one_never_later.
Qed.

Lemma point_never_later s s' : point s s' -> never_later s s'.
Proof.
  induction 1 as [|e pid s1 n s' n' _ IH H|e pid s1 s' _ IH H
                 |e pid s1 n s' n' _ IH H|e s1 s' _ IH H].
  - apply never_later_refl.
  - eapply never_later_trans; [exact IH|].
    apply never_later_same. by destruct (alight_one_bump _ _ _ _ _ _ H).
  - eapply never_later_trans; [exact IH|].
    apply never_later_same. by destruct (walk_one_bump _ _ _ _ H).
  - eapply never_later_trans; [exact IH|]. by eapply board_one_never_later.
  - eapply never_later_trans; [exact IH|]. by eapply process_event_never_later.
Qed.

(** C1. Within one call of [simulate] the entry of the bump-wait table of
    every (trip, stop) only ever decreases: a bump overwrites it only when
    there is no entry or the bumped passenger's arrival at the stop is
    strictly earlier; so at every point of the event pass the entry is the
    minimum of the arrival-at-stop times of the passengers bumped there so
    far and of the entry the call started with. *)
Theorem bump_wait_is_earliest bw s0 :
  started bw s0 ->
  (forall table key arrival,
     update_bump_wait table key arrival !! key
       = Some (match table !! key with
               | None => arrival
               | Some t => if (arrival <? t)%Z then arrival else t
               end)
     /\ (forall t, table !! key = Some t -> (t <= arrival)%Z ->
           update_bump_wait table key arrival = table)
     /\ (forall key', key' <> key ->
           update_bump_wait table key arrival !! key' = table !! key'))
  /\ (forall events s, run_events events s0 = Ok s -> point s0 s)
  /\ (forall s s', point s0 s -> point s s' -> forall trip stop v,
        bump_wait s !! (TRIP trip, stop) = Some v ->
        exists v', bump_wait s' !! (TRIP trip, stop) = Some v' /\ (v' <= v)%Z)
  /\ (forall s, point s0 s -> forall trip stop,
        let seen := observed (bump_log s) (TRIP trip, stop) in
        bump_wait s !! (TRIP trip, stop) = earliest (bw !! (TRIP trip, stop)) seen
        /\ match bump_wait s !! (TRIP trip, stop) with
           | Some v => (v ∈ seen \/ bw !! (TRIP trip, stop) = Some v)
                       /\ (forall t, t ∈ seen -> (v <= t)%Z)
                       /\ (forall a, bw !! (TRIP trip, stop) = Some a -> (v <= a)%Z)
           | None => bw !! (TRIP trip, stop) = None /\ seen = []
           end).
Proof.
  intros Hs. split; [|split; [|split]].
  - intros table key arrival. split; [|split].
    + unfold update_bump_wait. destruct (table !! key) as [t|] eqn:E.
      * destruct (arrival <? t)%Z; [by rewrite lookup_insert_eq|done].
      * by rewrite lookup_insert_eq.
    + intros t Ht Hle. unfold update_bump_wait. rewrite Ht.
      destruct (Z.ltb_spec arrival t); [lia|done].
    + intros key' Hne. rewrite update_bump_wait_lookup.
      by rewrite decide_False.
  - intros events s Hrun. eapply run_events_point; [apply point_start|done].
  - intros s s' _ Hp trip stop v Hv. by apply (point_never_later s s' Hp).
  - intros s Hp trip stop seen.
    pose proof (point_bump bw s0 s (started_bump _ _ Hs) Hp (TRIP trip, stop)) as Hinv.
    split; [exact Hinv|]. rewrite Hinv. apply earliest_spec.
Qed.

(** *** The removals from the passenger lists *)

Lemma current_item_raise pid s e :
  current_item pid s = Raise e -> e <> ValueError.
Proof.
  unfold current_item. intros H.
  apply bind_Raise in H as [H|(st & _ & H)];
    [by apply getitem_raise in H as [-> _]|].
  apply bind_Raise in H as [H|(p & _ & H)];
    [by apply getassoc_raise in H as [-> _]|].
  apply bind_Raise in H as [H|(it & _ & H)]; [|done].
  by apply py_index_raise in H as ->.
Qed.

Lemma alight_one_remove e pid rest s n :
  pid :: rest ⊆+ getlist (trip_pax s) (trip_id e) ->
  match alight_one e pid (s, n) with
  | Ok a => rest ⊆+ getlist (trip_pax a.1) (trip_id e)
  | Raise err => err <> ValueError
  end.
Proof.
  intros Hsub. unfold alight_one.
  destruct (current_item pid s) as [[[[idx path] sstop] pstate]|err] eqn:E; simpl;
    [|by eapply current_item_raise].
  destruct (negb _); simpl.
  { etrans; [|exact Hsub]. by apply submseteq_cons. }
  destruct (list_remove_first_rest _ _ _ Hsub) as (l' & -> & Hrest). simpl.
  by rewrite getlist_insert, decide_True.
Qed.

Lemma walk_one_remove e pid rest s :
  pid :: rest ⊆+ transfer_passengers s ->
  match walk_one e pid s with
  | Ok s' => rest ⊆+ transfer_passengers s'
  | Raise err => err <> ValueError
  end.
Proof.
  intros Hsub. unfold walk_one.
  destruct (current_item pid s) as [[[[idx path] sstop] pstate]|err] eqn:E; simpl;
    [|by eapply current_item_raise].
  match goal with
  | |- context [mbind _ ?x] => destruct x as [alight_time|err] eqn:Ea
  end; simpl.
  2:{ destruct (_ && _); [done|]. destruct (_ && _); [done|].
      by apply py_last_raise in Ea as [-> _]. }
  destruct (if is_walk_mode _ then _ else _) as [[walk_time board_stop] new_idx].
  destruct (negb (_ <=? _)%Z); simpl.
  { etrans; [|exact Hsub]. by apply submseteq_cons. }
  destruct (list_remove_first_rest _ _ _ Hsub) as (l' & Hl' & Hrest).
  destruct (bool_decide (STATE_DEPARRMODE pstate = EGRESS)); simpl; rewrite Hl'; done.
Qed.

Lemma board_one_remove e pid rest s n :
  pid :: rest ⊆+ getlist (stop_pax s) (stop_id e) ->
  match board_one e pid (s, n) with
  | Ok a => rest ⊆+ getlist (stop_pax a.1) (stop_id e)
  | Raise err => err <> ValueError
  end.
Proof.
  intros Hsub. unfold board_one.
  destruct (current_item pid s) as [[[[idx path] sstop] pstate]|err] eqn:E; simpl;
    [|by eapply current_item_raise].
  destruct (negb _); simpl.
  { etrans; [|exact Hsub]. by apply submseteq_cons. }
  destruct (getitem trips (trip_id e)) as [trip|err] eqn:Et; simpl;
    [|by apply getitem_raise in Et as [-> _]].
  destruct (list_remove_first_rest _ _ _ Hsub) as (l' & Hl' & Hrest).
  destruct (CAPACITY_CONSTRAINT && _); simpl.
  - destruct (py_last _) as [arrival|err] eqn:Ea; simpl;
      [|by apply py_last_raise in Ea as [-> _]].
    rewrite Hl'. simpl. by rewrite getlist_insert, decide_True.
  - rewrite Hl'. simpl. by rewrite getlist_insert, decide_True.
Qed.

Lemma process_event_remove e s : process_event e s <> Raise ValueError.
Proof.
  unfold process_event. intros H.
  apply bind_Raise in H as [H|(s1 & _ & H)]; [|done].
  destruct (event_kind e).
  - pose proof (for_each_rest
      (fun rest a => rest ⊆+ getlist (trip_pax a.1) (trip_id e))
      (fun err => err <> ValueError) (alight_one e)
      (getlist (trip_pax s) (trip_id e)) (s, 0%Z)) as Hloop.
    destruct (for_each (alight_one e) _ _) as [[s1 na]|err]; simpl in H; [done|].
    injection H as ->. apply Hloop; [|done|done].
    intros x rest [a n] Ha. by apply alight_one_remove.
  - pose proof (for_each_rest (fun rest a => rest ⊆+ transfer_passengers a)
      (fun err => err <> ValueError) (walk_one e) (transfer_passengers s) s) as Hw.
    destruct (for_each (walk_one e) _ _) as [s1|err]; simpl in H.
    2:{ injection H as ->. apply Hw; [|done|done].
        intros x rest a Ha. by apply walk_one_remove. }
    pose proof (for_each_rest
      (fun rest a => rest ⊆+ getlist (stop_pax a.1) (stop_id e))
      (fun err => err <> ValueError) (board_one e)
      (getlist (stop_pax s1) (stop_id e)) (s1, 0%Z)) as Hb.
    destruct (for_each (board_one e) _ _) as [[s2 nb]|err]; simpl in H.
    2:{ injection H as ->. apply Hb; [|done|done].
        intros x rest [a n] Ha. by apply board_one_remove. }
    apply bind_Raise in H as [H|(trip & _ & H)];
      [by apply getitem_raise in H as [? _]|].
    apply bind_Raise in H as [H|(b & _ & H)];
      [by apply py_last_raise in H as [? _]|].
    apply bind_Raise in H as [H|(a & _ & H)];
      [by apply py_last_raise in H as [? _]|done].
Qed.

(** X1. No [list.remove] of the simulator fails: a passenger taken from the
    copy of a list is still in the list when the body of the loop removes it,
    so neither an event nor the whole call raises [ValueError]. *)
Theorem remove_never_fails events bw :
  (forall e s, process_event e s <> Raise ValueError)
  /\ (forall s, run_events events s <> Raise ValueError)
  /\ simulate events bw <> Raise ValueError.
Proof.
  assert (forall s, run_events events s <> Raise ValueError) as Hrun.
  { intros s H. apply for_each_raise in H as (e & s1 & _ & H).
    by apply process_event_remove in H. }
  split; [apply process_event_remove|]. split; [done|].
  unfold simulate. intros H.
  apply bind_Raise in H as [H|(s0 & _ & H)].
  - apply for_each_raise in H as (pid & s1 & _ & H). unfold reset_passenger in H.
    apply bind_Raise in H as [H|(p & _ & H)];
      [by apply getassoc_raise in H as [? _]|].
    destruct (negb _); [done|]. by destruct (negb _).
  - apply bind_Raise in H as [H|(s & _ & H)]; [by apply Hrun in H|done].
Qed.

(** *** What one loop body and one event do *)

Lemma alight_one_Ok e pid s n s' n' :
  alight_one e pid (s, n) = Ok (s', n') ->
  (s' = s /\ n' = n)
  \/ exists new_idx left_on,
       list_remove_first pid (getlist (trip_pax s) (trip_id e)) = Ok left_on
       /\ n' = (n + 1)%Z
       /\ s' = set_trip_pax (<[trip_id e := left_on]> (trip_pax s))
                 (set_transfer_passengers (transfer_passengers s ++ [pid])
                 (set_passenger_alights
                    (append_at (passenger_alights s) pid (event_time e))
                 (set_passenger_id_to_state
                    (<[pid := (STATUS_WALKING, new_idx)]>
                       (passenger_id_to_state s)) s))).
Proof.
  unfold alight_one. intros H.
  apply bind_Ok in H as ([[[idx path] sstop] pstate] & _ & H).
  destruct (negb _); [left; by injection H as <- <-|].
  apply bind_Ok in H as (l' & Hl & H). injection H as <- <-.
  right. eexists _, l'. done.
Qed.

Lemma walk_one_Ok e pid s s' :
  walk_one e pid s = Ok s' ->
  s' = s
  \/ exists new_idx arrive_time board_stop walking,
       list_remove_first pid (transfer_passengers s) = Ok walking
       /\ (s' = set_transfer_passengers walking
                  (set_passengers_arrived (passengers_arrived s + 1)%Z
                  (set_passenger_dest_arrivals
                     (<[pid := arrive_time]> (passenger_dest_arrivals s))
                  (set_passenger_id_to_state
                     (<[pid := (STATUS_ARRIVED, new_idx)]>
                        (passenger_id_to_state s)) s)))
           \/ s' = set_transfer_passengers walking
                     (set_passenger_arrivals
                        (append_at (passenger_arrivals s) pid arrive_time)
                     (set_stop_pax (append_at (stop_pax s) board_stop pid)
                     (set_passenger_id_to_state
                        (<[pid := (STATUS_WAITING, new_idx)]>
                           (passenger_id_to_state s)) s)))).
Proof.
  unfold walk_one. intros H.
  apply bind_Ok in H as ([[[idx path] sstop] pstate] & _ & H).
  apply bind_Ok in H as (alight_time & _ & H).
  destruct (if is_walk_mode _ then _ else _) as [[walk_time board_stop] new_idx].
  destruct (negb (_ <=? _)%Z); [left; by injection H as <-|].
  right. exists new_idx, (alight_time + walk_time)%Z, board_stop.
  destruct (bool_decide (STATE_DEPARRMODE pstate = EGRESS));
    apply bind_Ok in H as (walking & Hw & H); injection H as <-;
    exists walking; (split; [exact Hw|]); [by left|by right].
Qed.

Lemma board_one_Ok e pid s n s' n' :
  board_one e pid (s, n) = Ok (s', n') ->
  (s' = s /\ n' = n)
  \/ exists path_idx trip waiting,
       trips !! trip_id e = Some trip
       /\ list_remove_first pid (getlist (stop_pax s) (stop_id e)) = Ok waiting
       /\ ((exists arrival,
              py_last (getlist (passenger_arrivals s) pid) = Ok arrival
              /\ n' = n
              /\ s' = set_stop_pax (<[stop_id e := waiting]> (stop_pax s))
                        (set_bump_log
                           (bump_log s ++ [(trip_id e, stop_id e, arrival)])
                        (set_passengers_bumped (passengers_bumped s + 1)%Z
                        (set_bump_wait
                           (update_bump_wait (bump_wait s)
                              (TRIP (trip_id e), stop_id e) arrival)
                        (set_passenger_id_to_state
                           (<[pid := (STATUS_BUMPED, -1)%Z]>
                              (passenger_id_to_state s)) s)))))
           \/ (n' = (n + 1)%Z
               /\ s' = set_stop_pax (<[stop_id e := waiting]> (stop_pax s))
                         (set_passenger_boards
                            (append_at (passenger_boards s) pid (event_time e))
                         (set_passenger_id_to_state
                            (<[pid := (STATUS_ON_BOARD, path_idx)]>
                               (passenger_id_to_state s))
                         (set_trip_pax
                            (append_at (trip_pax s) (trip_id e) pid) s))))).
Proof.
  unfold board_one. intros H.
  apply bind_Ok in H as ([[[idx path] sstop] pstate] & _ & H).
  destruct (negb _); [left; by injection H as <- <-|].
  apply bind_Ok in H as (trip & Ht & H).
  unfold getitem in Ht. destruct (trips !! trip_id e) as [trip'|] eqn:Etrip; [|done].
  injection Ht as ->. right. exists idx, trip.
  destruct (CAPACITY_CONSTRAINT && _).
  - apply bind_Ok in H as ([s1 n1] & H1 & H).
    apply bind_Ok in H1 as (arrival & Ha & H1). injection H1 as <- <-.
    apply bind_Ok in H as (waiting & Hw & H). injection H as <- <-.
    exists waiting. split; [done|]. split; [exact Hw|]. left. eauto.
  - apply bind_Ok in H as ([s1 n1] & H1 & H). injection H1 as <- <-.
    apply bind_Ok in H as (waiting & Hw & H). injection H as <- <-.
    exists waiting. split; [done|]. split; [exact Hw|]. by right.
Qed.

Lemma process_event_Ok e s s' :
  process_event e s = Ok s' ->
  (event_kind e = EVENT_TYPE_ARRIVAL
   /\ exists s1 num_alights,
        for_each (alight_one e) (getlist (trip_pax s) (trip_id e)) (s, 0%Z)
          = Ok (s1, num_alights)
        /\ s' = set_events_simulated (events_simulated s1 + 1)%Z
                  (set_trip_alights
                     (append_at (trip_alights s1) (trip_id e) num_alights) s1))
  \/ (event_kind e = EVENT_TYPE_DEPARTURE
      /\ exists s1 s2 num_boards trip alights,
           for_each (walk_one e) (transfer_passengers s) s = Ok s1
           /\ for_each (board_one e) (getlist (stop_pax s1) (stop_id e)) (s1, 0%Z)
              = Ok (s2, num_boards)
           /\ trips !! trip_id e = Some trip
           /\ last (getlist (trip_alights s2) (trip_id e)) = Some alights
           /\ s' = set_events_simulated (events_simulated s2 + 1)%Z
                     (set_trip_dwells
                        (append_at (trip_dwells s2) (trip_id e)
                           (calculate_dwell_time trip num_boards alights))
                     (set_trip_boards
                        (append_at (trip_boards s2) (trip_id e) num_boards) s2))).
Proof.
  unfold process_event. intros H.
  apply bind_Ok in H as (s1' & H & Hs'). injection Hs' as <-.
  destruct (event_kind e).
  - left. split; [done|].
    apply bind_Ok in H as ([s1 na] & Hl & H). injection H as <-. eauto.
  - right. split; [done|].
    apply bind_Ok in H as (s1 & Hw & H).
    apply bind_Ok in H as ([s2 nb] & Hb & H).
    apply bind_Ok in H as (trip & Ht & H).
    apply bind_Ok in H as (b & Hbo & H).
    apply bind_Ok in H as (a & Hal & H). injection H as <-.
    unfold getitem in Ht. destruct (trips !! trip_id e) as [trip'|] eqn:Etrip; [|done].
    injection Ht as ->.
    simpl in Hbo. rewrite getlist_append_at, decide_True in Hbo by done.
    unfold py_last in Hbo. rewrite last_snoc in Hbo. injection Hbo as <-.
    simpl in Hal. unfold py_last in Hal.
    destruct (last _) as [a'|] eqn:Ela; [|done]. injection Hal as ->.
    exists s1, s2, nb, trip, a. done.
Qed.

(** *** Waiting passengers have an arrival on record *)

Definition waiting_recorded (s : sim) : Prop :=
  forall stop pid, pid ∈ getlist (stop_pax s) stop ->
    getlist (passenger_arrivals s) pid <> [].

Lemma alight_one_waiting e pid s n s' n' :
  alight_one e pid (s, n) = Ok (s', n') -> waiting_recorded s -> waiting_recorded s'.
Proof.
  intros H Hw. apply alight_one_Ok in H as [[-> _]|(idx & l & _ & _ & ->)];
    [done|]. exact Hw.
Qed.

Lemma walk_one_waiting e pid s s' :
  walk_one e pid s = Ok s' -> waiting_recorded s -> waiting_recorded s'.
Proof.
  intros H Hw.
  apply walk_one_Ok in H as [->|(idx & t & bs & w & _ & [->| ->])]; [done|exact Hw|].
  intros stop p. simpl. rewrite !getlist_append_at.
  destruct (decide (pid = p)) as [<-|Hne].
  - intros _. by destruct (getlist (passenger_arrivals s) pid).
  - destruct (decide (bs = stop)) as [<-|]; [|apply Hw].
    intros [Hin|Hin]%elem_of_app; [by eapply Hw|].
    by apply list_elem_of_singleton in Hin.
Qed.

Lemma board_one_waiting e pid s n s' n' :
  board_one e pid (s, n) = Ok (s', n') -> waiting_recorded s -> waiting_recorded s'.
Proof.
  intros H Hw.
  apply board_one_Ok in H
    as [[-> _]|(idx & trip & w & _ & Hrm & [(arr & _ & _ & ->)|[_ ->]])];
    [done| |]; intros stop p; simpl; rewrite getlist_insert;
    (destruct (decide (stop_id e = stop)) as [<-|]; [|apply Hw]);
    intros Hin; apply (Hw (stop_id e));
    apply list_remove_first_perm in Hrm; rewrite Hrm; by apply elem_of_cons; right.
Qed.

Lemma process_event_waiting e s s' :
  process_event e s = Ok s' -> waiting_recorded s -> waiting_recorded s'.
Proof.
  intros H Hw.
  apply process_event_Ok in H
    as [(_ & s1 & na & Hl & ->)|(_ & s1 & s2 & nb & trip & al & Hwk & Hb & _ & _ & ->)].
  - assert (waiting_recorded s1) as H1; [|exact H1].
    eapply (for_each_inv_acc waiting_recorded); [|exact Hw|exact Hl].
    intros x u nu v nv Hu Hv. by eapply alight_one_waiting.
  - assert (waiting_recorded s1) as H1.
    { eapply (for_each_inv waiting_recorded); [|exact Hw|exact Hwk].
      intros x u v Hu Hv. by eapply walk_one_waiting. }
    assert (waiting_recorded s2) as H2; [|exact H2].
    eapply (for_each_inv_acc waiting_recorded); [|exact H1|exact Hb].
    intros x u nu v nv Hu Hv. by eapply board_one_waiting.
Qed.

Lemma reset_passenger_stop_pax pid s s' :
  reset_passenger pid s = Ok s' -> stop_pax s' = stop_pax s.
Proof.
  unfold reset_passenger. intros H.
  apply bind_Ok in H as (p & _ & H).
  destruct (negb _); [by injection H as <-|].
  destruct (negb _); [by injection H as <-|].
  by injection H as <-.
Qed.

Lemma started_waiting bw s0 : started bw s0 -> waiting_recorded s0.
Proof.
  intros H.
  assert (stop_pax s0 = ∅) as Hs.
  { eapply (for_each_inv (fun s => stop_pax s = ∅)); [| |exact H]; [|done].
    intros x s s' Hs Hr. by rewrite (reset_passenger_stop_pax _ _ _ Hr). }
  intros stop pid. unfold getlist at 1. rewrite Hs, lookup_empty. simpl.
  intros Hin. by apply elem_of_nil in Hin.
Qed.

(** X2. At every point of the event pass a passenger waiting at a stop has an
    arrival time on record, so the time the bump reads,
    [passenger_arrivals[passenger_id][-1]], is there: a full trip bumps the
    waiting passenger and raises no [IndexError]. *)
Theorem waiting_passenger_has_arrival bw s0 s stop pid :
  started bw s0 -> point s0 s ->
  pid ∈ getlist (stop_pax s) stop ->
  exists arrival, py_last (getlist (passenger_arrivals s) pid) = Ok arrival.
Proof.
  intros Hs Hp Hin.
  assert (waiting_recorded s) as Hw.
  { clear Hin. induction Hp as [|e p s n s' n' _ IH H|e p s s' _ IH H
                                |e p s n s' n' _ IH H|e s s' _ IH H].
    - by eapply started_waiting.
    - by eapply alight_one_waiting.
    - by eapply walk_one_waiting.
    - by eapply board_one_waiting.
    - by eapply process_event_waiting. }
  specialize (Hw _ _ Hin). unfold py_last.
  destruct (last _) as [a|] eqn:E; [eauto|]. by apply last_None in E.
Qed.

(** *** The state in which the event pass starts *)

Lemma reset_passenger_Ok pid s s' :
  reset_passenger pid s = Ok s' ->
  s' = s
  \/ exists idx,
       s' = set_transfer_passengers (transfer_passengers s ++ [pid])
              (set_passenger_id_to_state
                 (<[pid := (STATUS_WALKING, idx)]> (passenger_id_to_state s)) s).
Proof.
  unfold reset_passenger. intros H.
  apply bind_Ok in H as (p & _ & H).
  destruct (negb _); [left; by injection H as <-|].
  destruct (negb _); [left; by injection H as <-|].
  right. injection H as <-. eauto.
Qed.

(** The tables are empty and the counters zero when the event pass starts,
    and no more passengers walk than there are passengers. *)
Definition fresh (s : sim) : Prop :=
  trip_pax s = ∅ /\ stop_pax s = ∅ /\ trip_boards s = ∅ /\ trip_alights s = ∅
  /\ passengers_arrived s = 0%Z /\ passengers_bumped s = 0%Z.

Lemma started_fresh bw s0 :
  started bw s0 ->
  fresh s0 /\ (length (transfer_passengers s0) <= length passengers)%nat.
Proof.
  intros H. unfold started in H.
  pose proof (for_each_rest
    (fun rest s => fresh s
       /\ (length (transfer_passengers s) + length rest <= length passengers)%nat)
    (fun _ => True) reset_passenger passengers.*1 (initial bw)) as Hloop.
  rewrite H in Hloop. simpl in Hloop.
  destruct Hloop as [Hf Hlen].
  - intros pid rest s [Hf Hlen].
    destruct (reset_passenger pid s) as [s'|] eqn:E; [|done].
    apply reset_passenger_Ok in E as [->|[idx ->]].
    + split; [done|]. simpl in Hlen. lia.
    + split; [exact Hf|]. simpl. rewrite length_app. simpl in *. lia.
  - split; [done|]. simpl. by rewrite length_fmap.
  - split; [done|]. lia.
Qed.

(** *** A DEPARTURE of a trip without an ARRIVAL before it *)

Lemma walk_one_counts e pid s s' :
  walk_one e pid s = Ok s' ->
  trip_pax s' = trip_pax s /\ trip_boards s' = trip_boards s
  /\ trip_alights s' = trip_alights s.
Proof.
  intros H.
  by apply walk_one_Ok in H as [->|(idx & t & bs & w & _ & [->| ->])].
Qed.

Lemma board_one_counts e pid s n s' n' :
  board_one e pid (s, n) = Ok (s', n') ->
  trip_boards s' = trip_boards s /\ trip_alights s' = trip_alights s.
Proof.
  intros H.
  by apply board_one_Ok in H
    as [[-> _]|(idx & trip & w & _ & _ & [(arr & _ & _ & ->)|[_ ->]])].
Qed.

Lemma alight_one_counts e pid s n s' n' :
  alight_one e pid (s, n) = Ok (s', n') ->
  trip_boards s' = trip_boards s /\ trip_alights s' = trip_alights s.
Proof.
  intros H. by apply alight_one_Ok in H as [[-> _]|(idx & l & _ & _ & ->)].
Qed.

Lemma departure_loops_alights e s s1 s2 n :
  for_each (walk_one e) (transfer_passengers s) s = Ok s1 ->
  for_each (board_one e) (getlist (stop_pax s1) (stop_id e)) (s1, 0%Z) = Ok (s2, n) ->
  trip_alights s2 = trip_alights s.
Proof.
  intros Hw Hb.
  assert (trip_alights s1 = trip_alights s) as H1.
  { eapply (for_each_inv (fun a => trip_alights a = trip_alights s));
      [|done|exact Hw].
    intros x u v Hu Hv. apply walk_one_counts in Hv as (_ & _ & ->). done. }
  rewrite <- H1.
  apply (for_each_inv_acc (fun a => trip_alights a = trip_alights s1)
           (board_one e) (getlist (stop_pax s1) (stop_id e)))
    with (s := s1) (n := 0%Z) (n' := n); [|done|exact Hb].
  intros x u nu v nv Hu Hv. apply board_one_counts in Hv as (_ & ->). done.
Qed.

(** X3. The DEPARTURE of a trip for which no ARRIVAL has been processed reads
    the last element of an empty [trip_alights[trip_id]]: the event never
    completes, it raises [IndexError] once the walking and boarding loops are
    through; so a call whose first event is a DEPARTURE never returns. *)
Theorem departure_before_arrival e :
  event_kind e = EVENT_TYPE_DEPARTURE ->
  (forall s, getlist (trip_alights s) (trip_id e) = [] ->
     (forall s', process_event e s <> Ok s')
     /\ (forall s1 s2 n trip,
           for_each (walk_one e) (transfer_passengers s) s = Ok s1 ->
           for_each (board_one e) (getlist (stop_pax s1) (stop_id e)) (s1, 0%Z)
             = Ok (s2, n) ->
           trips !! trip_id e = Some trip ->
           process_event e s = Raise IndexError))
  /\ (forall events bw r, simulate (e :: events) bw <> Ok r).
Proof.
  intros Hkind.
  assert (forall s, getlist (trip_alights s) (trip_id e) = [] ->
            forall s', process_event e s <> Ok s') as Hnever.
  { intros s Hnone s' H.
    apply process_event_Ok in H
      as [(Hk & _)|(_ & s1 & s2 & nb & trip & al & Hw & Hb & _ & Hal & _)];
      [congruence|].
    rewrite (departure_loops_alights _ _ _ _ _ Hw Hb), Hnone in Hal. done. }
  split.
  - intros s Hnone. split; [by apply Hnever|].
    intros s1 s2 n trip Hw Hb Htrip. unfold process_event.
    rewrite Hkind, Hw. simpl. rewrite Hb. simpl.
    unfold getitem. rewrite Htrip. simpl.
    rewrite getlist_append_at, decide_True by done.
    replace (py_last (getlist (trip_boards s2) (trip_id e) ++ [n])) with (Ok n)
      by (unfold py_last; by rewrite last_snoc).
    simpl.
    rewrite (departure_loops_alights _ _ _ _ _ Hw Hb), Hnone. done.
  - intros events bw [n s] H. unfold simulate in H.
    apply bind_Ok in H as (s0 & Hs0 & H).
    apply bind_Ok in H as (s1 & Hrun & _). simpl in Hrun.
    apply bind_Ok in Hrun as (s2 & He & _).
    apply (Hnever s0) in He; [done|].
    destruct (started_fresh bw s0 Hs0) as [(_ & _ & _ & -> & _) _].
    unfold getlist. by rewrite lookup_empty.
Qed.

(** *** The load of a trip *)

(** The passengers on board are the boards less the alights on record. *)
Definition load_ok (s : sim) : Prop :=
  forall t, Z.of_nat (length (on_board s t))
            = (total (getlist (trip_boards s) t)
               - total (getlist (trip_alights s) t))%Z.

Lemma alight_loop_load e s l s1 n :
  for_each (alight_one e) l (s, 0%Z) = Ok (s1, n) ->
  trip_boards s1 = trip_boards s /\ trip_alights s1 = trip_alights s
  /\ (forall t, t <> trip_id e -> on_board s1 t = on_board s t)
  /\ (Z.of_nat (length (on_board s1 (trip_id e))) + n
      = Z.of_nat (length (on_board s (trip_id e))))%Z.
Proof.
  intros H.
  apply (for_each_inv
    (fun a : sim * Z =>
       trip_boards a.1 = trip_boards s /\ trip_alights a.1 = trip_alights s
       /\ (forall t, t <> trip_id e -> on_board a.1 t = on_board s t)
       /\ (Z.of_nat (length (on_board a.1 (trip_id e))) + a.2
           = Z.of_nat (length (on_board s (trip_id e))))%Z)) in H;
    [exact H| |simpl; split_and!; [done|done|done|lia]].
  intros x [u nu] [v nv] (Hb & Ha & Ho & Hn) Hv. simpl in *.
  apply alight_one_Ok in Hv as [[-> ->]|(idx & l' & Hrm & -> & ->)]; [done|].
  simpl. split; [done|]. split; [done|]. split.
  - intros t Ht. unfold on_board. simpl. rewrite getlist_insert.
    rewrite decide_False by done. by apply Ho.
  - unfold on_board in *. simpl. rewrite getlist_insert, decide_True by done.
    apply list_remove_first_length in Hrm. lia.
Qed.

Lemma walk_loop_load e s l s1 :
  for_each (walk_one e) l s = Ok s1 ->
  trip_pax s1 = trip_pax s /\ trip_boards s1 = trip_boards s
  /\ trip_alights s1 = trip_alights s.
Proof.
  intros H.
  apply (for_each_inv
    (fun a => trip_pax a = trip_pax s /\ trip_boards a = trip_boards s
              /\ trip_alights a = trip_alights s)) in H; [exact H| |done].
  intros x u v (Hp & Hb & Ha) Hv.
  apply walk_one_counts in Hv as (-> & -> & ->). done.
Qed.

Lemma board_loop_load e s l s1 n :
  for_each (board_one e) l (s, 0%Z) = Ok (s1, n) ->
  trip_boards s1 = trip_boards s /\ trip_alights s1 = trip_alights s
  /\ (forall t, t <> trip_id e -> on_board s1 t = on_board s t)
  /\ (Z.of_nat (length (on_board s1 (trip_id e)))
      = Z.of_nat (length (on_board s (trip_id e))) + n)%Z.
Proof.
  intros H.
  apply (for_each_inv
    (fun a : sim * Z =>
       trip_boards a.1 = trip_boards s /\ trip_alights a.1 = trip_alights s
       /\ (forall t, t <> trip_id e -> on_board a.1 t = on_board s t)
       /\ (Z.of_nat (length (on_board a.1 (trip_id e)))
           = Z.of_nat (length (on_board s (trip_id e))) + a.2)%Z)) in H;
    [exact H| |simpl; split_and!; [done|done|done|lia]].
  intros x [u nu] [v nv] (Hb & Ha & Ho & Hn) Hv. simpl in *.
  apply board_one_Ok in Hv
    as [[-> ->]|(idx & trip & w & _ & _ & [(arr & _ & -> & ->)|[-> ->]])];
    [done|done|].
  simpl. split; [done|]. split; [done|]. split.
  - intros t Ht. unfold on_board. simpl. rewrite getlist_append_at.
    rewrite decide_False by done. by apply Ho.
  - unfold on_board in *. simpl. rewrite getlist_append_at, decide_True by done.
    rewrite length_app. simpl. lia.
Qed.

Lemma process_event_load e s s' :
  process_event e s = Ok s' -> load_ok s -> load_ok s'.
Proof.
  intros H Hl.
  apply process_event_Ok in H
    as [(_ & s1 & na & Hloop & ->)
       |(_ & s1 & s2 & nb & trip & al & Hw & Hb & _ & _ & ->)].
  - apply alight_loop_load in Hloop as (Hbo & Hal & Hother & Hn).
    intros t. specialize (Hl t). unfold on_board in *. simpl.
    rewrite Hbo, Hal, getlist_append_at.
    destruct (decide (trip_id e = t)) as [<-|Hne].
    + rewrite total_snoc. lia.
    + rewrite Hother by done. exact Hl.
  - apply walk_loop_load in Hw as (Hp1 & Hb1 & Ha1).
    apply board_loop_load in Hb as (Hbo & Hal & Hother & Hn).
    intros t. specialize (Hl t). unfold on_board in *. simpl.
    rewrite Hbo, Hal, Hb1, Ha1, getlist_append_at. rewrite Hp1 in *.
    destruct (decide (trip_id e = t)) as [<-|Hne].
    + rewrite total_snoc. lia.
    + rewrite Hother by done. exact Hl.
Qed.

(** X4. After any number of whole events, every trip carries as many
    passengers as the boards recorded for it less the alights recorded for it:
    the counts the simulator hands to the trips add up to the vehicle load. *)
Theorem load_is_boards_less_alights bw s0 events s :
  started bw s0 ->
  run_events events s0 = Ok s ->
  forall t, Z.of_nat (length (on_board s t))
            = (total (getlist (trip_boards s) t)
               - total (getlist (trip_alights s) t))%Z.
Proof.
  intros Hs Hrun.
  assert (load_ok s0) as H0.
  { destruct (started_fresh bw s0 Hs) as [(Hp & _ & Hb & Ha & _) _].
    intros t. unfold on_board, getlist. by rewrite Hp, Hb, Ha, !lookup_empty. }
  eapply (for_each_inv load_ok); [|exact H0|exact Hrun].
  intros e u v Hu Hv. by eapply process_event_load.
Qed.

(** *** Every passenger is in one place *)

(** The passengers walking, on board, waiting, arrived and bumped. *)
Definition accounted (s : sim) : Z :=
  (Z.of_nat (length (transfer_passengers s)) + Z.of_nat (headcount (trip_pax s))
   + Z.of_nat (headcount (stop_pax s)) + passengers_arrived s
   + passengers_bumped s)%Z.

Definition conserved (total_passengers : Z) (s : sim) : Prop :=
  accounted s = total_passengers
  /\ (0 <= passengers_arrived s)%Z /\ (0 <= passengers_bumped s)%Z.

Lemma alight_one_conserved e pid s n s' n' N :
  alight_one e pid (s, n) = Ok (s', n') -> conserved N s -> conserved N s'.
Proof.
  intros H (Hacc & Ha & Hb).
  apply alight_one_Ok in H as [[-> _]|(idx & l' & Hrm & _ & ->)]; [done|].
  split; [|done]. unfold accounted in *. simpl.
  pose proof (headcount_insert (trip_pax s) (trip_id e) l') as Hh.
  apply list_remove_first_length in Hrm. rewrite length_app. simpl. lia.
Qed.

Lemma walk_one_conserved e pid s s' N :
  walk_one e pid s = Ok s' -> conserved N s -> conserved N s'.
Proof.
  intros H (Hacc & Ha & Hb).
  apply walk_one_Ok in H as [->|(idx & t & bs & w & Hrm & [->| ->])]; [done| |];
    apply list_remove_first_length in Hrm; unfold conserved, accounted in *; simpl.
  - lia.
  - rewrite headcount_append_at. lia.
Qed.

Lemma board_one_conserved e pid s n s' n' N :
  board_one e pid (s, n) = Ok (s', n') -> conserved N s -> conserved N s'.
Proof.
  intros H (Hacc & Ha & Hb).
  apply board_one_Ok in H
    as [[-> _]|(idx & trip & w & _ & Hrm & [(arr & _ & _ & ->)|[_ ->]])]; [done| |];
    pose proof (headcount_insert (stop_pax s) (stop_id e) w) as Hh;
    apply list_remove_first_length in Hrm; unfold conserved, accounted in *; simpl.
  - lia.
  - rewrite headcount_append_at. lia.
Qed.

Lemma process_event_conserved e s s' N :
  process_event e s = Ok s' -> conserved N s -> conserved N s'.
Proof.
  intros H Hc.
  apply process_event_Ok in H
    as [(_ & s1 & na & Hl & ->)|(_ & s1 & s2 & nb & trip & al & Hw & Hb & _ & _ & ->)].
  - assert (conserved N s1) as H1; [|exact H1].
    eapply (for_each_inv_acc (conserved N)); [|exact Hc|exact Hl].
    intros x u nu v nv Hu Hv. by eapply alight_one_conserved.
  - assert (conserved N s1) as H1.
    { eapply (for_each_inv (conserved N)); [|exact Hc|exact Hw].
      intros x u v Hu Hv. by eapply walk_one_conserved. }
    assert (conserved N s2) as H2; [|exact H2].
    eapply (for_each_inv_acc (conserved N)); [|exact H1|exact Hb].
    intros x u nu v nv Hu Hv. by eapply board_one_conserved.
Qed.

(** X5. At every point of the event pass the passengers walking, on board,
    waiting, arrived and bumped add up to the passengers the pass started
    with; so the number of arrived passengers that [simulate] returns, and the
    arrived and the bumped together, never exceed the number of passengers. *)
Theorem passengers_are_conserved bw s0 :
  started bw s0 ->
  (forall s, point s0 s ->
     accounted s = Z.of_nat (length (transfer_passengers s0))
     /\ (0 <= passengers_arrived s)%Z /\ (0 <= passengers_bumped s)%Z
     /\ (passengers_arrived s + passengers_bumped s
         <= Z.of_nat (length passengers))%Z)
  /\ (forall events n s,
        simulate events bw = Ok (n, s) ->
        (0 <= n <= Z.of_nat (length passengers))%Z).
Proof.
  intros Hs.
  assert (forall s1, started bw s1 -> forall s, point s1 s ->
            conserved (Z.of_nat (length (transfer_passengers s1))) s
            /\ (passengers_arrived s + passengers_bumped s
                <= Z.of_nat (length passengers))%Z) as Hall.
  { intros s1 Hs1 s Hp.
    destruct (started_fresh bw s1 Hs1) as [(Htp & Hsp & _ & _ & Ha0 & Hb0) Hlen].
    assert (conserved (Z.of_nat (length (transfer_passengers s1))) s) as Hc.
    { induction Hp as [|e p s n s' n' _ IH H|e p s s' _ IH H
                      |e p s n s' n' _ IH H|e s s' _ IH H].
      - unfold conserved, accounted.
        rewrite Htp, Hsp, Ha0, Hb0, headcount_empty. lia.
      - by eapply alight_one_conserved.
      - by eapply walk_one_conserved.
      - by eapply board_one_conserved.
      - by eapply process_event_conserved. }
    split; [exact Hc|]. destruct Hc as (Hacc & Ha & Hb).
    unfold accounted in Hacc. lia. }
  split.
  - intros s Hp. destruct (Hall s0 Hs s Hp) as [(? & ? & ?) ?]. done.
  - intros events n s H. unfold simulate in H.
    apply bind_Ok in H as (s1 & Hs1 & H).
    apply bind_Ok in H as (s2 & Hrun & H). injection H as <- <-.
    destruct (Hall s1 Hs1 s2) as [(_ & Ha & Hb) Hle]; [|lia].
    eapply run_events_point; [apply point_start|exact Hrun].
Qed.

End simulate.

End Simulator.

(** ** Path assignment: [Assignment.assign_passengers] *)

Module Assigner.

Import Controller.

Section assign_passengers.
(** [passenger.path], with its [goes_somewhere()] and [path_found()]. *)
Context {Path : Type}.
Variable goes_somewhere : Path -> bool.
Variable path_found : Path -> bool.
Variable ASSIGNMENT_TYPE : assignment_type.
(** The two searches.  Each one reads the network and
    [Assignment.bump_wait], fills in the path it is given and returns the
    number of label iterations. *)
Variable find_trip_based_shortest_path : Path -> result (Z * Path).
Variable find_trip_based_hyperpath : Path -> result (Z * Path).

(** Modelled from the spec: of the [Passenger] class the loop uses the
    path and the simulation status. *)
Record Passenger : Type := mkPassenger {
  path : Path;
  simulation_status : Simulator.status
}.

(** The two [continue]s at the head of the body of the loop. *)
Definition goes_nowhere (passenger : Passenger) : bool :=
  negb (goes_somewhere (path passenger)).

Definition already_arrived (iteration : Z) (passenger : Passenger) : bool :=
  (1 <? iteration)%Z
  && match simulation_status passenger with
     | Simulator.STATUS_ARRIVED => true
     | _ => false
     end.

Definition find_path (p : Path) : result (Z * Path) :=
  if decide (ASSIGNMENT_TYPE = ASSIGNMENT_TYPE_DET_ASGN)
  then find_trip_based_shortest_path p
  else find_trip_based_hyperpath p.

(** The body of [for passenger_id, passenger in FT.passengers.iteritems()]:
    the new count and the passenger with the path as the search left it. *)
Definition assign_passenger (iteration : Z) (num_paths_assigned : Z)
    (passenger : Passenger) : result (Z * Passenger) :=
  if goes_nowhere passenger then Ok (num_paths_assigned, passenger)
  else if already_arrived iteration passenger
  then Ok ((num_paths_assigned + 1)%Z, passenger)
  else
    '(asgn_iters, found) ← find_path (path passenger);
    Ok (if path_found found then (num_paths_assigned + 1)%Z else num_paths_assigned,
        mkPassenger found (simulation_status passenger)).

Fixpoint assign_loop (iteration : Z) (num_paths_assigned : Z)
    (passengers : list (Z * Passenger)) : result (Z * list (Z * Passenger)) :=
  match passengers with
  | [] => Ok (num_paths_assigned, [])
  | (passenger_id, passenger) :: rest =>
      '(num_paths_assigned, passenger) ←
         assign_passenger iteration num_paths_assigned passenger;
      '(num_paths_assigned, rest) ← assign_loop iteration num_paths_assigned rest;
      Ok (num_paths_assigned, (passenger_id, passenger) :: rest)
  end.

(** [Assignment.assign_passengers(FT, iteration)]: the number of paths
    assigned and the passengers of [FT], in the order of the iteration. *)
Definition assign_passengers (passengers : list (Z * Passenger)) (iteration : Z)
  : result (Z * list (Z * Passenger)) :=
  assign_loop iteration 0 passengers.

(** *** Properties *)

(** The passenger is counted as assigned. *)
Definition counted (iteration : Z) (passenger : Passenger) : bool :=
  negb (goes_nowhere passenger)
  && (already_arrived iteration passenger
      || match find_path (path passenger) with
         | Ok (_, found) => path_found found
         | Raise _ => false
         end).

(** What the loop does to one passenger. *)
Definition assigned (iteration : Z) (before after : Z * Passenger) : Prop :=
  before.1 = after.1
  /\ simulation_status before.2 = simulation_status after.2
  /\ if goes_nowhere before.2 || already_arrived iteration before.2
     then after = before
     else exists asgn_iters,
       find_path (path before.2) = Ok (asgn_iters, path after.2).

Lemma assign_passenger_Ok iteration num passenger num' passenger' passenger_id :
  assign_passenger iteration num passenger = Ok (num', passenger') ->
  assigned iteration (passenger_id, passenger) (passenger_id, passenger')
  /\ num' = (num + if counted iteration passenger then 1 else 0)%Z.
Proof.
  unfold assign_passenger, assigned, counted. simpl.
  destruct (goes_nowhere passenger); simpl.
  { intros [= <- <-]. split; [done|lia]. }
  destruct (already_arrived iteration passenger); simpl.
  { intros [= <- <-]. split; [done|lia]. }
  destruct (find_path (path passenger)) as [[asgn_iters found]|e]; [|done].
  simpl. intros [= <- <-]. simpl. split; [eauto|].
  destruct (path_found found); lia.
Qed.

Lemma assign_loop_Ok iteration passengers : forall num num' passengers',
  assign_loop iteration num passengers = Ok (num', passengers') ->
  Forall2 (assigned iteration) passengers passengers'
  /\ num' = (num + Z.of_nat (length (filter (fun p => counted iteration p.2 = true)
                                       passengers)))%Z.
Proof.
  induction passengers as [|[passenger_id passenger] rest IH];
    intros num num' passengers'; simpl.
  { intros [= <- <-]. split; [constructor|lia]. }
  destruct (assign_passenger iteration num passenger) as [[num1 passenger1]|e] eqn:E1;
    [|done].
  simpl.
  destruct (assign_loop iteration num1 rest) as [[num2 rest']|e] eqn:E2; [|done].
  simpl. intros [= <- <-].
  apply (assign_passenger_Ok _ _ _ _ _ passenger_id) in E1 as [Ha ->].
  apply IH in E2 as [Hrest ->].
  split; [by constructor|].
  rewrite filter_cons.
  destruct (decide (counted iteration (passenger_id, passenger).2 = true))
    as [Hc|Hc]; simpl in Hc.
  - rewrite Hc. simpl. lia.
  - apply not_true_is_false in Hc. rewrite Hc. lia.
Qed.

Lemma assign_loop_Raise iteration passengers : forall num e,
  assign_loop iteration num passengers = Raise e ->
  exists passenger_id passenger,
    (passenger_id, passenger) ∈ passengers
    /\ goes_nowhere passenger = false
    /\ already_arrived iteration passenger = false
    /\ find_path (path passenger) = Raise e.
Proof.
  induction passengers as [|[passenger_id passenger] rest IH]; intros num e; simpl;
    [done|].
  destruct (assign_passenger iteration num passenger) as [[num1 passenger1]|e1] eqn:E1.
  - simpl.
    destruct (assign_loop iteration num1 rest) as [[num2 rest']|e2] eqn:E2; [done|].
    simpl. intros [= <-].
    apply IH in E2 as (pid & p & Hin & H).
    exists pid, p. split; [by apply elem_of_cons; right|done].
  - simpl. intros [= <-].
    exists passenger_id, passenger. split; [by apply elem_of_cons; left|].
    unfold assign_passenger in E1.
    destruct (goes_nowhere passenger); [done|].
    destruct (already_arrived iteration passenger); [done|].
    destruct (find_path (path passenger)) as [[asgn_iters found]|e]; [done|].
    simpl in E1. by injection E1 as ->.
Qed.

(** X6. A call that returns has left the passengers in their order, each with
    the status it had.  A passenger who goes nowhere, or who has arrived in the
    simulation of an earlier iteration, keeps the path; every other passenger
    has the path the search of the assignment type made.  The number returned
    counts the passengers who go somewhere and have arrived earlier or have a
    path after the search, so it lies between 0 and the number of passengers.
    A call fails only with the exception of the search for a passenger who
    needed one. *)
Theorem assign_passengers_counts passengers iteration :
  match assign_passengers passengers iteration with
  | Ok (num_paths_assigned, passengers') =>
      Forall2 (assigned iteration) passengers passengers'
      /\ num_paths_assigned
         = Z.of_nat (length (filter (fun p => counted iteration p.2 = true)
                               passengers))
      /\ (0 <= num_paths_assigned <= Z.of_nat (length passengers))%Z
  | Raise e =>
      exists passenger_id passenger,
        (passenger_id, passenger) ∈ passengers
        /\ goes_nowhere passenger = false
        /\ already_arrived iteration passenger = false
        /\ find_path (path passenger) = Raise e
  end.
Proof.
  unfold assign_passengers.
  destruct (assign_loop iteration 0 passengers) as [[num passengers']|e] eqn:E.
  - apply assign_loop_Ok in E as [Hall ->].
    split; [done|]. split; [lia|].
    pose proof (length_filter (fun p : Z * Passenger => counted iteration p.2 = true)
                  passengers).
    lia.
  - by apply assign_loop_Raise in E.
Qed.

End assign_passengers.

End Assigner.

(** *** A worked event pass: two passengers, one seat

    Trip 7 leaves stop 10 at 07:35 and reaches stop 20 at 07:50 with one
    seat.  Passenger 1 reaches stop 10 at 07:30 and passenger 2 at 07:34;
    trip 8 calls at stop 30 at 08:00.  Passenger 1 boards and arrives,
    passenger 2 is bumped. *)

Module Example.

Definition hm (h m : Z) : Z := ((h * 60 + m) * 60 * 1000000)%Z.
Definition minutes (m : Z) : Z := (m * 60 * 1000000)%Z.

Definition rider (leave : Z) : Path Z :=
  mkPath 100 200 (hm 8 0) OUTBOUND
    [ (100%Z, mkState (minutes 25) leave ACCESS 10 (minutes 5) None);
      (10%Z, mkState (minutes 20) (hm 7 35) (TRIP 7) 20 (minutes 15) None);
      (20%Z, mkState (minutes 5) (hm 7 50) EGRESS 200 (minutes 5) None) ].

Definition passengers : list (Z * Path Z) :=
  [ (1%Z, rider (hm 7 25)); (2%Z, rider (hm 7 29)) ].

Definition trip7 : Trip :=
  mkTrip [(10%Z, hm 7 35, hm 7 35); (20%Z, hm 7 50, hm 7 50)] 1.
Definition trip8 : Trip := mkTrip [(30%Z, hm 8 0, hm 8 0)] 40.

Definition trips : gmap Z Trip := <[7%Z := trip7]> (<[8%Z := trip8]> ∅).

Definition events : list Simulator.Event :=
  [ Simulator.mkEvent 7 10 (hm 7 35) Simulator.EVENT_TYPE_ARRIVAL;
    Simulator.mkEvent 7 10 (hm 7 35) Simulator.EVENT_TYPE_DEPARTURE;
    Simulator.mkEvent 7 20 (hm 7 50) Simulator.EVENT_TYPE_ARRIVAL;
    Simulator.mkEvent 7 20 (hm 7 50) Simulator.EVENT_TYPE_DEPARTURE;
    Simulator.mkEvent 8 30 (hm 8 0) Simulator.EVENT_TYPE_ARRIVAL;
    Simulator.mkEvent 8 30 (hm 8 0) Simulator.EVENT_TYPE_DEPARTURE ].

Definition goes_somewhere (p : Path Z) : bool :=
  negb (bool_decide (origin_taz_id p = destination_taz_id p)).
Definition path_found (p : Path Z) : bool := (1 <? num_states p)%Z.
Definition dwell (_ : Trip) (boards alights : Z) : Z := (boards + alights)%Z.

Definition ok_or {A} (d : A) (r : result A) : A :=
  match r with Ok a => a | Raise _ => d end.

Definition start : @Simulator.sim Z :=
  ok_or (Simulator.initial ∅)
    (for_each (Simulator.reset_passenger passengers goes_somewhere path_found)
       passengers.*1 (Simulator.initial ∅)).

Definition finish : @Simulator.sim Z :=
  ok_or start (Simulator.run_events passengers trips dwell true events start).

Lemma start_started :
  Simulator.started passengers goes_somewhere path_found ∅ start.
Proof. vm_compute. reflexivity. Qed.

Lemma finish_run :
  Simulator.run_events passengers trips dwell true events start = Ok finish.
Proof. vm_compute. reflexivity. Qed.

Lemma trips_capacity tid trip : trips !! tid = Some trip -> (0 <= capacity trip)%Z.
Proof.
  unfold trips. intros H.
  apply lookup_insert_Some in H as [[_ <-]|[_ H]]; [done|].
  apply lookup_insert_Some in H as [[_ <-]|[_ H]]; [done|].
  by rewrite lookup_empty in H.
Qed.

Example finish_statuses :
  Simulator.passenger_id_to_state finish !! 1%Z = Some (Simulator.STATUS_ARRIVED, 3%Z)
  /\ Simulator.passenger_id_to_state finish !! 2%Z = Some (Simulator.STATUS_BUMPED, (-1)%Z)
  /\ Simulator.passengers_arrived finish = 1%Z.
Proof. vm_compute. done. Qed.

End Example.

(** In the worked pass trip 7 never carries more than its one passenger. *)
Lemma capacity_respected_witness :
  (Z.of_nat (length (Simulator.on_board Example.finish 7)) <= 1)%Z.
Proof.
  destruct (Simulator.capacity_respected Example.passengers Example.trips
              Example.goes_somewhere Example.path_found Example.dwell true
              ∅ Example.start eq_refl Example.trips_capacity Example.start_started)
    as (Hcap & Hrun & _).
  apply (Hcap Example.finish (Hrun Example.events _ Example.finish_run)
           7%Z Example.trip7).
  reflexivity.
Defined.

(** In the worked pass the entry of (trip 7, stop 10) is the arrival at the
    stop of the one bumped passenger, 07:34. *)
Lemma bump_wait_is_earliest_witness :
  Simulator.bump_wait Example.finish !! (TRIP 7, 10%Z)
    = Simulator.earliest None [Example.hm 7 34].
Proof.
  destruct (Simulator.bump_wait_is_earliest Example.passengers Example.trips
              Example.goes_somewhere Example.path_found Example.dwell true
              ∅ Example.start Example.start_started)
    as (_ & Hrun & _ & Hmin).
  destruct (Hmin Example.finish (Hrun Example.events _ Example.finish_run) 7%Z 10%Z)
    as [Heq _].
  exact Heq.
Defined.

(** ** The random choice: [Assignment.test_rand] and [Assignment.choose_state] *)

Module Choice.

(** [test_rand()]: the next integer of the opened [RAND_FILE], here the list
    of the integers still to be read; at the end of the file [int('')]
    raises [ValueError]. *)
Definition test_rand (rand : list Z) : result (Z * list Z) :=
  match rand with
  | [] => Raise ValueError
  | random_num :: rand' => Ok (random_num, rand')
  end.

(** [for (cum_prob, state) in prob_state_list: if random_num < cum_prob:
    return state], and the exception after the loop. *)
Fixpoint scan {S} (random_num : Z) (prob_state_list : list (Z * S)) : result S :=
  match prob_state_list with
  | [] => Raise ThisShouldntHappen
  | (cum_prob, state) :: rest =>
      if (random_num <? cum_prob)%Z then Ok state else scan random_num rest
  end.

(** [choose_state(prob_state_list)], with the random source threaded. *)
Definition choose_state {S} (prob_state_list : list (Z * S)) (rand : list Z)
  : result (S * list Z) :=
  '(random_num, rand') ← test_rand rand;
  final ← py_last prob_state_list;
  if decide (final.1 = 0%Z) then Raise ZeroDivisionError
  else
    state ← scan (random_num mod final.1)%Z prob_state_list;
    Ok (state, rand').

Lemma scan_below_last {S} (random_num : Z) (l : list (Z * S)) c st :
  last l = Some (c, st) -> (random_num < c)%Z ->
  exists chosen, scan random_num l = Ok chosen /\ chosen ∈ l.*2.
Proof.
  induction l as [|[c' st'] l IH]; intros Hlast Hlt; [done|].
  simpl. destruct (Z.ltb_spec random_num c') as [Hlt'|Hge].
  - exists st'. split; [done|]. apply elem_of_cons. by left.
  - destruct l as [|x l'].
    + simpl in Hlast. injection Hlast as -> ->. lia.
    + rewrite last_cons_cons in Hlast.
      destruct (IH Hlast Hlt) as (chosen & Hs & Hin).
      exists chosen. split; [done|]. apply elem_of_cons. by right.
Qed.

(** C9. [choose_state] never reaches its "This shouldn't happen" exception:
    for a non-empty list of cumulative weights whose last weight is
    positive, the drawn integer reduced modulo the last weight is below the
    last weight, and the scan returns one of the states of the list. *)
Theorem choose_state_returns {S} (prob_state_list : list (Z * S)) c st :
  last prob_state_list = Some (c, st) ->
  (0 < c)%Z ->
  (forall random_num, (0 <= random_num mod c < c)%Z)
  /\ (forall random_num rand,
        exists chosen,
          choose_state prob_state_list (random_num :: rand) = Ok (chosen, rand)
          /\ chosen ∈ prob_state_list.*2)
  /\ (forall rand, choose_state prob_state_list rand <> Raise ThisShouldntHappen).
Proof.
  intros Hlast Hpos.
  assert (forall random_num, (0 <= random_num mod c < c)%Z) as Hmod
    by (intros; by apply Z.mod_pos_bound).
  assert (forall random_num rand,
            exists chosen,
              choose_state prob_state_list (random_num :: rand) = Ok (chosen, rand)
              /\ chosen ∈ prob_state_list.*2) as Hret.
  { intros random_num rand. unfold choose_state, py_last. simpl.
    rewrite Hlast. simpl. rewrite decide_False by lia.
    destruct (scan_below_last (random_num mod c)%Z prob_state_list c st Hlast)
      as (chosen & -> & Hin); [apply Hmod|].
    simpl. eauto. }
  split; [done|]. split; [done|].
  intros [|random_num rand]; [done|].
  destruct (Hret random_num rand) as (chosen & -> & _). done.
Qed.

(** *** Further properties: what a draw consumes, and how it fails *)

Lemma choose_state_draws {S} (prob_state_list : list (Z * S)) rand state rand' :
  choose_state prob_state_list rand = Ok (state, rand') ->
  exists random_num, rand = random_num :: rand'.
Proof.
  unfold choose_state, test_rand. destruct rand as [|r rand]; [done|]. simpl.
  intros H. apply bind_Ok in H as (final & _ & H).
  destruct (decide (final.1 = 0%Z)); [done|].
  apply bind_Ok in H as (st & _ & H). injection H as _ <-. eauto.
Qed.

Lemma scan_raise {S} random_num (l : list (Z * S)) e :
  scan random_num l = Raise e -> e = ThisShouldntHappen.
Proof.
  induction l as [|[c st] l IH]; simpl; [by intros [= <-]|].
  destruct (_ <? _)%Z; [done|]. exact IH.
Qed.

Lemma choose_state_raise {S} (prob_state_list : list (Z * S)) rand e :
  choose_state prob_state_list rand = Raise e -> e <> FuelExhausted.
Proof.
  unfold choose_state, test_rand. destruct rand as [|r rand]; simpl;
    [by intros [= <-]|].
  intros H. apply bind_Raise in H as [H|(final & _ & H)];
    [by apply py_last_raise in H as [-> _]|].
  destruct (decide (final.1 = 0%Z)); [by injection H as <-|].
  apply bind_Raise in H as [H|(st & _ & H)]; [|done].
  by apply scan_raise in H as ->.
Qed.

Lemma scan_above {S} random_num (l : list (Z * S)) :
  (forall x, x ∈ l -> (x.1 <= random_num)%Z) ->
  scan random_num l = Raise ThisShouldntHappen.
Proof.
  induction l as [|[c st] l IH]; intros H; simpl; [done|].
  destruct (Z.ltb_spec random_num c) as [Hlt|_].
  - specialize (H (c, st)). simpl in H.
    assert ((c, st) ∈ (c, st) :: l) as Hin by (apply elem_of_cons; by left).
    specialize (H Hin). lia.
  - apply IH. intros x Hx. apply H, elem_of_cons. by right.
Qed.

(** X7. How [choose_state] fails.  At the end of the random file it raises
    [ValueError]; on an empty list, [IndexError]; when the last cumulative
    weight is zero, [ZeroDivisionError]; and when the last cumulative weight
    is negative and no weight is above it, the scan finds nothing and the
    "This shouldn't happen" exception is raised, for every draw. *)
Theorem choose_state_failures {S} (prob_state_list : list (Z * S)) :
  choose_state prob_state_list [] = Raise ValueError
  /\ (forall random_num rand,
        prob_state_list = [] ->
        choose_state prob_state_list (random_num :: rand) = Raise IndexError)
  /\ (forall random_num rand state,
        last prob_state_list = Some (0%Z, state) ->
        choose_state prob_state_list (random_num :: rand)
          = Raise ZeroDivisionError)
  /\ (forall random_num rand c state,
        last prob_state_list = Some (c, state) ->
        (c < 0)%Z ->
        (forall x, x ∈ prob_state_list -> (x.1 <= c)%Z) ->
        choose_state prob_state_list (random_num :: rand)
          = Raise ThisShouldntHappen).
Proof.
  split; [done|]. split; [by intros r rand ->|]. split.
  - intros r rand st Hlast. unfold choose_state, py_last. simpl.
    by rewrite Hlast.
  - intros r rand c st Hlast Hneg Hall. unfold choose_state, py_last. simpl.
    rewrite Hlast. simpl. rewrite decide_False by lia.
    rewrite scan_above; [done|].
    intros x Hx. specialize (Hall x Hx).
    pose proof (Z.mod_neg_bound r c Hneg). lia.
Qed.

Lemma scan_first_above {S} random_num (before : list (Z * S)) cum_prob state after :
  (forall x, x ∈ before -> (x.1 <= random_num)%Z) ->
  (random_num < cum_prob)%Z ->
  scan random_num (before ++ (cum_prob, state) :: after) = Ok state.
Proof.
  induction before as [|[c st] before IH]; intros Hb Hlt; simpl.
  - by destruct (Z.ltb_spec random_num cum_prob); [|lia].
  - destruct (Z.ltb_spec random_num c) as [Hc|_].
    + assert ((c, st) ∈ (c, st) :: before) as Hin by (apply elem_of_cons; by left).
      specialize (Hb (c, st) Hin). simpl in Hb. lia.
    + apply IH; [|done]. intros x Hx. apply Hb, elem_of_cons. by right.
Qed.

(** X8. Which state [choose_state] returns.  The draw is reduced modulo the
    last cumulative weight; the state returned is the one of the first entry
    whose cumulative weight is above the reduced draw, and one number is taken
    from the random file.  With weights that increase along the list, the state
    of weight [cum_prob] after a weight [prev] is returned for the reduced
    draws from [prev] up to [cum_prob - 1]. *)
Theorem choose_state_picks_first_above {S} (before : list (Z * S)) cum_prob state
    after random_num rand final final_state :
  last (before ++ (cum_prob, state) :: after) = Some (final, final_state) ->
  final <> 0%Z ->
  (forall x, x ∈ before -> (x.1 <= random_num mod final)%Z) ->
  (random_num mod final < cum_prob)%Z ->
  choose_state (before ++ (cum_prob, state) :: after) (random_num :: rand)
  = Ok (state, rand).
Proof.
  intros Hlast Hne Hb Hlt. unfold choose_state, test_rand, py_last. simpl.
  rewrite Hlast. simpl. rewrite decide_False by done.
  by rewrite scan_first_above.
Qed.

End Choice.

(** Over the cumulative weights 400 and 1000, a draw of 1234 (234 modulo
    1000) picks the first state and a draw of -1 (999 modulo 1000) the
    second. *)
Lemma choose_state_returns_witness :
  Choice.choose_state [(400%Z, ACCESS); (1000%Z, EGRESS)] [1234%Z; 7%Z]
    = Ok (ACCESS, [7%Z])
  /\ Choice.choose_state [(400%Z, ACCESS); (1000%Z, EGRESS)] [(-1)%Z]
    = Ok (EGRESS, []).
Proof.
  destruct (Choice.choose_state_returns [(400%Z, ACCESS); (1000%Z, EGRESS)]
              1000%Z EGRESS eq_refl eq_refl) as (_ & Hret & _).
  split.
  - destruct (Hret 1234%Z [7%Z]) as (chosen & H & _). rewrite H.
    vm_compute in H. by injection H as <-.
  - destruct (Hret (-1)%Z []) as (chosen & H & _). rewrite H.
    vm_compute in H. by injection H as <-.
Defined.

(** ** The schedule store read by the path finders *)

(** Modelled from the spec: the [Stop] class is not among the sources.  A
    stop has its transfers (the items of the dict from the other stop's id
    to the transfer time, in iteration order), its is-transfer flag, and the
    two queries for the trips arriving or departing within a time window,
    which yield [(trip_id, seq, time)] tuples. *)
Record Stop : Type := mkStop {
  transfers : list (Z * Z);
  is_transfer : bool;
  get_trips_arriving_within_time : Z -> Z -> list (Z * Z * Z);
  get_trips_departing_within_time : Z -> Z -> list (Z * Z * Z)
}.

(** Modelled from the spec: the [TAZ] class is not among the sources.  A TAZ
    has its access links, the items of the dict from stop id to walk time. *)
Record TAZ : Type := mkTAZ {
  access_links : list (Z * Z)
}.

(** [range(lo, hi)] *)
Definition py_range (lo hi : Z) : list Z :=
  map (fun i => (lo + Z.of_nat i)%Z) (seq 0 (Z.to_nat (hi - lo))).

(** ** The deterministic search: [Assignment.find_trip_based_shortest_path] *)

Module ShortestPath.

(** [MAX_TIME = datetime.timedelta(minutes = 999.999)] *)
Definition MAX_TIME : Z := 59999940000.

(** The priority queue of [(label, stop_id)] tuples: [get] removes the
    smallest tuple in the order of Python's tuples. *)
Definition entry_le (a b : Z * Z) : bool :=
  (a.1 <? b.1)%Z || ((a.1 =? b.1)%Z && (a.2 <=? b.2)%Z).

Fixpoint queue_min (x : Z * Z) (q : list (Z * Z)) : Z * Z :=
  match q with
  | [] => x
  | y :: q' => queue_min (if entry_le x y then x else y) q'
  end.

Fixpoint queue_remove (x : Z * Z) (q : list (Z * Z)) : list (Z * Z) :=
  match q with
  | [] => []
  | y :: q' => if decide (x = y) then q' else y :: queue_remove x q'
  end.

Definition queue_get (q : list (Z * Z)) : option (Z * Z * list (Z * Z)) :=
  match q with
  | [] => None
  | x :: q' => let m := queue_min x q' in Some (m, queue_remove m q)
  end.

Definition queue_put (x : Z * Z) (q : list (Z * Z)) : list (Z * Z) := q ++ [x].

(** The local variables of the search. *)
Record search : Type := mkSearch {
  stop_states : gmap Z (State Z);   (* stop_id -> state *)
  stop_queue : list (Z * Z);        (* (label, stop_id) *)
  stop_done : gset Z;               (* stop ids *)
  trips_used : gset Z;              (* trip ids *)
  label_iterations : Z
}.

Definition set_stop_states (v : gmap Z (State Z)) (s : search) : search :=
  {| stop_states := v; stop_queue := stop_queue s; stop_done := stop_done s;
     trips_used := trips_used s; label_iterations := label_iterations s |}.

Definition set_stop_queue (v : list (Z * Z)) (s : search) : search :=
  {| stop_states := stop_states s; stop_queue := v; stop_done := stop_done s;
     trips_used := trips_used s; label_iterations := label_iterations s |}.

Definition set_stop_done (v : gset Z) (s : search) : search :=
  {| stop_states := stop_states s; stop_queue := stop_queue s; stop_done := v;
     trips_used := trips_used s; label_iterations := label_iterations s |}.

Definition set_trips_used (v : gset Z) (s : search) : search :=
  {| stop_states := stop_states s; stop_queue := stop_queue s;
     stop_done := stop_done s; trips_used := v;
     label_iterations := label_iterations s |}.

Definition set_label_iterations (v : Z) (s : search) : search :=
  {| stop_states := stop_states s; stop_queue := stop_queue s;
     stop_done := stop_done s; trips_used := trips_used s;
     label_iterations := v |}.

(** How the labeling loop ends: the queue drained, an exception left the
    loop, or the fuel of the model ran out. *)
Inductive outcome : Type :=
  | Finished (s : search)
  | Failed (e : exn)
  | OutOfFuel.

Section search.
(** [FT.tazs], [FT.stops], [FT.trips] *)
Variable tazs : gmap Z TAZ.
Variable stops : gmap Z Stop.
Variable trips : gmap Z Trip.
Variable PATH_TIME_WINDOW : Z.
Variable BUMP_BUFFER : Z.
(** [Assignment.bump_wait], read only during a search. *)
Variable bump_wait : bump_wait_table.
(** The path being searched: its direction, TAZs and preferred time. *)
Variable path : Path Z.

Definition dir : Z := dir_factor (path_direction path).

Definition start_taz_id : Z :=
  if outbound path then destination_taz_id path else origin_taz_id path.

(** [stop_states[stop_id] = state; stop_queue.put((label, stop_id))] *)
Definition label_stop (stop_id : Z) (state : State Z) (s : search) : search :=
  set_stop_queue (queue_put (STATE_LABEL state, stop_id) (stop_queue s))
    (set_stop_states (<[stop_id := state]> (stop_states s)) s).

(** The body of the loop over the access links of the start TAZ. *)
Definition seed_link (link : Z * Z) (s : search) : search :=
  let '(stop_id, access_time) := link in
  let deparr_time := (preferred_time path - access_time * dir)%Z in
  label_stop stop_id
    (mkState access_time deparr_time
       (if outbound path then EGRESS else ACCESS) start_taz_id access_time None)
    s.

Definition empty_search : search :=
  {| stop_states := ∅; stop_queue := []; stop_done := ∅; trips_used := ∅;
     label_iterations := 0 |}.

(** The state in which the labeling loop starts. *)
Definition seeded : result search :=
  taz ← getitem tazs start_taz_id;
  Ok (fold_left (fun s link => seed_link link s) (access_links taz) empty_search).

(** [old_label]: the label of the stop's state, [MAX_TIME] without one. *)
Definition old_label (s : search) (stop_id : Z) : Z :=
  match stop_states s !! stop_id with
  | Some state => STATE_LABEL state
  | None => MAX_TIME
  end.

(** The body of the loop over the transfers of the current stop. *)
Definition relax_transfer (current_label current_stop_id : Z)
    (current_stop_state : State Z) (xfer : Z * Z) (s : search) : search :=
  let '(xfer_stop_id, xfer_time) := xfer in
  let new_label := (current_label + xfer_time)%Z in
  let deparr_time := (STATE_DEPARR current_stop_state - xfer_time * dir)%Z in
  let relax new_label deparr_time :=
    if (new_label <? old_label s xfer_stop_id)%Z
    then label_stop xfer_stop_id
           (mkState new_label deparr_time TRANSFER current_stop_id xfer_time None) s
    else s in
  match (if outbound path
         then bump_wait !! (STATE_DEPARRMODE current_stop_state, current_stop_id)
         else None) with
  | Some latest_time =>
      if (latest_time <? deparr_time - PATH_TIME_WINDOW)%Z then s
      else relax
             (new_label + (STATE_DEPARR current_stop_state - latest_time)
              + BUMP_BUFFER)%Z
             (latest_time - xfer_time - BUMP_BUFFER)%Z
  | None => relax new_label deparr_time
  end.

(** "Update by transfer": only out of a stop whose mode is a trip. *)
Definition update_by_transfer (current_label current_stop_id : Z)
    (current_stop_state : State Z) (s : search) : result search :=
  if is_walk_mode (STATE_DEPARRMODE current_stop_state) then Ok s
  else
    stop ← getitem stops current_stop_id;
    Ok (fold_left
          (fun s xfer =>
             relax_transfer current_label current_stop_id current_stop_state xfer s)
          (transfers stop) s).

(** The body of the loop over the stops of a valid trip. *)
Definition relax_trip_stop (current_label current_stop_id : Z)
    (trip_id arrdep_datetime wait_time : Z) (seq_num : Z) (s : search)
  : result search :=
  trip ← getitem trips trip_id;
  possible_board_alight ← py_index (trip_stops trip) (seq_num - 1);
  let '(board_alight_stop, arrival_time, departure_time) := possible_board_alight in
  let deparr_time := if outbound path then departure_time else arrival_time in
  let in_vehicle_time := ((arrdep_datetime - deparr_time) * dir)%Z in
  let new_label := (current_label + in_vehicle_time + wait_time)%Z in
  if (new_label <? old_label s board_alight_stop)%Z
  then Ok (label_stop board_alight_stop
             (mkState new_label deparr_time (TRIP trip_id) current_stop_id
                (in_vehicle_time + wait_time) None) s)
  else Ok s.

(** The test on the bump-wait table in the loop over the valid trips: the key
    looked up, the arrival time compared, and whether the trip is skipped. *)
Definition check_for_bump_wait (current_stop_id : Z)
    (current_stop_state : State Z) (trip_id : Z) : mode * Z :=
  if outbound path then (STATE_DEPARRMODE current_stop_state, current_stop_id)
  else (TRIP trip_id, current_stop_id).

Definition arrive_datetime (current_stop_state : State Z) (arrdep_datetime : Z) : Z :=
  if outbound path then arrdep_datetime else STATE_DEPARR current_stop_state.

Definition bumped_out (current_stop_id : Z) (current_stop_state : State Z)
    (trip_id arrdep_datetime : Z) : bool :=
  match bump_wait !! check_for_bump_wait current_stop_id current_stop_state trip_id with
  | Some latest_time =>
      (latest_time <=? arrive_datetime current_stop_state arrdep_datetime + GRACE)%Z
      && negb (bool_decide (STATE_DEPARRMODE current_stop_state = TRIP trip_id))
  | None => false
  end.

(** The body of the loop over the valid trips. *)
Definition relax_trip (current_label current_stop_id : Z)
    (current_stop_state : State Z) (valid_trip : Z * Z * Z) (s : search)
  : result search :=
  let '(trip_id, seq, arrdep_time) := valid_trip in
  if decide (trip_id ∈ trips_used s) then Ok s
  else
    let arrdep_datetime := arrdep_time in
    let wait_time := ((STATE_DEPARR current_stop_state - arrdep_datetime) * dir)%Z in
    if bumped_out current_stop_id current_stop_state trip_id arrdep_datetime
    then Ok s
    else
      trip_seq_list ←
        (if outbound path then Ok (rev (py_range 1 seq))
         else trip ← getitem trips trip_id;
              Ok (py_range (seq + 1) (Z.of_nat (number_of_stops trip) + 1)));
      for_each
        (relax_trip_stop current_label current_stop_id trip_id arrdep_datetime
           wait_time)
        trip_seq_list
        (set_trips_used ({[trip_id]} ∪ trips_used s) s).

(** "Update by trips". *)
Definition update_by_trips (current_label current_stop_id : Z)
    (current_stop_state : State Z) (s : search) : result search :=
  stop ← getitem stops current_stop_id;
  let valid_trips :=
    if outbound path
    then get_trips_arriving_within_time stop
           (STATE_DEPARR current_stop_state) PATH_TIME_WINDOW
    else get_trips_departing_within_time stop
           (STATE_DEPARR current_stop_state) PATH_TIME_WINDOW in
  for_each (relax_trip current_label current_stop_id current_stop_state)
    valid_trips s.

(** One label iteration: the body of the labeling loop for a stop that is
    not done yet (and has just been added to [stop_done]). *)
Definition label_iteration (current_label current_stop_id : Z) (s : search)
  : result search :=
  current_stop_state ← getitem (stop_states s) current_stop_id;
  s1 ← update_by_transfer current_label current_stop_id current_stop_state s;
  s2 ← update_by_trips current_label current_stop_id current_stop_state s1;
  Ok (set_label_iterations (label_iterations s2 + 1)%Z s2).

(** The labeling loop, [while not stop_queue.empty()], run for at most
    [fuel] passes. *)
Fixpoint labeling_loop (fuel : nat) (s : search) : outcome :=
  match fuel with
  | O => OutOfFuel
  | S fuel' =>
      match queue_get (stop_queue s) with
      | None => Finished s
      | Some ((current_label, current_stop_id), queue') =>
          let s1 := set_stop_queue queue' s in
          if decide (current_stop_id ∈ stop_done s) then labeling_loop fuel' s1
          else
            match label_iteration current_label current_stop_id
                    (set_stop_done ({[current_stop_id]} ∪ stop_done s) s1) with
            | Ok s2 => labeling_loop fuel' s2
            | Raise e => Failed e
            end
      end
  end.

(** *** Properties: the queue *)

Lemma queue_min_elem x q : queue_min x q ∈ x :: q.
Proof.
  revert x. induction q as [|y q IH]; intros x; simpl.
  - apply elem_of_cons. by left.
  - specialize (IH (if entry_le x y then x else y)).
    apply elem_of_cons in IH as [->|IH].
    + destruct (entry_le x y); [by left|right; by left].
    + right. by right.
Qed.

Lemma queue_remove_length x q :
  x ∈ q -> length q = S (length (queue_remove x q)).
Proof.
  induction q as [|y q IH]; intros Hin; [by apply elem_of_nil in Hin|].
  simpl. destruct (decide (x = y)); [done|].
  apply elem_of_cons in Hin as [?|Hin]; [done|]. simpl. f_equal. by apply IH.
Qed.

Lemma queue_get_length q x q' :
  queue_get q = Some (x, q') -> length q = S (length q').
Proof.
  destruct q as [|y q]; [done|]. unfold queue_get. intros [= <- <-].
  apply (queue_remove_length (queue_min y q) (y :: q)), queue_min_elem.
Qed.

(** *** Properties: what a label iteration may change *)

(** A step that leaves [stop_done] alone, only adds to [trips_used], and
    adds at most [n] entries to the queue. *)
Definition same_counters (s s' : search) : Prop :=
  stop_done s' = stop_done s
  /\ label_iterations s' = label_iterations s
  /\ trips_used s ⊆ trips_used s'.

Definition grows_by (n : nat) (s s' : search) : Prop :=
  same_counters s s'
  /\ (length (stop_queue s') <= length (stop_queue s) + n)%nat.

Lemma same_counters_refl s : same_counters s s.
Proof. by unfold same_counters. Qed.

Lemma same_counters_trans s1 s2 s3 :
  same_counters s1 s2 -> same_counters s2 s3 -> same_counters s1 s3.
Proof.
  intros (Hd1 & Hl1 & Hu1) (Hd2 & Hl2 & Hu2). unfold same_counters.
  split; [by rewrite Hd2|]. split; [by rewrite Hl2|by etrans].
Qed.

Lemma grows_by_refl s : grows_by 0 s s.
Proof. split; [apply same_counters_refl|lia]. Qed.

Lemma grows_by_trans n m s1 s2 s3 :
  grows_by n s1 s2 -> grows_by m s2 s3 -> grows_by (n + m) s1 s3.
Proof.
  intros (Hc1 & Hq1) (Hc2 & Hq2). split; [by eapply same_counters_trans|lia].
Qed.

Lemma grows_by_le n m s s' : (n <= m)%nat -> grows_by n s s' -> grows_by m s s'.
Proof. intros Hle (Hc & Hq). split; [done|lia]. Qed.

Lemma label_stop_grows stop_id state s : grows_by 1 s (label_stop stop_id state s).
Proof.
  split; [by unfold same_counters|].
  unfold label_stop, queue_put. simpl. rewrite length_app. simpl. lia.
Qed.

Lemma relax_transfer_grows cl cs cst xfer s :
  grows_by 1 s (relax_transfer cl cs cst xfer s).
Proof.
  unfold relax_transfer. destruct xfer as [xs xt].
  assert (grows_by 1 s s) as Hs by (eapply grows_by_le; [|apply grows_by_refl]; lia).
  destruct (if outbound path then _ else _) as [latest|].
  - destruct (_ <? _)%Z; [done|].
    destruct (_ <? _)%Z; [apply label_stop_grows|done].
  - destruct (_ <? _)%Z; [apply label_stop_grows|done].
Qed.

Lemma relax_transfers_grows cl cs cst xfers s :
  grows_by (length xfers) s
    (fold_left (fun s xfer => relax_transfer cl cs cst xfer s) xfers s).
Proof.
  revert s. induction xfers as [|x xfers IH]; intros s; simpl.
  - apply grows_by_refl.
  - eapply (grows_by_trans 1); [apply relax_transfer_grows|apply IH].
Qed.

Lemma relax_trip_stop_grows cl cs tid arrdep wait seq_num s s' :
  relax_trip_stop cl cs tid arrdep wait seq_num s = Ok s' -> grows_by 1 s s'.
Proof.
  unfold relax_trip_stop. intros H.
  apply bind_Ok in H as (trip & _ & H).
  apply bind_Ok in H as ([[bas arr] dep] & _ & H).
  destruct (_ <? _)%Z; injection H as <-; [apply label_stop_grows|].
  eapply grows_by_le; [|apply grows_by_refl]; lia.
Qed.

Lemma relax_trip_stops_grows cl cs tid arrdep wait l s s' :
  for_each (relax_trip_stop cl cs tid arrdep wait) l s = Ok s' ->
  grows_by (length l) s s'.
Proof.
  revert s. induction l as [|x l IH]; intros s H; simpl in H.
  - injection H as <-. apply grows_by_refl.
  - apply bind_Ok in H as (s1 & H1 & H).
    eapply (grows_by_trans 1); [by eapply relax_trip_stop_grows|by apply IH].
Qed.

Lemma py_index_Ok {A} (l : list A) i x :
  py_index l i = Ok x -> (- Z.of_nat (length l) <= i < Z.of_nat (length l))%Z.
Proof.
  unfold py_index. intros H.
  destruct (Z.ltb_spec i 0) as [Hneg|Hpos].
  - destruct (Z.ltb_spec (Z.of_nat (length l) + i) 0); [done|]. lia.
  - destruct (Z.ltb_spec i 0); [lia|].
    destruct (l !! Z.to_nat i) eqn:E; [|done].
    apply lookup_lt_Some in E. lia.
Qed.

Lemma py_range_length lo hi : length (py_range lo hi) = Z.to_nat (hi - lo).
Proof. unfold py_range. by rewrite length_map, length_seq. Qed.

Lemma py_range_head lo hi :
  (lo < hi)%Z -> exists l, py_range lo hi = lo :: l.
Proof.
  intros Hlt. unfold py_range.
  destruct (Z.to_nat (hi - lo)) as [|n] eqn:E; [lia|].
  simpl. rewrite Z.add_0_r. eauto.
Qed.

Lemma py_range_rev_head lo hi :
  (lo < hi)%Z -> exists l, rev (py_range lo hi) = (hi - 1)%Z :: l.
Proof.
  intros Hlt. unfold py_range.
  destruct (Z.to_nat (hi - lo)) as [|n] eqn:E; [lia|].
  rewrite seq_S, map_app, rev_app_distr. simpl.
  replace (lo + Z.of_nat n)%Z with (hi - 1)%Z by lia. eauto.
Qed.

(** *** Properties: termination of the labeling loop *)

(** The largest number of transfers of a stop and of stops of a trip. *)
Definition max_transfers : nat :=
  max_list ((fun x => length (transfers x.2)) <$> map_to_list stops).

Definition max_stops : nat :=
  max_list ((fun x => length (trip_stops x.2)) <$> map_to_list trips).

Lemma transfers_le k stop :
  stops !! k = Some stop -> (length (transfers stop) <= max_transfers)%nat.
Proof.
  intros H. apply max_list_elem_of_le, list_elem_of_fmap.
  exists (k, stop). split; [done|]. by apply elem_of_map_to_list.
Qed.

Lemma trip_stops_le k trip :
  trips !! k = Some trip -> (length (trip_stops trip) <= max_stops)%nat.
Proof.
  intros H. apply max_list_elem_of_le, list_elem_of_fmap.
  exists (k, trip). split; [done|]. by apply elem_of_map_to_list.
Qed.

(** The queue entries still to come are paid for by the stops not yet done
    and the trips not yet used. *)
Definition trip_weight (s : search) : nat :=
  length (stop_queue s) + 2 * max_stops * size (dom trips ∖ trips_used s).

Definition potential (s : search) : nat :=
  (1 + max_transfers) * size (dom stops ∖ stop_done s) + trip_weight s.

Lemma size_difference_mono (A B B' : gset Z) :
  B ⊆ B' -> (size (A ∖ B') <= size (A ∖ B))%nat.
Proof. intros H. apply subseteq_size. set_solver. Qed.

Lemma size_difference_add (A B : gset Z) x :
  x ∈ A -> x ∉ B -> (S (size (A ∖ ({[x]} ∪ B))) <= size (A ∖ B))%nat.
Proof.
  intros HA HB. apply Nat.le_succ_l. apply subset_size. set_solver.
Qed.

Lemma relax_trip_stops_bound cl cs tid arrdep wait seq l s s' :
  l = (if outbound path then rev (py_range 1 seq)
       else match trips !! tid with
            | Some trip => py_range (seq + 1) (Z.of_nat (number_of_stops trip) + 1)
            | None => []
            end) ->
  for_each (relax_trip_stop cl cs tid arrdep wait) l s = Ok s' ->
  match trips !! tid with
  | Some trip => (length l <= 2 * length (trip_stops trip))%nat
  | None => l = []
  end.
Proof.
  intros Hl Hrun.
  assert (forall x l', l = x :: l' ->
            exists trip y, trips !! tid = Some trip
                           /\ py_index (trip_stops trip) (x - 1) = Ok y) as Hhead.
  { intros x l' ->. simpl in Hrun. apply bind_Ok in Hrun as (s1 & H1 & _).
    unfold relax_trip_stop in H1.
    apply bind_Ok in H1 as (trip & Ht & H1).
    apply bind_Ok in H1 as (y & Hy & _).
    unfold getitem in Ht. destruct (trips !! tid); [|done].
    injection Ht as ->. eauto. }
  destruct (trips !! tid) as [trip|] eqn:Etrip.
  - destruct (outbound path).
    + destruct (Z.ltb_spec 1 seq) as [Hlt|Hge].
      * destruct (py_range_rev_head 1 seq Hlt) as [l' Hl'].
        rewrite Hl' in Hl. destruct (Hhead _ _ Hl) as (trip' & y & [= <-] & Hy).
        apply py_index_Ok in Hy.
        rewrite Hl, <- Hl', length_rev, py_range_length. lia.
      * rewrite Hl, length_rev, py_range_length. lia.
    + unfold number_of_stops in Hl.
      destruct (Z.ltb_spec (seq + 1) (Z.of_nat (length (trip_stops trip)) + 1))
        as [Hlt|Hge].
      * destruct (py_range_head _ _ Hlt) as [l' Hl'].
        rewrite Hl' in Hl. destruct (Hhead _ _ Hl) as (trip' & y & [= <-] & Hy).
        apply py_index_Ok in Hy.
        rewrite Hl, <- Hl', py_range_length. lia.
      * rewrite Hl, py_range_length. lia.
  - destruct l as [|x l']; [done|].
    destruct (Hhead x l' eq_refl) as (trip' & y & [=] & _).
Qed.

Lemma relax_trip_weight cl cs cst valid_trip s s' :
  relax_trip cl cs cst valid_trip s = Ok s' ->
  same_counters s s' /\ (trip_weight s' <= trip_weight s)%nat.
Proof.
  destruct valid_trip as [[tid seq] arrdep]. unfold relax_trip. intros H.
  destruct (decide (tid ∈ trips_used s)) as [Hin|Hnin];
    [injection H as <-; split; [apply same_counters_refl|done]|].
  destruct (bumped_out _ _ _ _);
    [injection H as <-; split; [apply same_counters_refl|done]|].
  apply bind_Ok in H as (l & Hl & H).
  pose proof (relax_trip_stops_grows _ _ _ _ _ _ _ _ H) as ((Hd & Hi & Hu) & Hq).
  simpl in Hd, Hi, Hu, Hq.
  assert (l = (if outbound path then rev (py_range 1 seq)
               else match trips !! tid with
                    | Some trip =>
                        py_range (seq + 1) (Z.of_nat (number_of_stops trip) + 1)
                    | None => []
                    end)) as Hl'.
  { destruct (outbound path); [by injection Hl as <-|].
    apply bind_Ok in Hl as (trip & Ht & Hl). injection Hl as <-.
    unfold getitem in Ht. destruct (trips !! tid); [|done]. by injection Ht as ->. }
  pose proof (relax_trip_stops_bound _ _ _ _ _ _ _ _ _ Hl' H) as Hb.
  assert (trips_used s ⊆ trips_used s') as Hu'.
  { etrans; [|exact Hu]. apply union_subseteq_r. }
  split; [by unfold same_counters|].
  unfold trip_weight.
  pose proof (size_difference_mono (dom trips) _ _ Hu) as Hsz.
  destruct (trips !! tid) as [trip|] eqn:Etrip.
  - pose proof (trip_stops_le _ _ Etrip) as Hle.
    assert (tid ∈ dom trips) as Hdom by (apply elem_of_dom; eauto).
    pose proof (size_difference_add _ _ _ Hdom Hnin) as Hadd. nia.
  - rewrite Hb in Hq. simpl in Hq.
    pose proof (size_difference_mono (dom trips) _ _ Hu') as Hm. nia.
Qed.

Lemma relax_trips_weight cl cs cst valid_trips s s' :
  for_each (relax_trip cl cs cst) valid_trips s = Ok s' ->
  same_counters s s' /\ (trip_weight s' <= trip_weight s)%nat.
Proof.
  intros H.
  apply (for_each_inv
           (fun x => same_counters s x /\ (trip_weight x <= trip_weight s)%nat))
    in H; [done| |split; [apply same_counters_refl|done]].
  intros vt a b (Hc & Hw) Hr.
  apply relax_trip_weight in Hr as (Hc' & Hw').
  split; [by eapply same_counters_trans|lia].
Qed.

Lemma update_by_trips_weight cl cs cst s s' :
  update_by_trips cl cs cst s = Ok s' ->
  is_Some (stops !! cs)
  /\ same_counters s s' /\ (trip_weight s' <= trip_weight s)%nat.
Proof.
  unfold update_by_trips. intros H.
  apply bind_Ok in H as (stop & Hs & H).
  split. { unfold getitem in Hs. destruct (stops !! cs); [eauto|done]. }
  by eapply relax_trips_weight.
Qed.

Lemma update_by_transfer_grows cl cs cst stop s s' :
  stops !! cs = Some stop ->
  update_by_transfer cl cs cst s = Ok s' -> grows_by max_transfers s s'.
Proof.
  intros Hstop H. unfold update_by_transfer in H.
  destruct (is_walk_mode _).
  - injection H as <-. eapply grows_by_le; [|apply grows_by_refl]. lia.
  - unfold getitem in H. rewrite Hstop in H. simpl in H. injection H as <-.
    eapply grows_by_le; [|apply relax_transfers_grows].
    by eapply transfers_le.
Qed.

Lemma label_iteration_potential cl cs s s' :
  label_iteration cl cs s = Ok s' ->
  is_Some (stops !! cs)
  /\ stop_done s' = stop_done s
  /\ label_iterations s' = (label_iterations s + 1)%Z
  /\ trips_used s ⊆ trips_used s'
  /\ (potential s' <= potential s + max_transfers)%nat.
Proof.
  unfold label_iteration. intros H.
  apply bind_Ok in H as (cst & _ & H).
  apply bind_Ok in H as (s1 & H1 & H).
  apply bind_Ok in H as (s2 & H2 & H). injection H as <-.
  apply update_by_trips_weight in H2 as ([stop Hstop] & (Hd2 & Hi2 & Hu2) & Hw2).
  pose proof (update_by_transfer_grows _ _ _ _ _ _ Hstop H1)
    as ((Hd1 & Hi1 & Hu1) & Hq1).
  split; [eauto|]. simpl. split; [congruence|]. split; [congruence|].
  split; [by etrans|].
  unfold potential. simpl. rewrite Hd2, Hd1.
  assert (trip_weight s1 <= trip_weight s + max_transfers)%nat.
  { unfold trip_weight.
    pose proof (size_difference_mono (dom trips) _ _ Hu1). nia. }
  unfold trip_weight in *. simpl. lia.
Qed.

Lemma labeling_loop_fuel fuel s :
  (potential s < fuel)%nat -> labeling_loop fuel s <> OutOfFuel.
Proof.
  revert s. induction fuel as [|fuel IH]; intros s Hlt; [lia|].
  simpl. destruct (queue_get (stop_queue s)) as [[[cl cs] q']|] eqn:Hget; [|done].
  apply queue_get_length in Hget.
  destruct (decide (cs ∈ stop_done s)) as [Hdone|Hnew].
  - apply IH. unfold potential, trip_weight in *. simpl. lia.
  - destruct (label_iteration _ _ _) as [s2|e] eqn:Hit; [|done].
    apply IH.
    apply label_iteration_potential in Hit as (Hstop & _ & _ & _ & Hpot).
    assert (cs ∈ dom stops) as Hdom by by apply elem_of_dom.
    pose proof (size_difference_add _ _ _ Hdom Hnew) as Hadd.
    unfold potential, trip_weight in *. simpl in Hpot. nia.
Qed.

Lemma labeling_loop_more fuel fuel' s :
  labeling_loop fuel s <> OutOfFuel -> (fuel <= fuel')%nat ->
  labeling_loop fuel' s = labeling_loop fuel s.
Proof.
  revert fuel' s. induction fuel as [|fuel IH]; intros fuel' s Hne Hle; [done|].
  destruct fuel' as [|fuel']; [lia|]. simpl in *.
  destruct (queue_get (stop_queue s)) as [[[cl cs] q']|]; [|done].
  destruct (decide (cs ∈ stop_done s)); [apply IH; [done|lia]|].
  destruct (label_iteration _ _ _); [apply IH; [done|lia]|done].
Qed.

(** *** Properties: the states at the head of the labeling loop *)

(** The states in which the test of the [while] is reached. *)
Inductive loop_head : search -> Prop :=
  | head_seeded s0 : seeded = Ok s0 -> loop_head s0
  | head_done s current_label current_stop_id queue' :
      loop_head s ->
      queue_get (stop_queue s) = Some ((current_label, current_stop_id), queue') ->
      current_stop_id ∈ stop_done s ->
      loop_head (set_stop_queue queue' s)
  | head_labeled s current_label current_stop_id queue' s' :
      loop_head s ->
      queue_get (stop_queue s) = Some ((current_label, current_stop_id), queue') ->
      current_stop_id ∉ stop_done s ->
      label_iteration current_label current_stop_id
        (set_stop_done ({[current_stop_id]} ∪ stop_done s)
           (set_stop_queue queue' s)) = Ok s' ->
      loop_head s'.

Lemma labeling_loop_head fuel s s' :
  loop_head s -> labeling_loop fuel s = Finished s' ->
  loop_head s' /\ stop_queue s' = [].
Proof.
  revert s. induction fuel as [|fuel IH]; intros s Hh H; [done|].
  simpl in H.
  destruct (queue_get (stop_queue s)) as [[[cl cs] q']|] eqn:Hget.
  - destruct (decide (cs ∈ stop_done s)) as [Hdone|Hnew].
    + eapply IH; [|done]. by eapply head_done.
    + destruct (label_iteration _ _ _) as [s2|e] eqn:Hit; [|done].
      eapply IH; [|done]. by eapply head_labeled.
  - injection H as <-. split; [done|].
    unfold queue_get in Hget. by destruct (stop_queue s).
Qed.

(** Every trip that is the mode of a stop's state has been used. *)
Definition modes_used (s : search) : Prop :=
  forall stop_id state t,
    stop_states s !! stop_id = Some state ->
    STATE_DEPARRMODE state = TRIP t -> t ∈ trips_used s.

Lemma label_stop_modes stop_id state s :
  (forall t, STATE_DEPARRMODE state = TRIP t -> t ∈ trips_used s) ->
  modes_used s -> modes_used (label_stop stop_id state s).
Proof.
  intros Hst Hm k st t Hk Ht. unfold label_stop in Hk. simpl in *.
  destruct (decide (stop_id = k)) as [->|Hne].
  - rewrite lookup_insert_eq in Hk. injection Hk as <-. by apply Hst.
  - rewrite lookup_insert_ne in Hk by done. by eapply Hm.
Qed.

Lemma relax_transfer_modes cl cs cst xfer s :
  modes_used s -> modes_used (relax_transfer cl cs cst xfer s).
Proof.
  intros Hm. unfold relax_transfer. destruct xfer as [xs xt].
  destruct (if outbound path then _ else _) as [latest|].
  - destruct (_ <? _)%Z; [done|].
    destruct (_ <? _)%Z; [by apply label_stop_modes|done].
  - destruct (_ <? _)%Z; [by apply label_stop_modes|done].
Qed.

Lemma update_by_transfer_modes cl cs cst s s' :
  update_by_transfer cl cs cst s = Ok s' -> modes_used s -> modes_used s'.
Proof.
  unfold update_by_transfer. intros H Hm.
  destruct (is_walk_mode _); [by injection H as <-|].
  apply bind_Ok in H as (stop & _ & H). injection H as <-.
  generalize (transfers stop). intros l. revert s Hm.
  induction l as [|x l IH]; intros s Hm; simpl; [done|].
  by apply IH, relax_transfer_modes.
Qed.

Lemma relax_trip_stop_modes cl cs tid arrdep wait seq_num s s' :
  relax_trip_stop cl cs tid arrdep wait seq_num s = Ok s' ->
  tid ∈ trips_used s -> modes_used s -> modes_used s'.
Proof.
  unfold relax_trip_stop. intros H Hin Hm.
  apply bind_Ok in H as (trip & _ & H).
  apply bind_Ok in H as ([[bas arr] dep] & _ & H).
  destruct (_ <? _)%Z; injection H as <-; [|done].
  apply label_stop_modes; [|done]. simpl. by intros t [= <-].
Qed.

Lemma relax_trip_modes cl cs cst valid_trip s s' :
  relax_trip cl cs cst valid_trip s = Ok s' -> modes_used s -> modes_used s'.
Proof.
  destruct valid_trip as [[tid seq] arrdep]. unfold relax_trip. intros H Hm.
  destruct (decide (tid ∈ trips_used s)) as [Hin|Hnin]; [by injection H as <-|].
  destruct (bumped_out _ _ _ _); [by injection H as <-|].
  apply bind_Ok in H as (l & _ & H).
  apply (for_each_inv (fun x => tid ∈ trips_used x /\ modes_used x)) in H;
    [by destruct H| |].
  - intros x a b [Ha Hma] Hr. split.
    + apply relax_trip_stop_grows in Hr as ((_ & _ & Hu) & _). by apply Hu.
    + by eapply relax_trip_stop_modes.
  - simpl. split; [apply elem_of_union_l; by apply elem_of_singleton|].
    intros k st t Hk Ht. simpl in *. apply elem_of_union_r. by eapply Hm.
Qed.

Lemma relax_trips_modes cl cs cst valid_trips s s' :
  for_each (relax_trip cl cs cst) valid_trips s = Ok s' ->
  modes_used s -> modes_used s'.
Proof.
  intros H Hm. apply (for_each_inv modes_used) in H; [done| |done].
  intros x a b Ha Hr. by eapply relax_trip_modes.
Qed.

Lemma seeded_modes s0 : seeded = Ok s0 -> modes_used s0.
Proof.
  unfold seeded. intros H. apply bind_Ok in H as (taz & _ & H). injection H as <-.
  assert (modes_used empty_search) as He.
  { intros k st t Hk. simpl in Hk. by rewrite lookup_empty in Hk. }
  revert He. generalize empty_search. generalize (access_links taz).
  induction l as [|[sid at_] l IH]; intros s Hm; simpl; [done|].
  apply IH. apply label_stop_modes; [|done]. simpl. by destruct (outbound path).
Qed.

Lemma seeded_counters s0 :
  seeded = Ok s0 ->
  label_iterations s0 = 0%Z /\ stop_done s0 = ∅ /\ trips_used s0 = ∅.
Proof.
  unfold seeded. intros H. apply bind_Ok in H as (taz & _ & H). injection H as <-.
  assert (label_iterations empty_search = 0%Z /\ stop_done empty_search = ∅
          /\ trips_used empty_search = ∅) as He by done.
  revert He. generalize empty_search. generalize (access_links taz).
  induction l as [|[sid at_] l IH]; intros s Hm; simpl; [done|].
  by apply IH.
Qed.

(** At the head of the loop: as many label iterations as stops done, and
    every trip that is a mode has been used. *)
Lemma loop_head_inv s :
  loop_head s ->
  label_iterations s = Z.of_nat (size (stop_done s)) /\ modes_used s.
Proof.
  induction 1 as [s0 Hs|s cl cs q' _ [IHn IHm] Hget Hdone
                 |s cl cs q' s' _ [IHn IHm] Hget Hnew Hit].
  - split; [|by apply seeded_modes].
    destruct (seeded_counters _ Hs) as (-> & -> & _). by rewrite size_empty.
  - done.
  - split.
    + apply label_iteration_potential in Hit as (_ & -> & -> & _). simpl.
      rewrite size_union by (apply disjoint_singleton_l; done).
      rewrite size_singleton, IHn. lia.
    + unfold label_iteration in Hit.
      apply bind_Ok in Hit as (cst & _ & Hit).
      apply bind_Ok in Hit as (s1 & H1 & Hit).
      apply bind_Ok in Hit as (s2 & H2 & Hit). injection Hit as <-.
      apply bind_Ok in H2 as (stop & _ & H2).
      apply relax_trips_modes in H2; [done|].
      by eapply update_by_transfer_modes.
Qed.

(** C10. The labeling loop of the deterministic search terminates on every
    schedule: a fuel computed from the seeded state, the stops and the
    trips suffices (and more fuel changes nothing).  A stop already done is
    popped without effect and a label iteration adds a new stop to
    [stop_done], so there are as many label iterations as stops done; a
    trip already used is skipped and an expanded trip is used from then
    on. *)
Theorem labeling_loop_terminates s0 :
  seeded = Ok s0 ->
  let fuel := S (potential s0) in
  ((exists s, labeling_loop fuel s0 = Finished s
              /\ stop_queue s = []
              /\ label_iterations s = Z.of_nat (size (stop_done s)))
   \/ (exists e, labeling_loop fuel s0 = Failed e))
  /\ (forall fuel', (fuel <= fuel')%nat ->
        labeling_loop fuel' s0 = labeling_loop fuel s0)
  /\ (forall n s current_label current_stop_id queue',
        queue_get (stop_queue s) = Some ((current_label, current_stop_id), queue') ->
        current_stop_id ∈ stop_done s ->
        labeling_loop (S n) s = labeling_loop n (set_stop_queue queue' s))
  /\ (forall cl cs cst trip_id seq arrdep s,
        trip_id ∈ trips_used s ->
        relax_trip cl cs cst (trip_id, seq, arrdep) s = Ok s)
  /\ (forall cl cs cst trip_id seq arrdep s s',
        relax_trip cl cs cst (trip_id, seq, arrdep) s = Ok s' ->
        trips_used s ⊆ trips_used s' /\ (s' <> s -> trip_id ∈ trips_used s')).
Proof.
  intros Hs fuel.
  assert (labeling_loop fuel s0 <> OutOfFuel) as Hne
    by (apply labeling_loop_fuel; unfold fuel; lia).
  split; [|split; [|split; [|split]]].
  - destruct (labeling_loop fuel s0) as [s|e|] eqn:Hrun; [left|right; eauto|done].
    exists s. split; [done|].
    destruct (labeling_loop_head fuel s0 s (head_seeded _ Hs) Hrun) as [Hh Hq].
    split; [done|]. by apply loop_head_inv.
  - intros fuel' Hle. by apply labeling_loop_more.
  - intros n s cl cs q' Hget Hdone. simpl. rewrite Hget.
    by rewrite decide_True.
  - intros cl cs cst tid seq arrdep s Hin. unfold relax_trip.
    by rewrite decide_True.
  - intros cl cs cst tid seq arrdep s s' H.
    pose proof (relax_trip_weight _ _ _ _ _ _ H) as ((_ & _ & Hu) & _).
    split; [done|]. intros Hdiff. unfold relax_trip in H.
    destruct (decide (tid ∈ trips_used s)) as [Hin|Hnin];
      [by injection H as <-|].
    destruct (bumped_out _ _ _ _); [by injection H as <-|].
    apply bind_Ok in H as (l & _ & H).
    apply relax_trip_stops_grows in H as ((_ & _ & Hu') & _).
    apply Hu'. simpl. apply elem_of_union_l. by apply elem_of_singleton.
Qed.

(** C5. In the trip relaxation of the deterministic search, a candidate
    trip at the current stop is discarded when the bump-wait table has an
    entry under the checked key -- (current mode, stop) for OUTBOUND,
    (trip_id, stop) for INBOUND -- and the would-be arrival at the stop plus
    the grace of 0.01 minute is at or after the recorded time: the search
    state is left as it is. *)
Theorem bumped_trip_discarded s current_label current_stop_id queue'
    current_stop_state s1 earlier_trips s2 trip_id seq arrdep_time latest_time :
  loop_head s ->
  queue_get (stop_queue s) = Some ((current_label, current_stop_id), queue') ->
  current_stop_id ∉ stop_done s ->
  stop_states s !! current_stop_id = Some current_stop_state ->
  update_by_transfer current_label current_stop_id current_stop_state
    (set_stop_done ({[current_stop_id]} ∪ stop_done s) (set_stop_queue queue' s))
    = Ok s1 ->
  for_each (relax_trip current_label current_stop_id current_stop_state)
    earlier_trips s1 = Ok s2 ->
  bump_wait !! (if outbound path
                then (STATE_DEPARRMODE current_stop_state, current_stop_id)
                else (TRIP trip_id, current_stop_id)) = Some latest_time ->
  (latest_time <= (if outbound path then arrdep_time
                   else STATE_DEPARR current_stop_state) + 600000)%Z ->
  relax_trip current_label current_stop_id current_stop_state
    (trip_id, seq, arrdep_time) s2 = Ok s2.
Proof.
  intros Hh Hget Hnew Hcur H1 H2 Hbw Hle.
  destruct (loop_head_inv _ Hh) as [_ Hm].
  unfold relax_trip.
  destruct (decide (trip_id ∈ trips_used s2)) as [Hin|Hnin]; [done|].
  assert (bumped_out current_stop_id current_stop_state trip_id arrdep_time = true)
    as ->; [|done].
  unfold bumped_out, check_for_bump_wait, arrive_datetime, GRACE.
  rewrite Hbw. apply andb_true_intro. split; [by apply Z.leb_le|].
  apply negb_true_iff, bool_decide_eq_false. intros Hmode.
  apply Hnin.
  pose proof (Hm _ _ _ Hcur Hmode) as Hused.
  apply relax_trips_weight in H2 as ((_ & _ & Hu2) & _). apply Hu2.
  destruct (stops !! current_stop_id) as [stop|] eqn:Hstop.
  - apply (update_by_transfer_grows _ _ _ _ _ _ Hstop) in H1
      as ((_ & _ & Hu1) & _). by apply Hu1.
  - unfold update_by_transfer in H1. rewrite Hmode in H1. simpl in H1.
    unfold getitem in H1. by rewrite Hstop in H1.
Qed.

(** In the deterministic search no transfer is relaxed out of a stop whose
    mode is EGRESS, TRANSFER or ACCESS. *)
Lemma update_by_transfer_walk current_label current_stop_id current_stop_state s :
  is_walk_mode (STATE_DEPARRMODE current_stop_state) = true ->
  update_by_transfer current_label current_stop_id current_stop_state s = Ok s.
Proof. intros H. unfold update_by_transfer. by rewrite H. Qed.

(** *** Further properties: the queue and the labels *)

Lemma entry_le_spec a b :
  entry_le a b = true <-> (a.1 < b.1)%Z \/ (a.1 = b.1 /\ (a.2 <= b.2)%Z).
Proof.
  unfold entry_le.
  rewrite orb_true_iff, andb_true_iff, Z.ltb_lt, Z.eqb_eq, Z.leb_le. done.
Qed.

Lemma queue_min_le x q y : y ∈ x :: q -> entry_le (queue_min x q) y = true.
Proof.
  revert x y. induction q as [|z q IH]; intros x y Hy; simpl.
  - apply list_elem_of_singleton in Hy as ->. apply entry_le_spec. lia.
  - set (m := if entry_le x z then x else z).
    assert (entry_le m x = true /\ entry_le m z = true) as [Hmx Hmz].
    { unfold m. destruct (entry_le x z) eqn:E.
      - split; [apply entry_le_spec; lia|done].
      - split; [|apply entry_le_spec; lia].
        apply entry_le_spec. apply not_true_iff_false in E.
        rewrite entry_le_spec in E. lia. }
    assert (entry_le (queue_min m q) m = true) as Hm
      by (apply IH, elem_of_cons; by left).
    apply elem_of_cons in Hy as [->|Hy]; [|apply elem_of_cons in Hy as [->|Hy]].
    + apply entry_le_spec. apply entry_le_spec in Hm, Hmx. lia.
    + apply entry_le_spec. apply entry_le_spec in Hm, Hmz. lia.
    + apply IH, elem_of_cons. by right.
Qed.

Lemma queue_remove_subset x q y : y ∈ queue_remove x q -> y ∈ q.
Proof.
  induction q as [|z q IH]; simpl; [done|].
  destruct (decide (x = z)); [intros Hy; by apply elem_of_cons; right|].
  intros [->|Hy]%elem_of_cons; apply elem_of_cons; [by left|right; by apply IH].
Qed.

Lemma queue_remove_other x q y : y ∈ q -> y <> x -> y ∈ queue_remove x q.
Proof.
  induction q as [|z q IH]; simpl; [done|]. intros Hy Hne.
  destruct (decide (x = z)) as [<-|].
  - by apply elem_of_cons in Hy as [?|?].
  - apply elem_of_cons in Hy as [->|Hy]; apply elem_of_cons; [by left|].
    right. by apply IH.
Qed.

Lemma queue_get_spec q x q' :
  queue_get q = Some (x, q') ->
  x ∈ q /\ (forall y, y ∈ q -> entry_le x y = true)
  /\ (forall y, y ∈ q' -> y ∈ q) /\ (forall y, y ∈ q -> y <> x -> y ∈ q').
Proof.
  destruct q as [|z q]; [done|]. unfold queue_get. intros [= <- <-].
  split; [apply queue_min_elem|]. split; [apply queue_min_le|].
  split; intros y.
  - apply (queue_remove_subset (queue_min z q) (z :: q)).
  - apply (queue_remove_other (queue_min z q) (z :: q)).
Qed.

(** Every entry of the queue is for a stop that has a state, with a label
    no larger than the entry's; and the label of every stop that is not done
    is on the queue. *)
Definition queue_ok (s : search) : Prop :=
  (forall l k, (l, k) ∈ stop_queue s ->
     exists st, stop_states s !! k = Some st /\ (STATE_LABEL st <= l)%Z)
  /\ (forall k st, stop_states s !! k = Some st -> k ∉ stop_done s ->
        (STATE_LABEL st, k) ∈ stop_queue s).

Lemma label_stop_queue_ok k st s :
  queue_ok s ->
  (stop_states s !! k = None \/ (STATE_LABEL st < old_label s k)%Z) ->
  queue_ok (label_stop k st s).
Proof.
  intros [Hq Hs] Hnew. split.
  - intros l k' Hin. unfold label_stop, queue_put in *. simpl in *.
    apply elem_of_app in Hin as [Hin|Hin].
    + destruct (Hq _ _ Hin) as (st0 & Hst0 & Hle).
      destruct (decide (k = k')) as [<-|Hne].
      * rewrite lookup_insert_eq. exists st. split; [done|].
        destruct Hnew as [Hnone|Hlt]; [congruence|].
        unfold old_label in Hlt. rewrite Hst0 in Hlt. lia.
      * rewrite lookup_insert_ne by done. eauto.
    + apply list_elem_of_singleton in Hin. injection Hin as -> ->.
      rewrite lookup_insert_eq. exists st. split; [done|lia].
  - intros k' st' Hst' Hnd. unfold label_stop, queue_put in *. simpl in *.
    apply elem_of_app. destruct (decide (k = k')) as [<-|Hne].
    + rewrite lookup_insert_eq in Hst'. injection Hst' as <-.
      right. by apply list_elem_of_singleton.
    + rewrite lookup_insert_ne in Hst' by done. left. by apply Hs.
Qed.

Lemma relax_transfer_queue_ok cl cs cst xfer s :
  queue_ok s -> queue_ok (relax_transfer cl cs cst xfer s).
Proof.
  intros Hq. unfold relax_transfer. destruct xfer as [xs xt].
  destruct (if outbound path then _ else _) as [latest|].
  - destruct (_ <? _)%Z; [done|].
    destruct (Z.ltb_spec (cl + xt + (STATE_DEPARR cst - latest) + BUMP_BUFFER)
                (old_label s xs)); [|done].
    apply label_stop_queue_ok; [done|by right].
  - destruct (Z.ltb_spec (cl + xt) (old_label s xs)); [|done].
    apply label_stop_queue_ok; [done|by right].
Qed.

Lemma update_by_transfer_queue_ok cl cs cst s s' :
  update_by_transfer cl cs cst s = Ok s' -> queue_ok s -> queue_ok s'.
Proof.
  unfold update_by_transfer. intros H Hq.
  destruct (is_walk_mode _); [by injection H as <-|].
  apply bind_Ok in H as (stop & _ & H). injection H as <-.
  generalize (transfers stop). intros l. revert s Hq.
  induction l as [|x l IH]; intros s Hq; simpl; [done|].
  by apply IH, relax_transfer_queue_ok.
Qed.

Lemma relax_trip_stop_queue_ok cl cs tid arrdep wait seq_num s s' :
  relax_trip_stop cl cs tid arrdep wait seq_num s = Ok s' ->
  queue_ok s -> queue_ok s'.
Proof.
  unfold relax_trip_stop. intros H Hq.
  apply bind_Ok in H as (trip & _ & H).
  apply bind_Ok in H as ([[bas arr] dep] & _ & H).
  match type of H with
  | (if (?a <? ?b)%Z then _ else _) = _ => destruct (Z.ltb_spec a b)
  end; injection H as <-; [|done].
  apply label_stop_queue_ok; [done|by right].
Qed.

Lemma relax_trip_queue_ok cl cs cst valid_trip s s' :
  relax_trip cl cs cst valid_trip s = Ok s' -> queue_ok s -> queue_ok s'.
Proof.
  destruct valid_trip as [[tid seq] arrdep]. unfold relax_trip. intros H Hq.
  destruct (decide (tid ∈ trips_used s)); [by injection H as <-|].
  destruct (bumped_out _ _ _ _); [by injection H as <-|].
  apply bind_Ok in H as (l & _ & H).
  eapply (for_each_inv queue_ok); [| |exact H]; [|exact Hq].
  intros x a b Ha Hr. by eapply relax_trip_stop_queue_ok.
Qed.

Lemma label_iteration_queue_ok cl cs s s' :
  label_iteration cl cs s = Ok s' -> queue_ok s -> queue_ok s'.
Proof.
  unfold label_iteration. intros H Hq.
  apply bind_Ok in H as (cst & _ & H).
  apply bind_Ok in H as (s1 & H1 & H).
  apply bind_Ok in H as (s2 & H2 & H). injection H as <-.
  assert (queue_ok s2) as Hq2; [|exact Hq2].
  apply bind_Ok in H2 as (stop & _ & H2).
  eapply (for_each_inv queue_ok); [| |exact H2].
  - intros x a b Ha Hr. by eapply relax_trip_queue_ok.
  - by eapply update_by_transfer_queue_ok.
Qed.

Lemma pop_queue_ok s cl cs q' done' :
  queue_ok s ->
  queue_get (stop_queue s) = Some ((cl, cs), q') ->
  stop_done s ⊆ done' -> cs ∈ done' ->
  queue_ok (set_stop_done done' (set_stop_queue q' s)).
Proof.
  intros [Hq Hs] Hget Hsub Hcs.
  apply queue_get_spec in Hget as (_ & _ & Hsubq & Hother).
  split; simpl.
  - intros l k Hin. apply Hq. by apply Hsubq.
  - intros k st Hst Hnd. apply Hother.
    + apply Hs; [done|]. intros Hd. apply Hnd. by apply Hsub.
    + intros [= _ ->]. done.
Qed.

(** The access links of a TAZ are the items of a dict: no stop id twice. *)
Definition links_distinct : Prop :=
  forall taz, tazs !! start_taz_id = Some taz -> NoDup (access_links taz).*1.

Lemma seeded_queue_ok s0 : links_distinct -> seeded = Ok s0 -> queue_ok s0.
Proof.
  unfold seeded. intros Hd H. apply bind_Ok in H as (taz & Ht & H).
  injection H as <-. unfold getitem in Ht.
  destruct (tazs !! start_taz_id) as [taz'|] eqn:E; [|done]. injection Ht as ->.
  specialize (Hd taz E).
  assert (queue_ok empty_search
          /\ forall k, k ∈ (access_links taz).*1 -> stop_states empty_search !! k = None)
    as He.
  { split; [|intros; apply lookup_empty]. split; simpl.
    - intros l k Hin. by apply elem_of_nil in Hin.
    - intros k st Hst. by rewrite lookup_empty in Hst. }
  revert Hd He. generalize empty_search. generalize (access_links taz).
  induction l as [|[sid at_] l IH]; intros s Hd [Hq Hfree]; simpl; [done|].
  simpl in Hd. apply NoDup_cons in Hd as [Hnin Hd].
  apply IH; [done|]. split.
  - apply label_stop_queue_ok; [done|]. left. apply Hfree. simpl.
    apply elem_of_cons. by left.
  - intros k Hk. unfold label_stop. simpl. rewrite lookup_insert_ne.
    + apply Hfree. simpl. apply elem_of_cons. by right.
    + intros <-. done.
Qed.

Lemma loop_head_queue_ok s : links_distinct -> loop_head s -> queue_ok s.
Proof.
  intros Hd. induction 1 as [s0 Hs|s cl cs q' _ IH Hget Hdone
                            |s cl cs q' s' _ IH Hget Hnew Hit].
  - by apply seeded_queue_ok.
  - replace (set_stop_queue q' s)
      with (set_stop_done (stop_done s) (set_stop_queue q' s)) by done.
    by eapply pop_queue_ok.
  - eapply label_iteration_queue_ok; [exact Hit|].
    eapply pop_queue_ok; [done|done|apply union_subseteq_r|].
    apply elem_of_union_l. by apply elem_of_singleton.
Qed.

(** X9. A stop that is popped and processed has a state, and the label it is
    popped with is the label of that state and the smallest label on the
    queue: [stop_states[current_stop_id]] raises no [KeyError], and the
    entries left over by earlier, larger labels of the stop are the ones
    skipped later as done. *)
Theorem popped_stop_has_its_label s current_label current_stop_id queue' :
  links_distinct ->
  loop_head s ->
  queue_get (stop_queue s) = Some ((current_label, current_stop_id), queue') ->
  current_stop_id ∉ stop_done s ->
  exists current_stop_state,
    stop_states s !! current_stop_id = Some current_stop_state
    /\ STATE_LABEL current_stop_state = current_label
    /\ (forall l k, (l, k) ∈ stop_queue s -> (current_label <= l)%Z).
Proof.
  intros Hd Hh Hget Hnew.
  destruct (loop_head_queue_ok s Hd Hh) as [Hq Hs].
  apply queue_get_spec in Hget as (Hin & Hmin & _ & _).
  destruct (Hq _ _ Hin) as (st & Hst & Hle).
  exists st. split; [done|]. split.
  - pose proof (Hmin _ (Hs _ _ Hst Hnew)) as Hm.
    apply entry_le_spec in Hm. simpl in Hm. lia.
  - intros l k Hlk. pose proof (Hmin _ Hlk) as Hm.
    apply entry_le_spec in Hm. simpl in Hm. lia.
Qed.

(** *** Further properties: the labels only improve *)

(** Every state of [s'] is the state [s] has for the stop, or has a label
    below the one [s] has for it ([MAX_TIME] without a state); and [s'] has
    a state wherever [s] has one. *)
Definition improves (s s' : search) : Prop :=
  forall k,
    match stop_states s' !! k with
    | None => stop_states s !! k = None
    | Some st' =>
        stop_states s !! k = Some st' \/ (STATE_LABEL st' < old_label s k)%Z
    end.

Lemma improves_refl s : improves s s.
Proof. intros k. destruct (stop_states s !! k); [by left|done]. Qed.

Lemma improves_old_label s s' k :
  improves s s' -> (old_label s' k <= old_label s k)%Z.
Proof.
  intros H. specialize (H k). unfold old_label in *.
  destruct (stop_states s' !! k) as [st'|].
  - destruct H as [->|H]; [lia|]. lia.
  - rewrite H. lia.
Qed.

Lemma improves_trans s1 s2 s3 : improves s1 s2 -> improves s2 s3 -> improves s1 s3.
Proof.
  intros H12 H23 k. pose proof (improves_old_label _ _ k H12) as Hle.
  specialize (H12 k). specialize (H23 k).
  destruct (stop_states s3 !! k) as [st3|].
  - destruct H23 as [H23|H23]; [by rewrite H23 in H12|]. right. lia.
  - by rewrite H23 in H12.
Qed.

Lemma improves_same s s' : stop_states s' = stop_states s -> improves s s'.
Proof. intros Heq k. rewrite Heq. destruct (stop_states s !! k); [by left|done]. Qed.

Lemma label_stop_improves k st s :
  (STATE_LABEL st < old_label s k)%Z -> improves s (label_stop k st s).
Proof.
  intros Hlt k'. unfold label_stop. simpl.
  destruct (decide (k = k')) as [<-|Hne].
  - rewrite lookup_insert_eq. by right.
  - rewrite lookup_insert_ne by done.
    destruct (stop_states s !! k'); [by left|done].
Qed.

Lemma relax_transfer_improves cl cs cst xfer s :
  improves s (relax_transfer cl cs cst xfer s).
Proof.
  unfold relax_transfer. destruct xfer as [xs xt].
  destruct (if outbound path then _ else _) as [latest|].
  - destruct (_ <? _)%Z; [apply improves_refl|].
    destruct (Z.ltb_spec (cl + xt + (STATE_DEPARR cst - latest) + BUMP_BUFFER)
                (old_label s xs)); [|apply improves_refl].
    by apply label_stop_improves.
  - destruct (Z.ltb_spec (cl + xt) (old_label s xs)); [|apply improves_refl].
    by apply label_stop_improves.
Qed.

Lemma update_by_transfer_improves cl cs cst s s' :
  update_by_transfer cl cs cst s = Ok s' -> improves s s'.
Proof.
  unfold update_by_transfer. intros H.
  destruct (is_walk_mode _); [injection H as <-; apply improves_refl|].
  apply bind_Ok in H as (stop & _ & H). injection H as <-.
  generalize (transfers stop). intros l. generalize s.
  induction l as [|x l IH]; intros s1; simpl; [apply improves_refl|].
  eapply improves_trans; [apply relax_transfer_improves|apply IH].
Qed.

Lemma relax_trip_stop_improves cl cs tid arrdep wait seq_num s s' :
  relax_trip_stop cl cs tid arrdep wait seq_num s = Ok s' -> improves s s'.
Proof.
  unfold relax_trip_stop. intros H.
  apply bind_Ok in H as (trip & _ & H).
  apply bind_Ok in H as ([[bas arr] dep] & _ & H).
  match type of H with
  | (if (?a <? ?b)%Z then _ else _) = _ => destruct (Z.ltb_spec a b)
  end; injection H as <-; [|apply improves_refl].
  by apply label_stop_improves.
Qed.

Lemma for_each_improves {A} (body : A -> search -> result search) l s s' :
  (forall x a b, body x a = Ok b -> improves a b) ->
  for_each body l s = Ok s' -> improves s s'.
Proof.
  intros Hbody H.
  eapply (for_each_inv (improves s)); [|apply improves_refl|exact H].
  intros x a b Ha Hb. eapply improves_trans; [exact Ha|by eapply Hbody].
Qed.

Lemma relax_trip_improves cl cs cst valid_trip s s' :
  relax_trip cl cs cst valid_trip s = Ok s' -> improves s s'.
Proof.
  destruct valid_trip as [[tid seq] arrdep]. unfold relax_trip. intros H.
  destruct (decide (tid ∈ trips_used s)); [injection H as <-; apply improves_refl|].
  destruct (bumped_out _ _ _ _); [injection H as <-; apply improves_refl|].
  apply bind_Ok in H as (l & _ & H).
  apply for_each_improves in H; [|intros x a b; apply relax_trip_stop_improves].
  eapply improves_trans; [|exact H]. by apply improves_same.
Qed.

Lemma label_iteration_improves cl cs s s' :
  label_iteration cl cs s = Ok s' -> improves s s'.
Proof.
  unfold label_iteration. intros H.
  apply bind_Ok in H as (cst & _ & H).
  apply bind_Ok in H as (s1 & H1 & H).
  apply bind_Ok in H as (s2 & H2 & H). injection H as <-.
  apply update_by_transfer_improves in H1.
  apply bind_Ok in H2 as (stop & _ & H2).
  apply for_each_improves in H2; [|intros x a b; apply relax_trip_improves].
  eapply improves_trans; [exact H1|]. eapply improves_trans; [exact H2|].
  by apply improves_same.
Qed.

Lemma labeling_loop_improves fuel s s' :
  labeling_loop fuel s = Finished s' -> improves s s'.
Proof.
  revert s. induction fuel as [|fuel IH]; intros s H; [done|]. simpl in H.
  destruct (queue_get (stop_queue s)) as [[[cl cs] q']|];
    [|injection H as <-; apply improves_refl].
  destruct (decide (cs ∈ stop_done s)).
  - apply IH in H. eapply improves_trans; [|exact H]. by apply improves_same.
  - destruct (label_iteration _ _ _) as [s2|] eqn:Hit; [|done].
    apply IH in H. apply label_iteration_improves in Hit.
    eapply improves_trans; [|exact H]. eapply improves_trans; [|exact Hit].
    by apply improves_same.
Qed.

(** X10. The labeling loop only improves the labels: a stop that has a state
    keeps having one, with a label that is no larger; and every state the loop
    leaves is either the one it found or has a label below the one it found,
    below [MAX_TIME] for a stop it found without a state. *)
Theorem labels_only_improve fuel s s' :
  labeling_loop fuel s = Finished s' ->
  (forall k st, stop_states s !! k = Some st ->
     exists st', stop_states s' !! k = Some st'
                 /\ (STATE_LABEL st' <= STATE_LABEL st)%Z)
  /\ (forall k st', stop_states s' !! k = Some st' ->
        stop_states s !! k = Some st'
        \/ (STATE_LABEL st' < match stop_states s !! k with
                              | Some st => STATE_LABEL st
                              | None => MAX_TIME
                              end)%Z).
Proof.
  intros H. apply labeling_loop_improves in H. split.
  - intros k st Hst. specialize (H k). unfold old_label in H. rewrite Hst in H.
    destruct (stop_states s' !! k) as [st'|]; [|done].
    exists st'. split; [done|]. destruct H as [[= ->]|H]; lia.
  - intros k st' Hst'. specialize (H k). by rewrite Hst' in H.
Qed.

(** *** The end of the search: the end TAZ and the path *)

Definition end_taz_id : Z :=
  if outbound path then origin_taz_id path else destination_taz_id path.

(** [new_taz_state] for an access link of the end TAZ; [None] where the
    loop goes on to the next link without one. *)
Definition new_taz_state (s : search) (link : Z * Z) : option (State Z) :=
  let '(stop_id, access_time) := link in
  match stop_states s !! stop_id with
  | None => None
  | Some stop_state =>
      if is_walk_mode (STATE_DEPARRMODE stop_state) then None
      else
        let new_label := (STATE_LABEL stop_state + access_time)%Z in
        let deparr_time := (STATE_DEPARR stop_state - access_time * dir)%Z in
        let taz_mode := if outbound path then ACCESS else EGRESS in
        match (if outbound path
               then bump_wait !! (STATE_DEPARRMODE stop_state, stop_id)
               else None) with
        | Some latest_time =>
            if (latest_time <? deparr_time - PATH_TIME_WINDOW)%Z then None
            else Some (mkState
                         (new_label + (STATE_DEPARR stop_state - latest_time)
                          + BUMP_BUFFER)%Z
                         (latest_time - access_time - BUMP_BUFFER)%Z
                         taz_mode stop_id access_time None)
        | None =>
            Some (mkState new_label deparr_time taz_mode stop_id access_time None)
        end
  end.

(** The label of [taz_state]; [None] is the initial
    [(MAX_TIME, 0, "", 0)]. *)
Definition taz_label (taz_state : option (State Z)) : Z :=
  match taz_state with
  | Some state => STATE_LABEL state
  | None => MAX_TIME
  end.

(** The body of the loop over the access links of the end TAZ. *)
Definition end_link (s : search) (taz_state : option (State Z)) (link : Z * Z)
  : option (State Z) :=
  match new_taz_state s link with
  | None => taz_state
  | Some new =>
      if (STATE_LABEL new <? taz_label taz_state)%Z then Some new else taz_state
  end.

Definition end_taz_state (s : search) (links : list (Z * Z)) : option (State Z) :=
  fold_left (end_link s) links None.

Definition final_state_type : mode := if outbound path then EGRESS else ACCESS.

(** [while stop_state[Path.STATE_IDX_DEPARRMODE] != final_state_type], run
    for at most [fuel] passes, on the states of the path. *)
Fixpoint trace (s : search) (fuel : nat) (stop_state : State Z)
    (states : list (Z * State Z)) : result (list (Z * State Z)) :=
  match fuel with
  | O => Raise FuelExhausted
  | S fuel' =>
      if bool_decide (STATE_DEPARRMODE stop_state = final_state_type) then Ok states
      else
        let stop_id := STATE_SUCCPRED stop_state in
        stop_state' ← getitem (stop_states s) stop_id;
        trace s fuel' stop_state' (states_set stop_id stop_state' states)
  end.

(** "Put results into path": the states of the path after the search. *)
Definition path_states (s : search) (fuel : nat) (taz_state : option (State Z))
  : result (list (Z * State Z)) :=
  match taz_state with
  | None => Ok []
  | Some state =>
      states ← trace s fuel state (states_set end_taz_id state []);
      if negb (outbound path) && (2 <=? Z.of_nat (length states))%Z
      then Departure.delay_inbound_path_departure trips BUMP_BUFFER bump_wait
             (preferred_time path) states
      else Ok states
  end.

(** [find_trip_based_shortest_path(FT, path, trace)]: the number of label
    iterations and the states of the path. *)
Definition find_trip_based_shortest_path (fuel : nat)
  : result (Z * list (Z * State Z)) :=
  s0 ← seeded;
  match labeling_loop fuel s0 with
  | OutOfFuel => Raise FuelExhausted
  | Failed e => Raise e
  | Finished s =>
      taz ← getitem tazs end_taz_id;
      states ← path_states s fuel (end_taz_state s (access_links taz));
      Ok (label_iterations s, states)
  end.

Lemma end_fold_spec s links acc :
  let r := fold_left (end_link s) links acc in
  (taz_label r <= taz_label acc)%Z
  /\ (forall link c, link ∈ links -> new_taz_state s link = Some c ->
        (taz_label r <= STATE_LABEL c)%Z)
  /\ (r = acc
      \/ exists link c, link ∈ links /\ new_taz_state s link = Some c
                        /\ r = Some c /\ (STATE_LABEL c < taz_label acc)%Z).
Proof.
  revert acc. induction links as [|link links IH]; intros acc; simpl.
  - split; [lia|]. split; [|by left]. intros link c Hin. by apply elem_of_nil in Hin.
  - specialize (IH (end_link s acc link)). simpl in IH.
    destruct IH as (Hle & Hall & Hfrom).
    assert ((taz_label (end_link s acc link) <= taz_label acc)%Z
            /\ (forall c, new_taz_state s link = Some c ->
                  (taz_label (end_link s acc link) <= STATE_LABEL c)%Z)
            /\ (end_link s acc link = acc
                \/ exists c, new_taz_state s link = Some c
                             /\ end_link s acc link = Some c
                             /\ (STATE_LABEL c < taz_label acc)%Z))
      as (Hle1 & Hc1 & Hfrom1).
    { unfold end_link. destruct (new_taz_state s link) as [new|].
      - destruct (Z.ltb_spec (STATE_LABEL new) (taz_label acc)).
        + split; [simpl; lia|]. split; [by intros c [= <-]|]. right. eauto.
        + split; [lia|]. split; [intros c [= <-]; lia|by left].
      - split; [lia|]. split; [done|by left]. }
    split; [lia|]. split.
    + intros l c [->|Hin]%elem_of_cons Hc; [|by eapply Hall].
      specialize (Hc1 _ Hc). lia.
    + destruct Hfrom as [->|(l & c & Hin & Hc & -> & Hlt)].
      * destruct Hfrom1 as [->|(c & Hc & -> & Hlt)]; [by left|].
        right. exists link, c. split; [apply elem_of_cons; by left|done].
      * right. exists l, c. split; [apply elem_of_cons; by right|].
        split; [done|]. split; [done|]. lia.
Qed.

Lemma end_taz_state_none s links :
  (forall link, link ∈ links -> new_taz_state s link = None) ->
  end_taz_state s links = None.
Proof.
  unfold end_taz_state. induction links as [|link links IH]; intros H; [done|].
  simpl. unfold end_link at 2. rewrite (H link) by (apply elem_of_cons; by left).
  apply IH. intros l Hl. apply H, elem_of_cons. by right.
Qed.

(** X11. The state chosen for the end TAZ is one of the states its access
    links give, the cheapest of them, and has a label below [MAX_TIME]; none
    is chosen when none of them has a label below [MAX_TIME]. *)
Theorem end_taz_state_is_cheapest s links :
  match end_taz_state s links with
  | Some state =>
      (exists link, link ∈ links /\ new_taz_state s link = Some state)
      /\ (STATE_LABEL state < MAX_TIME)%Z
      /\ (forall link c, link ∈ links -> new_taz_state s link = Some c ->
            (STATE_LABEL state <= STATE_LABEL c)%Z)
  | None =>
      forall link c, link ∈ links -> new_taz_state s link = Some c ->
        (MAX_TIME <= STATE_LABEL c)%Z
  end.
Proof.
  unfold end_taz_state.
  destruct (end_fold_spec s links None) as (Hle & Hall & Hfrom). simpl in *.
  destruct (fold_left (end_link s) links None) as [state|].
  - destruct Hfrom as [?|(l & c & Hin & Hc & [= ->] & Hlt)]; [done|].
    split; [eauto|]. split; [done|]. exact Hall.
  - exact Hall.
Qed.

(** X12. When no stop of the end TAZ has been labelled by a trip, the search
    returns with a path without states, whatever states the path had. *)
Theorem no_trip_no_path fuel s0 s taz :
  seeded = Ok s0 ->
  labeling_loop fuel s0 = Finished s ->
  tazs !! end_taz_id = Some taz ->
  (forall stop_id access_time stop_state,
     (stop_id, access_time) ∈ access_links taz ->
     stop_states s !! stop_id = Some stop_state ->
     is_walk_mode (STATE_DEPARRMODE stop_state) = true) ->
  find_trip_based_shortest_path fuel = Ok (label_iterations s, []).
Proof.
  intros Hs Hrun Htaz Hwalk. unfold find_trip_based_shortest_path.
  rewrite Hs. simpl. rewrite Hrun. unfold getitem. rewrite Htaz. simpl.
  assert (end_taz_state s (access_links taz) = None) as ->; [|done].
  pose proof (end_taz_state_none s (access_links taz)) as Hn. apply Hn.
  intros [stop_id access_time] Hin. unfold new_taz_state.
  destruct (stop_states s !! stop_id) as [st|] eqn:E; [|done].
  by rewrite (Hwalk _ _ _ Hin E).
Qed.

End search.

End ShortestPath.

(** *** A worked search: an INBOUND request past a bump

    The passenger leaves TAZ 100 at 07:25 and reaches stop 10, five minutes
    away, at 07:30.  Trips 7 (07:35) and 9 (07:40) leave stop 10 for stop 20.
    A passenger bumped off trip 7 at stop 10 had been waiting there since
    07:29. *)

Module ExampleSearch.

Import Example.

Definition departing (l : list (Z * Z * Z)) (t window : Z) : list (Z * Z * Z) :=
  filter (fun x => (t <= x.2 <= t + window)%Z) l.

Definition stop10 : Stop :=
  mkStop [] true (fun _ _ => [])
    (departing [(7%Z, 1%Z, hm 7 35); (9%Z, 1%Z, hm 7 40)]).
Definition stop20 : Stop :=
  mkStop [] true (fun _ _ => []) (departing []).

Definition tazs : gmap Z TAZ :=
  <[100%Z := mkTAZ [(10%Z, minutes 5)]]> (<[200%Z := mkTAZ [(20%Z, minutes 5)]]> ∅).
Definition stops : gmap Z Stop := <[10%Z := stop10]> (<[20%Z := stop20]> ∅).
Definition trips : gmap Z Trip :=
  <[7%Z := mkTrip [(10%Z, hm 7 35, hm 7 35); (20%Z, hm 7 50, hm 7 50)] 1]>
    (<[9%Z := mkTrip [(10%Z, hm 7 40, hm 7 40); (20%Z, hm 7 55, hm 7 55)] 1]> ∅).

Definition bump_wait : bump_wait_table := <[(TRIP 7, 10%Z) := hm 7 29]> ∅.

Definition request : Path Z := mkPath 100 200 (hm 7 25) INBOUND [].

Definition window : Z := minutes 30.

Definition seeds : ShortestPath.search :=
  ok_or ShortestPath.empty_search (ShortestPath.seeded tazs request).

Lemma seeds_seeded : ShortestPath.seeded tazs request = Ok seeds.
Proof. vm_compute. reflexivity. Qed.

Definition access_state : State Z :=
  mkState (minutes 5) (hm 7 30) ACCESS 100 (minutes 5) None.

(** The same network searched OUTBOUND, for an arrival at TAZ 200 by 08:00:
    trip 7 reaches stop 20 at 07:50, trip 5 reaches stop 10 at 07:32, and a
    passenger bumped off trip 7 at stop 10 had been waiting since 07:30. *)
Definition arriving (l : list (Z * Z * Z)) (t window : Z) : list (Z * Z * Z) :=
  filter (fun x => (t - window <= x.2 <= t)%Z) l.

Definition out_stops : gmap Z Stop :=
  <[20%Z := mkStop [] true (arriving [(7%Z, 2%Z, hm 7 50)]) (fun _ _ => [])]>
    (<[10%Z := mkStop [] true (arriving [(5%Z, 2%Z, hm 7 32)]) (fun _ _ => [])]> ∅).

Definition out_trips : gmap Z Trip :=
  <[7%Z := mkTrip [(10%Z, hm 7 35, hm 7 35); (20%Z, hm 7 50, hm 7 50)] 1]>
    (<[5%Z := mkTrip [(5%Z, hm 7 10, hm 7 10); (10%Z, hm 7 32, hm 7 32)] 1]> ∅).

Definition out_bump_wait : bump_wait_table := <[(TRIP 7, 10%Z) := hm 7 30]> ∅.

Definition out_request : Path Z := mkPath 100 200 (hm 8 0) OUTBOUND [].

Definition out_seeds : ShortestPath.search :=
  ok_or ShortestPath.empty_search (ShortestPath.seeded tazs out_request).

Lemma out_seeds_seeded : ShortestPath.seeded tazs out_request = Ok out_seeds.
Proof. vm_compute. reflexivity. Qed.

(** The state after the label iteration of stop 20, which labels stop 10
    with trip 7. *)
Definition out_labelled : ShortestPath.search :=
  ok_or out_seeds
    (ShortestPath.label_iteration out_stops out_trips window (minutes 5)
       out_bump_wait out_request (minutes 5) 20
       (ShortestPath.set_stop_done ({[20%Z]} ∪ ShortestPath.stop_done out_seeds)
          (ShortestPath.set_stop_queue [] out_seeds))).

Lemma out_labelled_head :
  ShortestPath.loop_head tazs out_stops out_trips window (minutes 5)
    out_bump_wait out_request out_labelled.
Proof.
  apply (ShortestPath.head_labeled tazs out_stops out_trips window (minutes 5)
           out_bump_wait out_request out_seeds (minutes 5) 20%Z []).
  - apply ShortestPath.head_seeded, out_seeds_seeded.
  - vm_compute. reflexivity.
  - apply (bool_decide_unpack _). vm_compute. exact I.
  - vm_compute. reflexivity.
Qed.

Definition trip7_state : State Z :=
  mkState (minutes 25) (hm 7 35) (TRIP 7) 20 (minutes 20) None.

Definition out_popped : ShortestPath.search :=
  ShortestPath.set_stop_done ({[10%Z]} ∪ ShortestPath.stop_done out_labelled)
    (ShortestPath.set_stop_queue [] out_labelled).

Definition popped : ShortestPath.search :=
  ShortestPath.set_stop_done ({[10%Z]} ∪ ShortestPath.stop_done seeds)
    (ShortestPath.set_stop_queue [] seeds).

Example search_result :
  exists s,
    ShortestPath.labeling_loop stops trips window (minutes 5) bump_wait request
      12 seeds = ShortestPath.Finished s
    /\ ShortestPath.stop_states s !! 20%Z
       = Some (mkState (minutes 30) (hm 7 55) (TRIP 9) 10 (minutes 25) None)
    /\ ShortestPath.label_iterations s = 2%Z.
Proof. eexists. split; [vm_compute; reflexivity|]. vm_compute. done. Qed.

End ExampleSearch.

(** In the worked search the labeling loop ends within the computed fuel of
    12 passes, and 20 passes give the same result. *)
Lemma labeling_loop_terminates_witness :
  ShortestPath.labeling_loop ExampleSearch.stops ExampleSearch.trips
    ExampleSearch.window (Example.minutes 5) ExampleSearch.bump_wait
    ExampleSearch.request 20 ExampleSearch.seeds
  = ShortestPath.labeling_loop ExampleSearch.stops ExampleSearch.trips
      ExampleSearch.window (Example.minutes 5) ExampleSearch.bump_wait
      ExampleSearch.request 12 ExampleSearch.seeds.
Proof.
  destruct (ShortestPath.labeling_loop_terminates ExampleSearch.tazs
              ExampleSearch.stops ExampleSearch.trips ExampleSearch.window
              (Example.minutes 5) ExampleSearch.bump_wait ExampleSearch.request
              ExampleSearch.seeds ExampleSearch.seeds_seeded)
    as (_ & Hmore & _).
  apply (Hmore 20%nat). vm_compute. lia.
Defined.

(** In the worked searches the candidate trip is discarded at stop 10.
    INBOUND, trip 7 under the key (trip 7, stop 10): the passenger would
    arrive at 07:30, after the bumped passenger's 07:29.  OUTBOUND, trip 5
    under the key (current mode trip 7, stop 10): trip 5 arrives at 07:32,
    after the bumped passenger's 07:30. *)
Lemma bumped_trip_discarded_witness :
  ShortestPath.relax_trip ExampleSearch.trips ExampleSearch.bump_wait
    ExampleSearch.request (Example.minutes 5) 10 ExampleSearch.access_state
    (7%Z, 1%Z, Example.hm 7 35) ExampleSearch.popped
  = Ok ExampleSearch.popped
  /\ ShortestPath.relax_trip ExampleSearch.out_trips ExampleSearch.out_bump_wait
       ExampleSearch.out_request (Example.minutes 25) 10 ExampleSearch.trip7_state
       (5%Z, 2%Z, Example.hm 7 32) ExampleSearch.out_popped
     = Ok ExampleSearch.out_popped.
Proof.
  split.
  - apply (ShortestPath.bumped_trip_discarded ExampleSearch.tazs
             ExampleSearch.stops ExampleSearch.trips ExampleSearch.window
             (Example.minutes 5) ExampleSearch.bump_wait ExampleSearch.request
             ExampleSearch.seeds (Example.minutes 5) 10%Z []
             ExampleSearch.access_state ExampleSearch.popped []
             ExampleSearch.popped 7%Z 1%Z (Example.hm 7 35) (Example.hm 7 29)).
    + apply ShortestPath.head_seeded, ExampleSearch.seeds_seeded.
    + vm_compute. reflexivity.
    + apply (bool_decide_unpack _). vm_compute. exact I.
    + vm_compute. reflexivity.
    + vm_compute. reflexivity.
    + reflexivity.
    + vm_compute. reflexivity.
    + vm_compute. discriminate.
  - apply (ShortestPath.bumped_trip_discarded ExampleSearch.tazs
             ExampleSearch.out_stops ExampleSearch.out_trips ExampleSearch.window
             (Example.minutes 5) ExampleSearch.out_bump_wait
             ExampleSearch.out_request ExampleSearch.out_labelled
             (Example.minutes 25) 10%Z [] ExampleSearch.trip7_state
             ExampleSearch.out_popped [] ExampleSearch.out_popped 5%Z 2%Z
             (Example.hm 7 32) (Example.hm 7 30)).
    + apply ExampleSearch.out_labelled_head.
    + vm_compute. reflexivity.
    + apply (bool_decide_unpack _). vm_compute. exact I.
    + vm_compute. reflexivity.
    + vm_compute. reflexivity.
    + reflexivity.
    + vm_compute. reflexivity.
    + vm_compute. discriminate.
Defined.

(** ** The stochastic search: [Assignment.find_trip_based_hyperpath] *)

Module Hyperpath.

(** [MAX_COST = 999999] *)
Definition MAX_COST : R := 999999.

(** [MAX_DATETIME]: the start of [TODAY] plus 48 hours. *)
Definition MAX_DATETIME : Z := 172800000000.

(** [MAX_HYPERPATH_ASSIGN_ATTEMPTS = 1001] *)
Definition MAX_HYPERPATH_ASSIGN_ATTEMPTS : Z := 1001.

(** [t.total_seconds()/60.0] *)
Definition total_minutes (t : Z) : R := (IZR t / 60000000)%R.

(** [int(x)]: truncation towards zero. *)
Definition py_int (x : R) : Z :=
  if Rle_dec 0 x then Int_part x else (- Int_part (- x))%Z.

(** [state[Path.STATE_IDX_COST]] and [state[Path.STATE_IDX_ARRIVAL]]: the
    sixth and seventh elements, which only hyperpath states have. *)
Definition STATE_COST (state : State R) : result R :=
  match STATE_HYPER state with
  | Some (cost, _) => Ok cost
  | None => Raise IndexError
  end.

Definition STATE_ARRIVAL (state : State R) : result Z :=
  match STATE_HYPER state with
  | Some (_, arrival) => Ok arrival
  | None => Raise IndexError
  end.

(** The priority queue of [(label, stop_id)] tuples. *)
Definition entry_le (a b : R * Z) : bool :=
  if Rlt_dec a.1 b.1 then true
  else if Req_dec_T a.1 b.1 then (a.2 <=? b.2)%Z
  else false.

Fixpoint queue_min (x : R * Z) (q : list (R * Z)) : R * Z :=
  match q with
  | [] => x
  | y :: q' => queue_min (if entry_le x y then x else y) q'
  end.

Definition entry_eqb (a b : R * Z) : bool :=
  (if Req_dec_T a.1 b.1 then true else false) && (a.2 =? b.2)%Z.

Fixpoint queue_remove (x : R * Z) (q : list (R * Z)) : list (R * Z) :=
  match q with
  | [] => []
  | y :: q' => if entry_eqb x y then q' else y :: queue_remove x q'
  end.

Definition queue_get (q : list (R * Z)) : option (R * Z * list (R * Z)) :=
  match q with
  | [] => None
  | x :: q' => let m := queue_min x q' in Some (m, queue_remove m q)
  end.

Definition queue_put (x : R * Z) (q : list (R * Z)) : list (R * Z) := q ++ [x].

(** The local variables of the search; [stop_states] is a
    [collections.defaultdict(list)]. *)
Record search : Type := mkSearch {
  stop_states : gmap Z (list (State R));   (* stop_id -> list of states *)
  stop_queue : list (R * Z);                (* (label, stop_id) *)
  stop_done : gset Z;                       (* stop ids *)
  trips_used : gset Z;                      (* trip ids *)
  label_iterations : Z
}.

Definition set_stop_states (v : gmap Z (list (State R))) (s : search) : search :=
  {| stop_states := v; stop_queue := stop_queue s; stop_done := stop_done s;
     trips_used := trips_used s; label_iterations := label_iterations s |}.

Definition set_stop_queue (v : list (R * Z)) (s : search) : search :=
  {| stop_states := stop_states s; stop_queue := v; stop_done := stop_done s;
     trips_used := trips_used s; label_iterations := label_iterations s |}.

Definition set_stop_done (v : gset Z) (s : search) : search :=
  {| stop_states := stop_states s; stop_queue := stop_queue s; stop_done := v;
     trips_used := trips_used s; label_iterations := label_iterations s |}.

Definition set_trips_used (v : gset Z) (s : search) : search :=
  {| stop_states := stop_states s; stop_queue := stop_queue s;
     stop_done := stop_done s; trips_used := v;
     label_iterations := label_iterations s |}.

Definition set_label_iterations (v : Z) (s : search) : search :=
  {| stop_states := stop_states s; stop_queue := stop_queue s;
     stop_done := stop_done s; trips_used := trips_used s;
     label_iterations := v |}.

Definition set_deparr (v : Z) (state : State R) : State R :=
  mkState (STATE_LABEL state) v (STATE_DEPARRMODE state) (STATE_SUCCPRED state)
    (STATE_LINKTIME state) (STATE_HYPER state).

Definition set_linktime (v : Z) (state : State R) : State R :=
  mkState (STATE_LABEL state) (STATE_DEPARR state) (STATE_DEPARRMODE state)
    (STATE_SUCCPRED state) v (STATE_HYPER state).

Section search.
(** [FT.tazs], [FT.stops], [FT.trips] *)
Variable tazs : gmap Z TAZ.
Variable stops : gmap Z Stop.
Variable trips : gmap Z Trip.
Variable PATH_TIME_WINDOW : Z.
Variable BUMP_BUFFER : Z.
Variable DISPERSION_PARAMETER : R.
(** The cost coefficients of the [Path] class. *)
Variable WALK_ACCESS_TIME_WEIGHT : R.
Variable WALK_EGRESS_TIME_WEIGHT : R.
Variable WALK_TRANSFER_TIME_WEIGHT : R.
Variable WAIT_TIME_WEIGHT : R.
Variable SCHEDULE_DELAY_WEIGHT : R.
Variable FARE_PER_BOARDING : R.
Variable VALUE_OF_TIME : R.
Variable TRANSFER_PENALTY : R.
(** [Assignment.bump_wait], read only during a search. *)
Variable bump_wait : bump_wait_table.
(** The direction, TAZs and preferred time of the path being searched. *)
Variable direction_ : direction.
Variable origin_taz : Z.
Variable destination_taz : Z.
Variable preferred : Z.

Definition is_outbound : bool := bool_decide (direction_ = OUTBOUND).
Definition dir : Z := dir_factor direction_.
Definition start_taz_id : Z := if is_outbound then destination_taz else origin_taz.

(** [math.exp(-1.0*Assignment.DISPERSION_PARAMETER*x)], over the reals.
    The floats of the program are idealised: [math.exp] rounds, returns
    [0.0] below about -745 and raises [OverflowError] above about 709; none
    of this is in the model. *)
Definition weight (x : R) : R := exp (-1 * DISPERSION_PARAMETER * x).

(** [max(0.01, -1.0/Assignment.DISPERSION_PARAMETER*math.log(x))]; the
    division raises on a zero dispersion parameter.  [math.log] is the
    logarithm of the reals: the [ValueError] of [math.log(0.0)], which the
    program meets when the exponentials have underflowed, is not in the
    model. *)
Definition floor_log (x : R) : result R :=
  if Req_dec_T DISPERSION_PARAMETER 0 then Raise ZeroDivisionError
  else Ok (Rmax (1 / 100) (-1 / DISPERSION_PARAMETER * ln x)).

(** The label of a stop that has states and receives a state of cost [cost]:
    the log-sum of the last stored label and the cost, over the reals as
    [weight] and [floor_log] are. *)
Definition logsum (old_label cost : R) : result R :=
  floor_log (weight old_label + weight cost).

(** [new_label]: the cost itself for a stop without states, otherwise the
    log-sum with the label of the last state of the stop. *)
Definition new_label_at (s : search) (stop_id : Z) (cost : R) : result R :=
  match stop_states s !! stop_id with
  | None => Ok cost
  | Some state_list =>
      last_state ← py_last state_list;
      logsum (STATE_LABEL last_state) cost
  end.

(** [if new_label < MAX_COST and new_label > 0:
       stop_states[stop_id].append(state); stop_queue.put((new_label, stop_id))] *)
Definition add_state (stop_id : Z) (state : State R) (s : search) : search :=
  if Rlt_dec (STATE_LABEL state) MAX_COST then
    if Rgt_dec (STATE_LABEL state) 0 then
      set_stop_queue (queue_put (STATE_LABEL state, stop_id) (stop_queue s))
        (set_stop_states (append_at (stop_states s) stop_id state) s)
    else s
  else s.

(** The body of the loop over the access links of the start TAZ. *)
Definition seed_link (link : Z * Z) (s : search) : search :=
  let '(stop_id, access_time) := link in
  let deparr_time := (preferred - access_time * dir)%Z in
  let cost :=
    (1 + (if is_outbound then WALK_EGRESS_TIME_WEIGHT else WALK_ACCESS_TIME_WEIGHT)
         * total_minutes access_time)%R in
  set_stop_queue (queue_put (cost, stop_id) (stop_queue s))
    (set_stop_states
       (append_at (stop_states s) stop_id
          (mkState cost deparr_time (if is_outbound then EGRESS else ACCESS)
             start_taz_id access_time (Some (cost, MAX_DATETIME))))
       s).

Definition empty_search : search :=
  {| stop_states := ∅; stop_queue := []; stop_done := ∅; trips_used := ∅;
     label_iterations := 0 |}.

Definition seeded : result search :=
  taz ← getitem tazs start_taz_id;
  Ok (fold_left (fun s link => seed_link link s) (access_links taz) empty_search).

(** [calculate_nonwalk_label(state_list, not_found_value)], over the reals
    as [weight] is: in the program the sum can be [0.0] with trip states in
    the list, when their exponentials underflow. *)
Fixpoint nonwalk_sum (state_list : list (State R)) (acc : R) : result R :=
  match state_list with
  | [] => Ok acc
  | state :: rest =>
      if is_walk_mode (STATE_DEPARRMODE state) then nonwalk_sum rest acc
      else cost ← STATE_COST state; nonwalk_sum rest (acc + weight cost)%R
  end.

Definition calculate_nonwalk_label (state_list : list (State R))
    (not_found_value : R) : result R :=
  nonwalk_label ← nonwalk_sum state_list 0%R;
  if Req_dec_T nonwalk_label 0 then Ok not_found_value
  else if Req_dec_T DISPERSION_PARAMETER 0 then Raise ZeroDivisionError
  else Ok (-1 / DISPERSION_PARAMETER * ln nonwalk_label)%R.

(** The latest departure (outbound) or earliest arrival (inbound) over the
    states of the current stop. *)
Definition latest_dep_earliest_arr (first : State R) (rest : list (State R)) : Z :=
  fold_left
    (fun acc state =>
       if is_outbound then Z.max acc (STATE_DEPARR state)
       else Z.min acc (STATE_DEPARR state))
    rest (STATE_DEPARR first).

(** The body of the loop over the transfers of the current stop. *)
Definition relax_transfer (current_stop_id : Z) (nonwalk_label : R)
    (latest_earliest : Z) (xfer : Z * Z) (s : search) : result search :=
  let '(xfer_stop_id, transfer_time) := xfer in
  let deparr_time := (latest_earliest - transfer_time * dir)%Z in
  let cost :=
    (nonwalk_label + WALK_TRANSFER_TIME_WEIGHT * total_minutes transfer_time)%R in
  new_label ← new_label_at s xfer_stop_id cost;
  Ok (add_state xfer_stop_id
        (mkState new_label deparr_time TRANSFER current_stop_id transfer_time
           (Some (cost, MAX_DATETIME))) s).

(** "Update by transfer": unless the mode of the first state of the current
    stop is EGRESS or ACCESS. *)
Definition update_by_transfer (current_stop_id : Z)
    (current_stop_state : list (State R)) (current_mode : mode)
    (latest_earliest : Z) (s : search) : result search :=
  if is_access_egress current_mode then Ok s
  else
    nonwalk_label ← calculate_nonwalk_label current_stop_state MAX_COST;
    stop ← getitem stops current_stop_id;
    for_each (relax_transfer current_stop_id nonwalk_label latest_earliest)
      (transfers stop) s.

(** The body of the loop over the stops of a valid trip. *)
Definition relax_trip_stop (current_label : R) (current_stop_id : Z)
    (current_mode : mode) (trip_id arrdep_datetime wait_time : Z)
    (seq_num : Z) (s : search) : result search :=
  trip ← getitem trips trip_id;
  possible_board_alight ← py_index (trip_stops trip) (seq_num - 1);
  let '(board_alight_stop, arrival_time, departure_time) := possible_board_alight in
  new_mode ←
    match stop_states s !! board_alight_stop with
    | Some state_list => first ← py_index state_list 0;
                         Ok (Some (STATE_DEPARRMODE first))
    | None => Ok None
    end;
  if match new_mode with Some m => is_access_egress m | None => false end
  then Ok s
  else
    let deparr_time := if is_outbound then departure_time else arrival_time in
    let in_vehicle_time := ((arrdep_datetime - deparr_time) * dir)%Z in
    fare ← (if Req_dec_T VALUE_OF_TIME 0 then Raise ZeroDivisionError
            else Ok (FARE_PER_BOARDING * 60 / VALUE_OF_TIME)%R);
    let cost :=
      (if is_access_egress current_mode
       then current_label + total_minutes in_vehicle_time
            + SCHEDULE_DELAY_WEIGHT * total_minutes wait_time + fare
       else current_label + total_minutes in_vehicle_time
            + WAIT_TIME_WEIGHT * total_minutes wait_time + fare
            + TRANSFER_PENALTY)%R in
    new_label ← new_label_at s board_alight_stop cost;
    Ok (add_state board_alight_stop
          (mkState new_label deparr_time (TRIP trip_id) current_stop_id
             (in_vehicle_time + wait_time)%Z (Some (cost, arrdep_datetime))) s).

(** The body of the loop over the valid trips. *)
Definition relax_trip (current_label : R) (current_stop_id : Z)
    (current_mode : mode) (latest_earliest : Z) (valid_trip : Z * Z * Z)
    (s : search) : result search :=
  let '(trip_id, seq, arrdep_time) := valid_trip in
  if decide (trip_id ∈ trips_used s) then Ok s
  else
    let s1 := set_trips_used ({[trip_id]} ∪ trips_used s) s in
    let arrdep_datetime := arrdep_time in
    let wait_time := ((latest_earliest - arrdep_datetime) * dir)%Z in
    trip_seq_list ←
      (if is_outbound then Ok (py_range 1 seq)
       else trip ← getitem trips trip_id;
            Ok (py_range (seq + 1) (Z.of_nat (number_of_stops trip) + 1)));
    for_each
      (relax_trip_stop current_label current_stop_id current_mode trip_id
         arrdep_datetime wait_time)
      trip_seq_list s1.

(** "Update by trips". *)
Definition update_by_trips (current_label : R) (current_stop_id : Z)
    (current_mode : mode) (latest_earliest : Z) (s : search) : result search :=
  stop ← getitem stops current_stop_id;
  let valid_trips :=
    if is_outbound
    then get_trips_arriving_within_time stop latest_earliest PATH_TIME_WINDOW
    else get_trips_departing_within_time stop latest_earliest PATH_TIME_WINDOW in
  for_each (relax_trip current_label current_stop_id current_mode latest_earliest)
    valid_trips s.

(** One label iteration: the body of the labeling loop for a stop that is
    not done, is a transfer stop, and has just been added to [stop_done]. *)
Definition label_iteration (current_label : R) (current_stop_id : Z) (s : search)
  : result search :=
  let current_stop_state := getlist (stop_states s) current_stop_id in
  first ← py_index current_stop_state 0;
  let current_mode := STATE_DEPARRMODE first in
  let latest_earliest := latest_dep_earliest_arr first (tail current_stop_state) in
  s1 ← update_by_transfer current_stop_id current_stop_state current_mode
         latest_earliest s;
  s2 ← update_by_trips current_label current_stop_id current_mode
         latest_earliest s1;
  Ok (set_label_iterations (label_iterations s2 + 1)%Z s2).

(** How the labeling loop ends. *)
Inductive outcome : Type :=
  | Finished (s : search)
  | Failed (e : exn)
  | OutOfFuel.

(** The labeling loop, run for at most [fuel] passes. *)
Fixpoint labeling_loop (fuel : nat) (s : search) : outcome :=
  match fuel with
  | O => OutOfFuel
  | S fuel' =>
      match queue_get (stop_queue s) with
      | None => Finished s
      | Some ((current_label, current_stop_id), queue') =>
          let s1 := set_stop_queue queue' s in
          if decide (current_stop_id ∈ stop_done s) then labeling_loop fuel' s1
          else
            match getitem stops current_stop_id with
            | Raise e => Failed e
            | Ok stop =>
                if negb (is_transfer stop) then labeling_loop fuel' s1
                else
                  match label_iteration current_label current_stop_id
                          (set_stop_done ({[current_stop_id]} ∪ stop_done s) s1) with
                  | Ok s2 => labeling_loop fuel' s2
                  | Raise e => Failed e
                  end
            end
      end
  end.

(** The states in which the test of the [while] of the labeling loop is
    reached. *)
Inductive loop_head : search -> Prop :=
  | head_seeded s0 : seeded = Ok s0 -> loop_head s0
  | head_done s current_label current_stop_id queue' :
      loop_head s ->
      queue_get (stop_queue s) = Some ((current_label, current_stop_id), queue') ->
      current_stop_id ∈ stop_done s ->
      loop_head (set_stop_queue queue' s)
  | head_no_transfer s current_label current_stop_id queue' stop :
      loop_head s ->
      queue_get (stop_queue s) = Some ((current_label, current_stop_id), queue') ->
      current_stop_id ∉ stop_done s ->
      stops !! current_stop_id = Some stop ->
      is_transfer stop = false ->
      loop_head (set_stop_queue queue' s)
  | head_labeled s current_label current_stop_id queue' stop s' :
      loop_head s ->
      queue_get (stop_queue s) = Some ((current_label, current_stop_id), queue') ->
      current_stop_id ∉ stop_done s ->
      stops !! current_stop_id = Some stop ->
      is_transfer stop = true ->
      label_iteration current_label current_stop_id
        (set_stop_done ({[current_stop_id]} ∪ stop_done s)
           (set_stop_queue queue' s)) = Ok s' ->
      loop_head s'.

(** *** The sampler: [Assignment.choose_path_from_hyperpath_states] *)

(** The cumulative access probabilities over [taz_state]; each entry carries
    the index of its state in [taz_state], the state being shared between
    [taz_state] and the path. *)
Fixpoint access_cum_prob (taz_label : R) (idx : nat) (taz_state : list (State R))
    (acc : list (Z * nat)) : result (list (Z * nat)) :=
  match taz_state with
  | [] => Ok acc
  | state :: rest =>
      cost ← STATE_COST state;
      let prob := py_int (1000 * weight cost / weight taz_label) in
      if (prob <? 1)%Z then access_cum_prob taz_label (S idx) rest acc
      else
        let cum := match last acc with
                   | None => prob
                   | Some (c, _) => (prob + c)%Z
                   end in
        access_cum_prob taz_label (S idx) rest (acc ++ [(cum, idx)])
  end.

(** The two filters on the states of the current stop: no double walk, and
    no departure before the arrival (outbound) or arrival after the
    departure (inbound). *)
Definition feasible (last_trip : mode) (arrdep_time : Z) (state : State R) : bool :=
  let m := STATE_DEPARRMODE state in
  negb (is_outbound
        && (bool_decide (m = EGRESS) || bool_decide (m = TRANSFER))
        && (bool_decide (last_trip = ACCESS) || bool_decide (last_trip = TRANSFER)))
  && negb (negb is_outbound
           && (bool_decide (m = ACCESS) || bool_decide (m = TRANSFER))
           && (bool_decide (last_trip = EGRESS) || bool_decide (last_trip = TRANSFER)))
  && negb (is_outbound && (STATE_DEPARR state <? arrdep_time)%Z)
  && negb (negb is_outbound && (arrdep_time <? STATE_DEPARR state)%Z).

(** [sum_exp] over the candidate states. *)
Fixpoint sum_exp (candidates : list (State R)) (acc : R) : result R :=
  match candidates with
  | [] => Ok acc
  | state :: rest => cost ← STATE_COST state; sum_exp rest (acc + weight cost)%R
  end.

(** The cumulative probabilities of the candidate states. *)
Fixpoint stop_cum_prob (denom : R) (candidates : list (State R)) (prev : Z)
  : result (list (Z * State R)) :=
  match candidates with
  | [] => Ok []
  | state :: rest =>
      cost ← STATE_COST state;
      let cum := (prev + py_int (1000 * weight cost / denom))%Z in
      rest' ← stop_cum_prob denom rest cum;
      Ok ((cum, state) :: rest')
  end.

(** Modelled from the spec: [trips[trip_id].get_scheduled_departure(stop_id)],
    the method of a trip object that [Assignment.py] calls, is not among
    the sources (the method of the table-based class of [Trip.py] takes the
    trip id as well and reads a table).  It gives the scheduled departure of
    the trip at the stop: here the departure time of the first stop of the
    trip with that id, an exception when there is none. *)
Fixpoint get_scheduled_departure (rows : list (Z * Z * Z)) (stop_id : Z) : result Z :=
  match rows with
  | [] => Raise StopNotFound
  | (row_stop, _, departure) :: rows' =>
      if decide (row_stop = stop_id) then Ok departure
      else get_scheduled_departure rows' stop_id
  end.

(** [FT.trips[mode]]: a walk mode is no key of [FT.trips]. *)
Definition trip_of_mode (m : mode) : result Trip :=
  match m with
  | TRIP trip_id => getitem trips trip_id
  | _ => Raise KeyError
  end.

(** The variables of one sampling attempt.  [start_idx] is the index in
    [taz_state] of the state chosen for the TAZ: the path holds that very
    state, so the revision of the first link shows in [taz_state] too. *)
Record sampling : Type := mkSampling {
  path_states : list (Z * State R);
  taz_state : list (State R);
  rand : list Z;
  start_idx : nat;
  current_stop : Z;
  arrdep_time : Z;
  last_trip : mode
}.

Definition start_state_id : Z := if is_outbound then origin_taz else destination_taz.

(** The [while True] loop of the sampler, run for at most [fuel] passes:
    whether a path was set, with the path states, [taz_state] and the random
    source after it. *)
Fixpoint sample_loop (stop_states : gmap Z (list (State R))) (fuel : nat)
    (a : sampling) : result (bool * sampling) :=
  match fuel with
  | O => Raise FuelExhausted
  | S fuel' =>
      let candidates :=
        filter (fun state => feasible (last_trip a) (arrdep_time a) state = true)
          (getlist stop_states (current_stop a)) in
      denom ← sum_exp candidates 0%R;
      if bool_decide (candidates = []) then Ok (false, a)
      else
        cum ← stop_cum_prob denom candidates 0%Z;
        '(next_state, rand') ← Choice.choose_state cum (rand a);
        '(path_states1, taz_state1) ←
          (if is_outbound && bool_decide (length (path_states a) = 1%nat)
           then
             trip ← trip_of_mode (STATE_DEPARRMODE next_state);
             dep_time ← get_scheduled_departure (trip_stops trip) (current_stop a);
             origin_state ← getassoc (path_states a) origin_taz;
             let revised :=
               set_deparr (dep_time - STATE_LINKTIME origin_state)%Z origin_state in
             Ok (states_set origin_taz revised (path_states a),
                 <[start_idx a := revised]> (taz_state a))
           else Ok (path_states a, taz_state a));
        let path_states2 := states_set (current_stop a) next_state path_states1 in
        new_arrdep ←
          (if bool_decide (STATE_DEPARRMODE next_state = TRANSFER)
           then Ok (arrdep_time a + STATE_LINKTIME next_state * dir)%Z
           else STATE_ARRIVAL next_state);
        let a' :=
          mkSampling path_states2 taz_state1 rand' (start_idx a)
            (STATE_SUCCPRED next_state) new_arrdep (STATE_DEPARRMODE next_state) in
        if (is_outbound && bool_decide (STATE_DEPARRMODE next_state = EGRESS))
           || (negb is_outbound && bool_decide (STATE_DEPARRMODE next_state = ACCESS))
        then Ok (true, a')
        else sample_loop stop_states fuel' a'
  end.

(** [choose_path_from_hyperpath_states(FT, path, trace, taz_state, stop_states)],
    on the states of the path, [taz_state] and the random source. *)
Definition choose_path_from_hyperpath_states (fuel : nat)
    (stop_states : gmap Z (list (State R))) (states0 : list (Z * State R))
    (taz_state0 : list (State R)) (rand0 : list Z)
  : result (bool * list (Z * State R) * list (State R) * list Z) :=
  final ← py_last taz_state0;
  let taz_label := STATE_LABEL final in
  cum ← access_cum_prob taz_label 0 taz_state0 [];
  '(idx, rand') ← Choice.choose_state cum rand0;
  start ← match taz_state0 !! idx with
          | Some state => Ok state
          | None => Raise IndexError
          end;
  let path_states1 := states_set start_state_id start states0 in
  '(found, a) ←
    sample_loop stop_states fuel
      (mkSampling path_states1 taz_state0 rand' idx (STATE_SUCCPRED start)
         (STATE_DEPARR start + STATE_LINKTIME start * dir)%Z
         (STATE_DEPARRMODE start));
  Ok (found, path_states a, taz_state a, rand a).

(** [Assignment.delay_inbound_path_departure(FT, path, trace)], on the states
    of the path. *)
Definition delay_inbound_path_departure (states0 : list (Z * State R))
  : result (list (Z * State R)) :=
  let first_trip_idx := (Z.of_nat (length states0) - 2)%Z in
  first_trip_item ← py_index states0 first_trip_idx;
  let '(first_trip_alight_stop, first_trip_state) := first_trip_item in
  let first_trip_board_stop := STATE_SUCCPRED first_trip_state in
  first_trip ← trip_of_mode (STATE_DEPARRMODE first_trip_state);
  alight_departure ←
    get_scheduled_departure (trip_stops first_trip) first_trip_alight_stop;
  board_departure ←
    get_scheduled_departure (trip_stops first_trip) first_trip_board_stop;
  let first_trip_state1 :=
    set_linktime (alight_departure - board_departure)%Z first_trip_state in
  let stop_depart_time :=
    (STATE_DEPARR first_trip_state1 - STATE_LINKTIME first_trip_state1)%Z in
  let states1 :=
    <[Z.to_nat first_trip_idx := (first_trip_alight_stop, first_trip_state1)]>
      states0 in
  let access_idx := (Z.of_nat (length states0) - 1)%Z in
  access_item ← py_index states1 access_idx;
  let '(access_stop, access_state) := access_item in
  let access_state1 := set_deparr stop_depart_time access_state in
  let states2 := <[Z.to_nat access_idx := (access_stop, access_state1)]> states1 in
  match bump_wait !! (STATE_DEPARRMODE first_trip_state1, first_trip_board_stop) with
  | None => Ok states2
  | Some latest_time =>
      let pref_datetime := preferred in
      if (latest_time <=? pref_datetime + STATE_LINKTIME access_state1 + GRACE)%Z
      then Ok []
      else
        let start_time :=
          Z.max pref_datetime
            (latest_time - STATE_LINKTIME access_state1 - BUMP_BUFFER)%Z in
        let access_state2 :=
          set_deparr (start_time + STATE_LINKTIME access_state1)%Z access_state1 in
        let first_trip_state2 :=
          set_linktime
            (STATE_DEPARR first_trip_state1 - STATE_DEPARR access_state2)%Z
            first_trip_state1 in
        Ok (<[Z.to_nat first_trip_idx := (first_trip_alight_stop, first_trip_state2)]>
              (<[Z.to_nat access_idx := (access_stop, access_state2)]> states2))
  end.

(** The variables of the loop that chooses the path: the states of the
    path, [taz_state], the random source and [attempts]. *)
Record choosing : Type := mkChoosing {
  chosen_states : list (Z * State R);
  chosen_taz_state : list (State R);
  chosen_rand : list Z;
  attempts : Z
}.

(** One attempt: [choose_path_from_hyperpath_states], [attempts += 1], and
    the reset of the path states after a failure ([path.reset_states()]
    leaves the path without states) or the delay of an inbound departure
    after a success.  It returns [path_found] and the variables. *)
Definition attempt (fuel : nat) (stop_states : gmap Z (list (State R)))
    (c : choosing) : result (bool * choosing) :=
  '(path_found, states1, taz_state1, rand1) ←
    choose_path_from_hyperpath_states fuel stop_states
      (chosen_states c) (chosen_taz_state c) (chosen_rand c);
  let attempts1 := (attempts c + 1)%Z in
  if negb path_found
  then Ok (false, mkChoosing [] taz_state1 rand1 attempts1)
  else
    states2 ←
      (if negb is_outbound && (2 <=? Z.of_nat (length states1))%Z
       then delay_inbound_path_departure states1
       else Ok states1);
    Ok (true, mkChoosing states2 taz_state1 rand1 attempts1).

(** [while not path_found and attempts < MAX_HYPERPATH_ASSIGN_ATTEMPTS],
    entered with [path_found = False]; [remaining] is the number of attempts
    left, [MAX_HYPERPATH_ASSIGN_ATTEMPTS - attempts]. *)
Fixpoint choose_loop (fuel : nat) (stop_states : gmap Z (list (State R)))
    (remaining : nat) (c : choosing) : result choosing :=
  match remaining with
  | O => Ok c
  | S remaining' =>
      match attempt fuel stop_states c with
      | Raise e => Raise e
      | Ok (true, c') => Ok c'
      | Ok (false, c') => choose_loop fuel stop_states remaining' c'
      end
  end.

(** The end of [find_trip_based_hyperpath]: "Nothing found" when
    [taz_state] is empty, otherwise "Choose path and save those results". *)
Definition choose_path (fuel : nat) (stop_states : gmap Z (list (State R)))
    (states0 : list (Z * State R)) (taz_state0 : list (State R)) (rand0 : list Z)
  : result choosing :=
  if bool_decide (taz_state0 = []) then Ok (mkChoosing states0 taz_state0 rand0 0)
  else choose_loop fuel stop_states (Z.to_nat MAX_HYPERPATH_ASSIGN_ATTEMPTS)
         (mkChoosing states0 taz_state0 rand0 0).

(** *** Properties: the label of a relaxed stop *)

Lemma weight_pos x : (0 < weight x)%R.
Proof. apply exp_pos. Qed.

(** The log-sum as the specification writes it. *)
Definition logsum_spec (L c : R) : R :=
  Rmax (1 / 100)
    (- (1 / DISPERSION_PARAMETER)
     * ln (exp (- DISPERSION_PARAMETER * L) + exp (- DISPERSION_PARAMETER * c))).

Lemma logsum_eq L c :
  DISPERSION_PARAMETER <> 0%R -> logsum L c = Ok (logsum_spec L c).
Proof.
  intros Hne. unfold logsum, floor_log, logsum_spec, weight.
  destruct (Req_dec_T DISPERSION_PARAMETER 0) as [|_]; [done|].
  do 2 f_equal.
  replace (-1 * DISPERSION_PARAMETER * L)%R with (- DISPERSION_PARAMETER * L)%R
    by ring.
  replace (-1 * DISPERSION_PARAMETER * c)%R with (- DISPERSION_PARAMETER * c)%R
    by ring.
  f_equal. field. done.
Qed.

Lemma logsum_spec_pos L c : (0 < logsum_spec L c)%R.
Proof.
  unfold logsum_spec.
  eapply Rlt_le_trans; [|apply Rmax_l]. lra.
Qed.

Lemma logsum_spec_lt L c :
  (0 < DISPERSION_PARAMETER)%R -> (L < MAX_COST)%R ->
  (logsum_spec L c < MAX_COST)%R.
Proof.
  intros Hpos HL. unfold logsum_spec.
  apply Rmax_lub_lt; [unfold MAX_COST; lra|].
  set (e1 := exp (- DISPERSION_PARAMETER * L)).
  set (e2 := exp (- DISPERSION_PARAMETER * c)).
  assert (0 < e1)%R as H1 by apply exp_pos.
  assert (0 < e2)%R as H2 by apply exp_pos.
  assert (- DISPERSION_PARAMETER * L < ln (e1 + e2))%R as Hln.
  { rewrite <- (ln_exp (- DISPERSION_PARAMETER * L)). fold e1.
    apply ln_increasing; lra. }
  assert (0 < 1 / DISPERSION_PARAMETER)%R as Hinv
    by (apply Rdiv_lt_0_compat; lra).
  assert (1 / DISPERSION_PARAMETER * (- DISPERSION_PARAMETER * L)
          < 1 / DISPERSION_PARAMETER * ln (e1 + e2))%R as Hmul
    by (by apply Rmult_lt_compat_l).
  assert (1 / DISPERSION_PARAMETER * (- DISPERSION_PARAMETER * L) = - L)%R as Heq
    by (field; lra).
  lra.
Qed.

(** *** Properties: the guard of the transfer relaxation *)

(** The guards as the two searches have them.  In the deterministic search
    no transfer is relaxed out of a popped stop whose mode is EGRESS,
    TRANSFER or ACCESS: transfers are relaxed only out of a stop whose mode
    is a trip.  The guard of the hyperpath search tests the current mode
    (the mode of the first state of the stop) for EGRESS and ACCESS only;
    for every other current mode, TRANSFER included, each transfer of the
    stop goes through the relaxation, at a cost built on the non-walk label
    of the stop. *)
Theorem transfer_relaxation_guards :
  (forall stops' window buffer table (path : Path Z) current_label
          current_stop_id current_stop_state s,
     is_walk_mode (STATE_DEPARRMODE current_stop_state) = true ->
     ShortestPath.update_by_transfer stops' window buffer table path
       current_label current_stop_id current_stop_state s = Ok s)
  /\ (forall stops' window buffer table (path : Path Z) current_label
             current_stop_id current_stop_state s trip_id stop,
        STATE_DEPARRMODE current_stop_state = TRIP trip_id ->
        stops' !! current_stop_id = Some stop ->
        ShortestPath.update_by_transfer stops' window buffer table path
          current_label current_stop_id current_stop_state s
        = Ok (fold_left
                (fun s xfer =>
                   ShortestPath.relax_transfer window buffer table path
                     current_label current_stop_id current_stop_state xfer s)
                (transfers stop) s))
  /\ (forall current_stop_id current_stop_state current_mode latest_earliest s,
        is_access_egress current_mode = true ->
        update_by_transfer current_stop_id current_stop_state current_mode
          latest_earliest s = Ok s)
  /\ (forall current_stop_id current_stop_state current_mode latest_earliest s
             nonwalk_label stop,
        is_access_egress current_mode = false ->
        calculate_nonwalk_label current_stop_state MAX_COST = Ok nonwalk_label ->
        stops !! current_stop_id = Some stop ->
        update_by_transfer current_stop_id current_stop_state current_mode
          latest_earliest s
        = for_each (relax_transfer current_stop_id nonwalk_label latest_earliest)
            (transfers stop) s).
Proof.
  split; [|split; [|split]].
  - intros. by apply ShortestPath.update_by_transfer_walk.
  - intros stops' window buffer table path cl cs cst s tid stop Hmode Hstop.
    unfold ShortestPath.update_by_transfer, getitem. by rewrite Hmode, Hstop.
  - intros cs css cm le s Hmode. unfold update_by_transfer. by rewrite Hmode.
  - intros cs css cm le s nl stop Hmode Hnl Hstop.
    unfold update_by_transfer, getitem. by rewrite Hmode, Hnl, Hstop.
Qed.

(** *** Properties: the attempts of the sampler *)

Lemma attempt_counts fuel stop_states c found c' :
  attempt fuel stop_states c = Ok (found, c') ->
  attempts c' = (attempts c + 1)%Z.
Proof.
  unfold attempt. intros H.
  apply bind_Ok in H as ([[[pf st1] tz1] r1] & _ & H).
  destruct (negb pf); [by injection H as _ <-|].
  apply bind_Ok in H as (st2 & _ & H). by injection H as _ <-.
Qed.

Lemma attempt_failed fuel stop_states c c' :
  attempt fuel stop_states c = Ok (false, c') -> chosen_states c' = [].
Proof.
  unfold attempt. intros H.
  apply bind_Ok in H as ([[[pf st1] tz1] r1] & _ & H).
  destruct (negb pf); [by injection H as <-|].
  apply bind_Ok in H as (st2 & _ & H). by injection H.
Qed.

Lemma choose_loop_attempts fuel stop_states remaining c c' :
  choose_loop fuel stop_states remaining c = Ok c' ->
  (attempts c <= attempts c' <= attempts c + Z.of_nat remaining)%Z.
Proof.
  revert c. induction remaining as [|n IH]; intros c H; simpl in H.
  - injection H as <-. lia.
  - destruct (attempt fuel stop_states c) as [[[|] c1]|] eqn:Ha; [| |done].
    + injection H as <-. apply attempt_counts in Ha. lia.
    + apply attempt_counts in Ha. apply IH in H. lia.
Qed.

(** Each of the next [n] attempts fails. *)
Fixpoint all_fail (fuel : nat) (stop_states : gmap Z (list (State R)))
    (n : nat) (c : choosing) : Prop :=
  match n with
  | O => True
  | S n' => exists c', attempt fuel stop_states c = Ok (false, c')
                       /\ all_fail fuel stop_states n' c'
  end.

Lemma choose_loop_all_fail fuel stop_states n c :
  all_fail fuel stop_states n c ->
  exists c', choose_loop fuel stop_states n c = Ok c'
             /\ attempts c' = (attempts c + Z.of_nat n)%Z
             /\ ((0 < n)%nat -> chosen_states c' = []).
Proof.
  revert c. induction n as [|n IH]; intros c Hall; simpl.
  - exists c. split; [done|]. split; [lia|lia].
  - destruct Hall as (c1 & Ha & Hall). rewrite Ha.
    destruct (IH c1 Hall) as (c' & Hl & Hat & Hst).
    exists c'. split; [done|]. split.
    + apply attempt_counts in Ha. lia.
    + intros _. destruct n as [|n'].
      * simpl in Hl. injection Hl as <-. by eapply attempt_failed.
      * apply Hst. lia.
Qed.

(** C6. In the sampler, an attempt whose filtered candidate set at the
    current stop is empty is aborted (it returns [False]); the states of the
    path are then reset and the sampling starts again from scratch; at most
    [MAX_HYPERPATH_ASSIGN_ATTEMPTS = 1001] attempts are made; and when every
    attempt fails the search returns normally, after 1001 attempts, with a
    path without states. *)
Theorem sampling_attempts fuel stop_states :
  MAX_HYPERPATH_ASSIGN_ATTEMPTS = 1001%Z
  /\ (forall fuel' a,
        filter (fun state => feasible (last_trip a) (arrdep_time a) state = true)
          (getlist stop_states (current_stop a)) = [] ->
        sample_loop stop_states (S fuel') a = Ok (false, a))
  /\ (forall c states1 taz_state1 rand1,
        choose_path_from_hyperpath_states fuel stop_states
          (chosen_states c) (chosen_taz_state c) (chosen_rand c)
          = Ok (false, states1, taz_state1, rand1) ->
        attempt fuel stop_states c
          = Ok (false, mkChoosing [] taz_state1 rand1 (attempts c + 1)%Z))
  /\ (forall remaining c c',
        attempt fuel stop_states c = Ok (false, c') ->
        choose_loop fuel stop_states (S remaining) c
          = choose_loop fuel stop_states remaining c')
  /\ (forall states0 taz_state0 rand0 c,
        choose_path fuel stop_states states0 taz_state0 rand0 = Ok c ->
        (0 <= attempts c <= 1001)%Z)
  /\ (forall states0 taz_state0 rand0,
        taz_state0 <> [] ->
        all_fail fuel stop_states 1001 (mkChoosing states0 taz_state0 rand0 0) ->
        exists c,
          choose_path fuel stop_states states0 taz_state0 rand0 = Ok c
          /\ chosen_states c = []
          /\ attempts c = 1001%Z).
Proof.
  split; [done|]. split; [|split; [|split; [|split]]].
  - intros fuel' a Hnone. simpl. rewrite Hnone. done.
  - intros c states1 taz_state1 rand1 H. unfold attempt. by rewrite H.
  - intros remaining c c' H. simpl. by rewrite H.
  - intros states0 taz_state0 rand0 c H. unfold choose_path in H.
    case_bool_decide.
    + injection H as <-. simpl. lia.
    + apply choose_loop_attempts in H. simpl in H.
      unfold MAX_HYPERPATH_ASSIGN_ATTEMPTS in H. lia.
  - intros states0 taz_state0 rand0 Hne Hall. unfold choose_path.
    rewrite bool_decide_eq_false_2 by done.
    change (Z.to_nat MAX_HYPERPATH_ASSIGN_ATTEMPTS) with 1001%nat.
    destruct (choose_loop_all_fail _ _ _ _ Hall) as (c & Hl & Hat & Hst).
    exists c. split; [done|]. split; [apply Hst; lia|]. simpl in Hat. lia.
Qed.

(** *** Further properties: the queue of the hyperpath search *)

Lemma hyper_entry_eqb_refl x : entry_eqb x x = true.
Proof.
  unfold entry_eqb. destruct (Req_dec_T x.1 x.1); [|done].
  by rewrite Z.eqb_refl.
Qed.

Lemma hyper_entry_eqb_eq x y : entry_eqb x y = true -> x = y.
Proof.
  unfold entry_eqb. destruct x as [a i], y as [b j]. simpl.
  destruct (Req_dec_T a b) as [->|]; [|done]. simpl.
  intros H. apply Z.eqb_eq in H as ->. done.
Qed.

Lemma hyper_queue_min_elem x q : queue_min x q ∈ x :: q.
Proof.
  revert x. induction q as [|y q IH]; intros x; simpl.
  - apply elem_of_cons. by left.
  - specialize (IH (if entry_le x y then x else y)).
    apply elem_of_cons in IH as [->|IH].
    + destruct (entry_le x y); [by left|right; by left].
    + right. by right.
Qed.

Lemma hyper_queue_remove_length x q :
  x ∈ q -> length q = S (length (queue_remove x q)).
Proof.
  induction q as [|y q IH]; intros Hin; [by apply elem_of_nil in Hin|].
  simpl. destruct (entry_eqb x y) eqn:E; [done|].
  apply elem_of_cons in Hin as [->|Hin]; [by rewrite hyper_entry_eqb_refl in E|].
  simpl. f_equal. by apply IH.
Qed.

Lemma hyper_queue_remove_subset x q y : y ∈ queue_remove x q -> y ∈ q.
Proof.
  induction q as [|z q IH]; simpl; [done|].
  destruct (entry_eqb x z); [intros Hy; by apply elem_of_cons; right|].
  intros [->|Hy]%elem_of_cons; apply elem_of_cons; [by left|right; by apply IH].
Qed.

Lemma hyper_queue_get_spec q x q' :
  queue_get q = Some (x, q') ->
  x ∈ q /\ length q = S (length q') /\ (forall y, y ∈ q' -> y ∈ q).
Proof.
  destruct q as [|z q]; [done|]. unfold queue_get. intros [= <- <-].
  split; [apply hyper_queue_min_elem|]. split.
  - apply (hyper_queue_remove_length (queue_min z q) (z :: q)),
      hyper_queue_min_elem.
  - intros y. apply (hyper_queue_remove_subset (queue_min z q) (z :: q)).
Qed.

(** *** Further properties: termination of the labeling loop *)

(** A step that leaves [stop_done] and [label_iterations] alone, only adds
    to [trips_used], and adds at most [n] entries to the queue. *)
Definition adds_at_most (n : nat) (s s' : search) : Prop :=
  stop_done s' = stop_done s
  /\ label_iterations s' = label_iterations s
  /\ trips_used s ⊆ trips_used s'
  /\ (length (stop_queue s') <= length (stop_queue s) + n)%nat.

Lemma adds_at_most_refl s : adds_at_most 0 s s.
Proof. unfold adds_at_most. split_and!; [done|done|done|lia]. Qed.

Lemma adds_at_most_trans n m s1 s2 s3 :
  adds_at_most n s1 s2 -> adds_at_most m s2 s3 -> adds_at_most (n + m) s1 s3.
Proof.
  intros (Hd1 & Hl1 & Hu1 & Hq1) (Hd2 & Hl2 & Hu2 & Hq2). unfold adds_at_most.
  split_and!; [congruence|congruence|by etrans|lia].
Qed.

Lemma adds_at_most_le n m s s' :
  (n <= m)%nat -> adds_at_most n s s' -> adds_at_most m s s'.
Proof.
  intros Hle (Hd & Hl & Hu & Hq). unfold adds_at_most. split_and!; [done..|lia].
Qed.

Lemma add_state_adds stop_id state s : adds_at_most 1 s (add_state stop_id state s).
Proof.
  unfold add_state.
  destruct (Rlt_dec _ _);
    [|eapply adds_at_most_le; [|apply adds_at_most_refl]; lia].
  destruct (Rgt_dec _ _);
    [|eapply adds_at_most_le; [|apply adds_at_most_refl]; lia].
  unfold adds_at_most, queue_put. simpl. rewrite length_app. simpl.
  split_and!; [done|done|done|lia].
Qed.

Lemma for_each_adds {A} (body : A -> search -> result search) l s s' :
  (forall x a b, body x a = Ok b -> adds_at_most 1 a b) ->
  for_each body l s = Ok s' -> adds_at_most (length l) s s'.
Proof.
  intros Hbody. revert s. induction l as [|x l IH]; intros s H; simpl in H.
  - injection H as <-. apply adds_at_most_refl.
  - apply bind_Ok in H as (s1 & H1 & H).
    eapply (adds_at_most_trans 1); [by eapply Hbody|by apply IH].
Qed.

Lemma hyper_relax_transfer_adds cs nl le xfer s s' :
  relax_transfer cs nl le xfer s = Ok s' -> adds_at_most 1 s s'.
Proof.
  unfold relax_transfer. destruct xfer as [xs xt]. intros H.
  apply bind_Ok in H as (new_label & _ & H). injection H as <-.
  apply add_state_adds.
Qed.

Lemma hyper_relax_trip_stop_adds cl cs cm tid arrdep wait seq_num s s' :
  relax_trip_stop cl cs cm tid arrdep wait seq_num s = Ok s' ->
  adds_at_most 1 s s'.
Proof.
  unfold relax_trip_stop. intros H.
  apply bind_Ok in H as (trip & _ & H).
  apply bind_Ok in H as ([[bas arr] dep] & _ & H).
  apply bind_Ok in H as (new_mode & _ & H).
  destruct (match new_mode with Some m => is_access_egress m | None => false end).
  { injection H as <-. eapply adds_at_most_le; [|apply adds_at_most_refl]. lia. }
  apply bind_Ok in H as (fare & _ & H).
  apply bind_Ok in H as (new_label & _ & H). injection H as <-.
  apply add_state_adds.
Qed.

Lemma hyper_relax_trip_stop_index cl cs cm tid arrdep wait l s s' x :
  for_each (relax_trip_stop cl cs cm tid arrdep wait) l s = Ok s' ->
  x ∈ l ->
  exists trip y, trips !! tid = Some trip
                 /\ py_index (trip_stops trip) (x - 1) = Ok y.
Proof.
  revert s. induction l as [|z l IH]; intros s H Hin;
    [by apply elem_of_nil in Hin|].
  simpl in H. apply bind_Ok in H as (s1 & H1 & H).
  apply elem_of_cons in Hin as [->|Hin]; [|by eapply IH].
  unfold relax_trip_stop in H1.
  apply bind_Ok in H1 as (trip & Ht & H1).
  apply bind_Ok in H1 as (y & Hy & _).
  unfold getitem in Ht. destruct (trips !! tid); [|done].
  injection Ht as ->. eauto.
Qed.

(** The largest number of transfers of a stop and of stops of a trip. *)
Definition max_transfers : nat :=
  max_list ((fun x => length (transfers x.2)) <$> map_to_list stops).

Definition max_stops : nat :=
  max_list ((fun x => length (trip_stops x.2)) <$> map_to_list trips).

Lemma hyper_transfers_le k stop :
  stops !! k = Some stop -> (length (transfers stop) <= max_transfers)%nat.
Proof.
  intros H. apply max_list_elem_of_le, list_elem_of_fmap.
  exists (k, stop). split; [done|]. by apply elem_of_map_to_list.
Qed.

Lemma hyper_trip_stops_le k trip :
  trips !! k = Some trip -> (length (trip_stops trip) <= max_stops)%nat.
Proof.
  intros H. apply max_list_elem_of_le, list_elem_of_fmap.
  exists (k, trip). split; [done|]. by apply elem_of_map_to_list.
Qed.

Definition trip_weight (s : search) : nat :=
  length (stop_queue s) + 2 * max_stops * size (dom trips ∖ trips_used s).

Definition potential (s : search) : nat :=
  (1 + max_transfers) * size (dom stops ∖ stop_done s) + trip_weight s.

Lemma hyper_size_difference_mono (A B B' : gset Z) :
  B ⊆ B' -> (size (A ∖ B') <= size (A ∖ B))%nat.
Proof. intros H. apply subseteq_size. set_solver. Qed.

Lemma hyper_size_difference_add (A B : gset Z) x :
  x ∈ A -> x ∉ B -> (S (size (A ∖ ({[x]} ∪ B))) <= size (A ∖ B))%nat.
Proof.
  intros HA HB. apply Nat.le_succ_l. apply subset_size. set_solver.
Qed.

Lemma py_range_last lo hi : (lo < hi)%Z -> (hi - 1)%Z ∈ py_range lo hi.
Proof.
  intros Hlt. unfold py_range. apply list_elem_of_fmap.
  exists (Z.to_nat (hi - lo) - 1)%nat. split; [lia|].
  apply elem_of_seq. lia.
Qed.

Lemma py_range_first lo hi : (lo < hi)%Z -> lo ∈ py_range lo hi.
Proof.
  intros Hlt. unfold py_range. apply list_elem_of_fmap.
  exists 0%nat. split; [lia|]. apply elem_of_seq. lia.
Qed.

Lemma hyper_relax_trip_weight cl cs cm le valid_trip s s' :
  relax_trip cl cs cm le valid_trip s = Ok s' ->
  stop_done s' = stop_done s /\ label_iterations s' = label_iterations s
  /\ trips_used s ⊆ trips_used s' /\ (trip_weight s' <= trip_weight s)%nat.
Proof.
  destruct valid_trip as [[tid seq] arrdep]. unfold relax_trip. intros H.
  destruct (decide (tid ∈ trips_used s)) as [Hin|Hnin]; [by injection H as <-|].
  apply bind_Ok in H as (l & Hl & H).
  pose proof (for_each_adds _ _ _ _
                (hyper_relax_trip_stop_adds cl cs cm tid arrdep _) H)
    as (Hd & Hi & Hu & Hq).
  simpl in Hd, Hi, Hu, Hq.
  assert (trips_used s ⊆ trips_used s') as Hu'.
  { etrans; [|exact Hu]. apply union_subseteq_r. }
  split; [done|]. split; [done|]. split; [done|].
  unfold trip_weight.
  pose proof (hyper_size_difference_mono (dom trips) _ _ Hu) as Hsz.
  pose proof (hyper_size_difference_mono (dom trips) _ _ Hu') as Hsz'.
  assert (match trips !! tid with
          | Some trip => (length l <= 2 * length (trip_stops trip))%nat
          | None => l = []
          end) as Hb.
  { destruct is_outbound.
    - injection Hl as <-. destruct (Z.ltb_spec 1 seq) as [Hlt|Hge].
      + destruct (hyper_relax_trip_stop_index _ _ _ _ _ _ _ _ _ _ H
                    (py_range_last 1 seq Hlt)) as (trip & y & -> & Hy).
        apply ShortestPath.py_index_Ok in Hy.
        rewrite ShortestPath.py_range_length. lia.
      + assert (py_range 1 seq = []) as ->.
        { apply length_zero_iff_nil. rewrite ShortestPath.py_range_length. lia. }
        destruct (trips !! tid); [simpl; lia|done].
    - apply bind_Ok in Hl as (trip & Ht & Hl). injection Hl as <-.
      unfold getitem in Ht. destruct (trips !! tid) as [trip'|] eqn:Et; [|done].
      injection Ht as ->. unfold number_of_stops in *.
      destruct (Z.ltb_spec (seq + 1) (Z.of_nat (length (trip_stops trip)) + 1))
        as [Hlt|Hge].
      + destruct (hyper_relax_trip_stop_index _ _ _ _ _ _ _ _ _ _ H
                    (py_range_first _ _ Hlt)) as (trip2 & y & Ht2 & Hy).
        rewrite Et in Ht2. injection Ht2 as <-.
        apply ShortestPath.py_index_Ok in Hy.
        rewrite ShortestPath.py_range_length. lia.
      + rewrite ShortestPath.py_range_length. lia. }
  destruct (trips !! tid) as [trip|] eqn:Etrip.
  - pose proof (hyper_trip_stops_le _ _ Etrip) as Hle.
    assert (tid ∈ dom trips) as Hdom by (apply elem_of_dom; eauto).
    pose proof (hyper_size_difference_add _ _ _ Hdom Hnin) as Hadd. nia.
  - rewrite Hb in Hq. simpl in Hq. nia.
Qed.

Lemma hyper_label_iteration_potential cl cs s s' stop :
  stops !! cs = Some stop ->
  label_iteration cl cs s = Ok s' ->
  stop_done s' = stop_done s
  /\ label_iterations s' = (label_iterations s + 1)%Z
  /\ (potential s' <= potential s + max_transfers)%nat.
Proof.
  unfold label_iteration. intros Hstop H.
  apply bind_Ok in H as (first & _ & H).
  apply bind_Ok in H as (s1 & H1 & H).
  apply bind_Ok in H as (s2 & H2 & H). injection H as <-.
  assert (adds_at_most max_transfers s s1) as (Hd1 & Hi1 & Hu1 & Hq1).
  { unfold update_by_transfer in H1. destruct (is_access_egress _).
    - injection H1 as <-. eapply adds_at_most_le; [|apply adds_at_most_refl]. lia.
    - apply bind_Ok in H1 as (nl & _ & H1).
      unfold getitem in H1. rewrite Hstop in H1. simpl in H1.
      eapply adds_at_most_le; [by eapply hyper_transfers_le|].
      eapply for_each_adds; [|exact H1].
      intros x a b. apply hyper_relax_transfer_adds. }
  assert (stop_done s2 = stop_done s1 /\ label_iterations s2 = label_iterations s1
          /\ (trip_weight s2 <= trip_weight s1)%nat) as (Hd2 & Hi2 & Hw2).
  { unfold update_by_trips in H2. apply bind_Ok in H2 as (stop' & _ & H2).
    eapply (for_each_inv
      (fun x => stop_done x = stop_done s1
                /\ label_iterations x = label_iterations s1
                /\ (trip_weight x <= trip_weight s1)%nat)); [| |exact H2]; [|done].
    intros vt a b (Hd & Hi & Hw) Hr.
    apply hyper_relax_trip_weight in Hr as (Hd' & Hi' & _ & Hw').
    split; [congruence|]. split; [congruence|lia]. }
  simpl. split; [congruence|]. split; [congruence|].
  unfold potential. simpl. rewrite Hd2, Hd1.
  assert (trip_weight s1 <= trip_weight s + max_transfers)%nat.
  { unfold trip_weight.
    pose proof (hyper_size_difference_mono (dom trips) _ _ Hu1). nia. }
  unfold trip_weight in *. simpl. lia.
Qed.

Lemma hyper_labeling_loop_fuel fuel s :
  (potential s < fuel)%nat -> labeling_loop fuel s <> OutOfFuel.
Proof.
  revert s. induction fuel as [|fuel IH]; intros s Hlt; [lia|].
  simpl. destruct (queue_get (stop_queue s)) as [[[cl cs] q']|] eqn:Hget; [|done].
  apply hyper_queue_get_spec in Hget as (_ & Hlen & _).
  destruct (decide (cs ∈ stop_done s)) as [Hdone|Hnew].
  { apply IH. unfold potential, trip_weight in *. simpl. lia. }
  destruct (getitem stops cs) as [stop|] eqn:Hstop; [|done].
  unfold getitem in Hstop. destruct (stops !! cs) as [stop'|] eqn:Es; [|done].
  injection Hstop as ->.
  destruct (negb (is_transfer stop)).
  { apply IH. unfold potential, trip_weight in *. simpl. lia. }
  destruct (label_iteration _ _ _) as [s2|e] eqn:Hit; [|done].
  apply IH.
  apply (hyper_label_iteration_potential _ _ _ _ _ Es) in Hit as (_ & _ & Hpot).
  assert (cs ∈ dom stops) as Hdom by (apply elem_of_dom; eauto).
  pose proof (hyper_size_difference_add _ _ _ Hdom Hnew) as Hadd.
  unfold potential, trip_weight in *. simpl in Hpot. nia.
Qed.

Lemma hyper_labeling_loop_more fuel fuel' s :
  labeling_loop fuel s <> OutOfFuel -> (fuel <= fuel')%nat ->
  labeling_loop fuel' s = labeling_loop fuel s.
Proof.
  revert fuel' s. induction fuel as [|fuel IH]; intros fuel' s Hne Hle; [done|].
  destruct fuel' as [|fuel']; [lia|]. simpl in *.
  destruct (queue_get (stop_queue s)) as [[[cl cs] q']|]; [|done].
  destruct (decide (cs ∈ stop_done s)); [apply IH; [done|lia]|].
  destruct (getitem stops cs) as [stop|]; [|done].
  destruct (negb (is_transfer stop)); [apply IH; [done|lia]|].
  destruct (label_iteration _ _ _); [apply IH; [done|lia]|done].
Qed.

Lemma hyper_labeling_loop_head fuel s s' :
  loop_head s -> labeling_loop fuel s = Finished s' ->
  loop_head s' /\ stop_queue s' = [].
Proof.
  revert s. induction fuel as [|fuel IH]; intros s Hh H; [done|].
  simpl in H.
  destruct (queue_get (stop_queue s)) as [[[cl cs] q']|] eqn:Hget.
  2:{ injection H as <-. split; [done|].
      unfold queue_get in Hget. by destruct (stop_queue s). }
  destruct (decide (cs ∈ stop_done s)) as [Hdone|Hnew].
  { eapply IH; [|done]. by eapply head_done. }
  destruct (getitem stops cs) as [stop|] eqn:Hstop; [|done].
  unfold getitem in Hstop. destruct (stops !! cs) as [stop'|] eqn:Es; [|done].
  injection Hstop as ->.
  destruct (is_transfer stop) eqn:Et; simpl in H.
  - destruct (label_iteration _ _ _) as [s2|e] eqn:Hit; [|done].
    eapply IH; [|done]. by eapply head_labeled.
  - eapply IH; [|done]. by eapply head_no_transfer.
Qed.

Lemma hyper_seeded_counters s0 :
  seeded = Ok s0 -> label_iterations s0 = 0%Z /\ stop_done s0 = ∅.
Proof.
  unfold seeded. intros H. apply bind_Ok in H as (taz & _ & H). injection H as <-.
  assert (label_iterations empty_search = 0%Z /\ stop_done empty_search = ∅)
    as He by done.
  revert He. generalize empty_search. generalize (access_links taz).
  induction l as [|[sid at_] l IH]; intros s Hm; simpl; [done|].
  by apply IH.
Qed.

(** At the head of the loop there are as many label iterations as stops
    done, and the stops done are stops of the schedule. *)
Lemma hyper_loop_head_done s :
  loop_head s ->
  label_iterations s = Z.of_nat (size (stop_done s)) /\ stop_done s ⊆ dom stops.
Proof.
  induction 1 as [s0 Hs|s cl cs q' _ [IHn IHd] Hget Hdone
                 |s cl cs q' stop _ [IHn IHd] Hget Hnew Hstop Ht
                 |s cl cs q' stop s' _ [IHn IHd] Hget Hnew Hstop Ht Hit].
  - destruct (hyper_seeded_counters _ Hs) as [-> ->].
    split; [by rewrite size_empty|]. apply empty_subseteq.
  - done.
  - done.
  - apply (hyper_label_iteration_potential _ _ _ _ _ Hstop) in Hit
      as (-> & -> & _).
    simpl. split.
    + rewrite size_union by (apply disjoint_singleton_l; done).
      rewrite size_singleton, IHn. lia.
    + apply union_least; [|done]. apply singleton_subseteq_l, elem_of_dom. eauto.
Qed.

(** X15. The labeling loop of the hyperpath search terminates on every
    schedule: a fuel computed from the seeded state, the stops and the trips
    suffices, and more fuel changes nothing.  When the queue drains, the number
    of label iterations is the number of stops processed, at most the number
    of stops of the schedule. *)
Theorem hyperpath_labeling_terminates s0 :
  seeded = Ok s0 ->
  let fuel := S (potential s0) in
  ((exists s, labeling_loop fuel s0 = Finished s
              /\ stop_queue s = []
              /\ label_iterations s = Z.of_nat (size (stop_done s))
              /\ (label_iterations s <= Z.of_nat (size (dom stops)))%Z)
   \/ (exists e, labeling_loop fuel s0 = Failed e))
  /\ (forall fuel', (fuel <= fuel')%nat ->
        labeling_loop fuel' s0 = labeling_loop fuel s0).
Proof.
  intros Hs fuel.
  assert (labeling_loop fuel s0 <> OutOfFuel) as Hne
    by (apply hyper_labeling_loop_fuel; unfold fuel; lia).
  split; [|intros fuel' Hle; by apply hyper_labeling_loop_more].
  destruct (labeling_loop fuel s0) as [s|e|] eqn:Hrun; [left|right; eauto|done].
  exists s. split; [done|].
  destruct (hyper_labeling_loop_head fuel s0 s (head_seeded _ Hs) Hrun)
    as [Hh Hq].
  destruct (hyper_loop_head_done s Hh) as [Hn Hd].
  split; [done|]. split; [done|].
  rewrite Hn. apply inj_le, subseteq_size. done.
Qed.

(** *** Further properties: the states that are read *)

(** Every entry of the queue is for a stop with states; every stop that has
    a list of states has a state, and every state carries its cost and
    arrival. *)
Definition well_formed (s : search) : Prop :=
  (forall l k, (l, k) ∈ stop_queue s -> getlist (stop_states s) k <> [])
  /\ (forall k state_list, stop_states s !! k = Some state_list ->
        state_list <> []
        /\ forall state, state ∈ state_list -> is_Some (STATE_HYPER state)).

Lemma append_state_well_formed stop_id state s :
  well_formed s -> is_Some (STATE_HYPER state) ->
  well_formed
    (set_stop_queue (queue_put (STATE_LABEL state, stop_id) (stop_queue s))
       (set_stop_states (append_at (stop_states s) stop_id state) s)).
Proof.
  intros [Hq Hs] Hh. split; simpl.
  - intros l k Hin. rewrite getlist_append_at.
    destruct (decide (stop_id = k)) as [<-|Hne];
      [by destruct (getlist (stop_states s) stop_id)|].
    unfold queue_put in Hin. apply elem_of_app in Hin as [Hin|Hin];
      [by apply (Hq l k)|].
    apply list_elem_of_singleton in Hin. by injection Hin as _ ->.
  - intros k sl Hk. unfold append_at in Hk.
    destruct (decide (stop_id = k)) as [<-|Hne].
    + rewrite lookup_insert_eq in Hk. injection Hk as <-.
      split; [by destruct (getlist (stop_states s) stop_id)|].
      intros st [Hin|Hin]%elem_of_app.
      * unfold getlist in Hin.
        destruct (stop_states s !! stop_id) as [sl|] eqn:E;
          [|by apply elem_of_nil in Hin].
        by apply (Hs _ _ E).
      * by apply list_elem_of_singleton in Hin as ->.
    + rewrite lookup_insert_ne in Hk by done. by apply (Hs k).
Qed.

Lemma add_state_well_formed stop_id state s :
  well_formed s -> is_Some (STATE_HYPER state) ->
  well_formed (add_state stop_id state s).
Proof.
  intros Hw Hh. unfold add_state.
  destruct (Rlt_dec _ _); [|done]. destruct (Rgt_dec _ _); [|done].
  by apply append_state_well_formed.
Qed.

Lemma hyper_relax_transfer_wf cs nl le xfer s s' :
  relax_transfer cs nl le xfer s = Ok s' -> well_formed s -> well_formed s'.
Proof.
  unfold relax_transfer. destruct xfer as [xs xt]. intros H Hw.
  apply bind_Ok in H as (new_label & _ & H). injection H as <-.
  apply add_state_well_formed; [done|]. simpl. eauto.
Qed.

Lemma hyper_relax_trip_stop_wf cl cs cm tid arrdep wait seq_num s s' :
  relax_trip_stop cl cs cm tid arrdep wait seq_num s = Ok s' ->
  well_formed s -> well_formed s'.
Proof.
  unfold relax_trip_stop. intros H Hw.
  apply bind_Ok in H as (trip & _ & H).
  apply bind_Ok in H as ([[bas arr] dep] & _ & H).
  apply bind_Ok in H as (new_mode & _ & H).
  destruct (match new_mode with Some m => is_access_egress m | None => false end);
    [by injection H as <-|].
  apply bind_Ok in H as (fare & _ & H).
  apply bind_Ok in H as (new_label & _ & H). injection H as <-.
  apply add_state_well_formed; [done|]. simpl. eauto.
Qed.

Lemma hyper_label_iteration_wf cl cs s s' :
  label_iteration cl cs s = Ok s' -> well_formed s -> well_formed s'.
Proof.
  unfold label_iteration. intros H Hw.
  apply bind_Ok in H as (first & _ & H).
  apply bind_Ok in H as (s1 & H1 & H).
  apply bind_Ok in H as (s2 & H2 & H). injection H as <-.
  assert (well_formed s1) as Hw1.
  { unfold update_by_transfer in H1.
    destruct (is_access_egress _); [by injection H1 as <-|].
    apply bind_Ok in H1 as (nl & _ & H1). apply bind_Ok in H1 as (stop & _ & H1).
    eapply (for_each_inv well_formed); [|exact Hw|exact H1].
    intros x a b Ha Hb. by eapply hyper_relax_transfer_wf. }
  assert (well_formed s2) as Hw2; [|exact Hw2].
  unfold update_by_trips in H2. apply bind_Ok in H2 as (stop & _ & H2).
  eapply (for_each_inv well_formed); [|exact Hw1|exact H2].
  intros [[tid seq] arrdep] a b Ha Hb. unfold relax_trip in Hb.
  destruct (decide (tid ∈ trips_used a)); [by injection Hb as <-|].
  apply bind_Ok in Hb as (l & _ & Hb).
  eapply (for_each_inv well_formed); [| |exact Hb]; [|exact Ha].
  intros x u v Hu Hv. by eapply hyper_relax_trip_stop_wf.
Qed.

Lemma hyper_pop_wf s x q' done' :
  well_formed s -> queue_get (stop_queue s) = Some (x, q') ->
  well_formed (set_stop_done done' (set_stop_queue q' s)).
Proof.
  intros [Hq Hs] Hget. apply hyper_queue_get_spec in Hget as (_ & _ & Hsub).
  split; simpl; [|done]. intros l k Hin. eapply Hq. by apply Hsub.
Qed.

Lemma hyper_seeded_wf s0 : seeded = Ok s0 -> well_formed s0.
Proof.
  unfold seeded. intros H. apply bind_Ok in H as (taz & _ & H). injection H as <-.
  assert (well_formed empty_search) as He.
  { split; simpl.
    - intros l k Hin. by apply elem_of_nil in Hin.
    - intros k sl Hk. by rewrite lookup_empty in Hk. }
  revert He. generalize empty_search. generalize (access_links taz).
  induction l as [|[sid at_] l IH]; intros s Hw; simpl; [done|].
  apply IH.
  apply (append_state_well_formed sid
           (mkState _ _ _ _ _ (Some (_, MAX_DATETIME))) s Hw).
  simpl. eauto.
Qed.

Lemma hyper_loop_head_wf s : loop_head s -> well_formed s.
Proof.
  induction 1 as [s0 Hs|s cl cs q' _ IH Hget Hdone
                 |s cl cs q' stop _ IH Hget Hnew Hstop Ht
                 |s cl cs q' stop s' _ IH Hget Hnew Hstop Ht Hit].
  - by apply hyper_seeded_wf.
  - by apply (hyper_pop_wf s _ q' (stop_done s) IH Hget).
  - by apply (hyper_pop_wf s _ q' (stop_done s) IH Hget).
  - eapply hyper_label_iteration_wf; [exact Hit|]. by eapply hyper_pop_wf.
Qed.

(** The costs of the states of a list whose mode is a trip. *)
Fixpoint trip_costs (state_list : list (State R)) : list R :=
  match state_list with
  | [] => []
  | state :: rest =>
      if is_walk_mode (STATE_DEPARRMODE state) then trip_costs rest
      else match STATE_HYPER state with
           | Some (cost, _) => cost :: trip_costs rest
           | None => trip_costs rest
           end
  end.

Definition sum_weights (costs : list R) : R :=
  foldr (fun c acc => (weight c + acc)%R) 0%R costs.

Lemma nonwalk_sum_spec state_list acc :
  (forall state, state ∈ state_list -> is_Some (STATE_HYPER state)) ->
  nonwalk_sum state_list acc = Ok (acc + sum_weights (trip_costs state_list))%R.
Proof.
  revert acc. induction state_list as [|st l IH]; intros acc Hh; simpl.
  - f_equal. lra.
  - assert (forall state, state ∈ l -> is_Some (STATE_HYPER state)) as Hl
      by (intros; apply Hh, elem_of_cons; by right).
    destruct (is_walk_mode _); [by apply IH|].
    destruct (Hh st) as [[c a] Hc]; [apply elem_of_cons; by left|].
    unfold STATE_COST. rewrite Hc. simpl. rewrite IH by done. f_equal. lra.
Qed.

(** X16. A stop that is popped from the queue at the head of the loop has a
    first state, and the non-walk label of its states can be computed: reading
    [current_stop_state[0]] raises no [IndexError], and neither does reading
    the cost of a state. *)
Theorem popped_stop_has_states s current_label current_stop_id queue' :
  loop_head s ->
  queue_get (stop_queue s) = Some ((current_label, current_stop_id), queue') ->
  exists first rest,
    getlist (stop_states s) current_stop_id = first :: rest
    /\ py_index (first :: rest) 0 = Ok first
    /\ (forall state, state ∈ first :: rest ->
          exists cost arrival, STATE_HYPER state = Some (cost, arrival))
    /\ (DISPERSION_PARAMETER <> 0%R ->
        exists nonwalk_label,
          calculate_nonwalk_label (first :: rest) MAX_COST = Ok nonwalk_label).
Proof.
  intros Hh Hget. destruct (hyper_loop_head_wf s Hh) as [Hq Hs].
  apply hyper_queue_get_spec in Hget as (Hin & _ & _).
  specialize (Hq _ _ Hin). unfold getlist in *.
  destruct (stop_states s !! current_stop_id) as [sl|] eqn:E; [|done].
  simpl in *. destruct (Hs _ _ E) as [_ Hall].
  destruct sl as [|first rest]; [done|]. exists first, rest.
  split; [done|]. split; [done|]. split.
  - intros st Hst. destruct (Hall st Hst) as [[c a] Hc]. eauto.
  - intros Hne. unfold calculate_nonwalk_label.
    rewrite nonwalk_sum_spec by done. simpl.
    destruct (Req_dec_T _ 0); [eauto|].
    destruct (Req_dec_T DISPERSION_PARAMETER 0); [done|eauto].
Qed.

(** *** The end of the search: the end TAZ *)

Definition end_taz_id : Z := if is_outbound then origin_taz else destination_taz.

(** The earliest departure (outbound) or latest arrival (inbound) over the
    states of a stop of the end TAZ. *)
Definition earliest_dep_latest_arr (first : State R) (rest : list (State R)) : Z :=
  fold_left
    (fun acc state =>
       if is_outbound then Z.min acc (STATE_DEPARR state)
       else Z.max acc (STATE_DEPARR state))
    rest (STATE_DEPARR first).

(** The variables of the loop over the access links of the end TAZ.  The
    local [deparr_time] is the one of the loops before: the loop is entered
    with the value they left in it, and a link to a stop without states
    leaves it as it is. *)
Record ending : Type := mkEnding {
  end_taz_state : list (State R);
  end_deparr_time : option Z
}.

(** [Path.WALK_ACCESS_TIME_WEIGHT if path.outbound() else
    Path.WALK_EGRESS_TIME_WEIGHT] *)
Definition end_walk_weight : R :=
  if is_outbound then WALK_ACCESS_TIME_WEIGHT else WALK_EGRESS_TIME_WEIGHT.

(** The body of the loop over the access links of the end TAZ. *)
Definition end_link (s : search) (link : Z * Z) (a : ending) : result ending :=
  let '(stop_id, access_time) := link in
  '(nonwalk_label, deparr_time) ←
    match stop_states s !! stop_id with
    | None => Ok (MAX_COST, end_deparr_time a)
    | Some stop_state =>
        first ← py_index stop_state 0;
        let earliest := earliest_dep_latest_arr first (tail stop_state) in
        nonwalk_label ← calculate_nonwalk_label stop_state MAX_COST;
        Ok (nonwalk_label, Some (earliest - access_time)%Z)
    end;
  let new_cost :=
    (nonwalk_label + end_walk_weight * total_minutes access_time)%R in
  new_label ←
    match last (end_taz_state a) with
    | None => Ok new_cost
    | Some last_state => logsum (STATE_LABEL last_state) new_cost
    end;
  if Rlt_dec new_label MAX_COST then
    if Rgt_dec new_label 0 then
      deparr ← match deparr_time with
               | Some t => Ok t
               | None => Raise UnboundLocalError
               end;
      Ok (mkEnding
            (end_taz_state a
             ++ [mkState new_label deparr (if is_outbound then ACCESS else EGRESS)
                   stop_id access_time (Some (new_cost, MAX_DATETIME))])
            deparr_time)
    else Ok (mkEnding (end_taz_state a) deparr_time)
  else Ok (mkEnding (end_taz_state a) deparr_time).

(** [find_trip_based_hyperpath(FT, path, trace)], on the states of the path
    and the random file: the number of label iterations, and the path, the
    random file and the number of attempts after the choice of the path.
    The states of the search do not record the local [deparr_time], which
    the loop over the start TAZ, the transfers and the trips assign one
    after the other; [deparr_time] is its value when the labeling loop is
    left, [None] when no link, transfer or trip stop has assigned it. *)
Definition find_trip_based_hyperpath (fuel : nat) (deparr_time : option Z)
    (states0 : list (Z * State R)) (rand0 : list Z) : result (Z * choosing) :=
  s0 ← seeded;
  match labeling_loop fuel s0 with
  | OutOfFuel => Raise FuelExhausted
  | Failed e => Raise e
  | Finished s =>
      taz ← getitem tazs end_taz_id;
      a ← for_each (end_link s) (access_links taz) (mkEnding [] deparr_time);
      c ← choose_path fuel (stop_states s) states0 (end_taz_state a) rand0;
      Ok (label_iterations s, c)
  end.

Lemma end_link_nothing s stop_id access_time a :
  well_formed s ->
  trip_costs (getlist (stop_states s) stop_id) = [] ->
  (0 <= end_walk_weight * total_minutes access_time)%R ->
  end_taz_state a = [] ->
  exists a', end_link s (stop_id, access_time) a = Ok a' /\ end_taz_state a' = [].
Proof.
  intros [_ Hs] Hnone Hw Ha. unfold end_link, getlist in *.
  destruct (stop_states s !! stop_id) as [sl|] eqn:E; simpl.
  - destruct (Hs _ _ E) as [Hne Hall]. simpl in Hnone.
    destruct sl as [|first rest]; [done|].
    change (py_index (first :: rest) 0) with (Ok first). simpl.
    unfold calculate_nonwalk_label. rewrite nonwalk_sum_spec by done.
    rewrite Hnone. simpl. rewrite Rplus_0_l.
    destruct (Req_dec_T 0 0) as [_|]; [|done]. simpl.
    rewrite Ha. simpl. destruct (Rlt_dec _ _) as [Hlt|_]; [lra|]. eauto.
  - rewrite Ha. simpl. destruct (Rlt_dec _ _) as [Hlt|_]; [lra|]. eauto.
Qed.

Lemma end_links_nothing s links a :
  well_formed s ->
  (forall stop_id access_time,
     (stop_id, access_time) ∈ links ->
     trip_costs (getlist (stop_states s) stop_id) = []
     /\ (0 <= end_walk_weight * total_minutes access_time)%R) ->
  end_taz_state a = [] ->
  exists a', for_each (end_link s) links a = Ok a' /\ end_taz_state a' = [].
Proof.
  intros Hw. revert a. induction links as [|[sid at_] links IH];
    intros a Hlinks Ha; [simpl; eauto|].
  destruct (Hlinks sid at_) as [Hnone Hnn]; [apply elem_of_cons; by left|].
  cbn [for_each].
  destruct (end_link_nothing s sid at_ a Hw Hnone Hnn Ha) as (a1 & -> & Ha1).
  cbn [mbind result_bind]. apply IH; [|done].
  intros k t Hin. apply Hlinks, elem_of_cons. by right.
Qed.

(** X19. "Nothing found".  When no stop of the end TAZ has a state whose mode
    is a trip (and the walk to the TAZ costs nothing negative), no state is
    made for the TAZ and the search returns without choosing a path: the
    states of the path and the random file are left as they were. *)
Theorem nothing_found_leaves_the_path fuel deparr_time s0 s taz states0 rand0 :
  seeded = Ok s0 ->
  labeling_loop fuel s0 = Finished s ->
  tazs !! end_taz_id = Some taz ->
  (forall stop_id access_time,
     (stop_id, access_time) ∈ access_links taz ->
     trip_costs (getlist (stop_states s) stop_id) = []
     /\ (0 <= end_walk_weight * total_minutes access_time)%R) ->
  find_trip_based_hyperpath fuel deparr_time states0 rand0
    = Ok (label_iterations s, mkChoosing states0 [] rand0 0).
Proof.
  intros Hs Hrun Htaz Hlinks. unfold find_trip_based_hyperpath.
  rewrite Hs. simpl. rewrite Hrun. unfold getitem. rewrite Htaz. simpl.
  destruct (hyper_labeling_loop_head fuel s0 s (head_seeded _ Hs) Hrun) as [Hh _].
  pose proof (hyper_loop_head_wf s Hh) as Hw.
  destruct (end_links_nothing s (access_links taz) (mkEnding [] deparr_time) Hw
              Hlinks eq_refl) as (a' & -> & Ha').
  simpl. rewrite Ha'. done.
Qed.

(** *** Further properties: the sampler's loop ends *)

Lemma sum_exp_raise candidates acc e : sum_exp candidates acc = Raise e -> e = IndexError.
Proof.
  revert acc. induction candidates as [|st l IH]; intros acc H; simpl in H; [done|].
  apply bind_Raise in H as [H|(c & _ & H)]; [|by eapply IH].
  unfold STATE_COST in H. destruct (STATE_HYPER st) as [[? ?]|]; [done|].
  by injection H as <-.
Qed.

Lemma stop_cum_prob_raise denom candidates prev e :
  stop_cum_prob denom candidates prev = Raise e -> e = IndexError.
Proof.
  revert prev. induction candidates as [|st l IH]; intros prev H; simpl in H; [done|].
  apply bind_Raise in H as [H|(c & _ & H)].
  { unfold STATE_COST in H. destruct (STATE_HYPER st) as [[? ?]|]; [done|].
    by injection H as <-. }
  apply bind_Raise in H as [H|(r & _ & H)]; [by eapply IH|done].
Qed.

Lemma get_scheduled_departure_raise rows stop_id e :
  get_scheduled_departure rows stop_id = Raise e -> e = StopNotFound.
Proof.
  induction rows as [|[[rs ra] rd] rows IH]; simpl; [by intros [= <-]|].
  destruct (decide (rs = stop_id)); [done|]. exact IH.
Qed.

Lemma trip_of_mode_raise m e : trip_of_mode m = Raise e -> e = KeyError.
Proof.
  destruct m; simpl; try by intros [= <-].
  intros H. by apply getitem_raise in H as [-> _].
Qed.

Lemma sample_loop_step stop_states fuel a :
  match sample_loop stop_states (S fuel) a with
  | Raise e =>
      e <> FuelExhausted
      \/ exists a', (length (rand a') < length (rand a))%nat
                    /\ sample_loop stop_states fuel a' = Raise e
  | Ok (found, a') =>
      a' = a
      \/ (length (rand a') < length (rand a))%nat
      \/ exists a1, (length (rand a1) < length (rand a))%nat
                    /\ sample_loop stop_states fuel a1 = Ok (found, a')
  end.
Proof.
  simpl.
  destruct (sum_exp _ 0) as [denom|e] eqn:Hd; simpl;
    [|left; by apply sum_exp_raise in Hd as ->].
  destruct (bool_decide _); [by left|].
  destruct (stop_cum_prob _ _ _) as [cum|e] eqn:Hc; simpl;
    [|left; by apply stop_cum_prob_raise in Hc as ->].
  destruct (Choice.choose_state cum (rand a)) as [[next rand']|e] eqn:Hch; simpl;
    [|left; by eapply Choice.choose_state_raise].
  apply Choice.choose_state_draws in Hch as [r Hr].
  match goal with
  | |- context [mbind _ ?x] => destruct x as [[ps1 tz1]|e] eqn:Hrev
  end; simpl.
  2:{ left. destruct (_ && _); [|done].
      apply bind_Raise in Hrev as [H|(trip & _ & Hrev)];
        [by apply trip_of_mode_raise in H as ->|].
      apply bind_Raise in Hrev as [H|(dep & _ & Hrev)];
        [by apply get_scheduled_departure_raise in H as ->|].
      apply bind_Raise in Hrev as [H|(st & _ & Hrev)]; [|done].
      by apply getassoc_raise in H as [-> _]. }
  match goal with
  | |- context [mbind _ ?x] => destruct x as [new_arrdep|e] eqn:Harr
  end; simpl.
  2:{ left. destruct (bool_decide (STATE_DEPARRMODE next = TRANSFER)); [done|].
      unfold STATE_ARRIVAL in Harr.
      destruct (STATE_HYPER next) as [[? ?]|]; [done|]. by injection Harr as <-. }
  destruct (_ || _).
  - right. left. simpl. rewrite Hr. simpl. lia.
  - match goal with
    | |- context [sample_loop stop_states fuel ?x] =>
        destruct (sample_loop stop_states fuel x) as [[found a']|e] eqn:Hrec
    end.
    + right. right. eexists. split; [|exact Hrec]. simpl. rewrite Hr. simpl. lia.
    + right. eexists. split; [|exact Hrec]. simpl. rewrite Hr. simpl. lia.
Qed.

Lemma sample_loop_ends stop_states fuel a :
  (length (rand a) < fuel)%nat ->
  match sample_loop stop_states fuel a with
  | Raise e => e <> FuelExhausted
  | Ok (found, a') => (length (rand a') <= length (rand a))%nat
  end.
Proof.
  revert a. induction fuel as [|fuel IH]; intros a Hlen; [lia|].
  pose proof (sample_loop_step stop_states fuel a) as Hstep.
  destruct (sample_loop stop_states (S fuel) a) as [[found a']|e].
  - destruct Hstep as [->|[Hlt|(a1 & Hlt & Hrec)]]; [lia|lia|].
    specialize (IH a1). rewrite Hrec in IH. specialize (IH ltac:(lia)). lia.
  - destruct Hstep as [Hne|(a1 & Hlt & Hrec)]; [done|].
    specialize (IH a1). rewrite Hrec in IH. apply IH. lia.
Qed.

Lemma access_cum_prob_raise taz_label idx taz_state0 acc e :
  access_cum_prob taz_label idx taz_state0 acc = Raise e -> e = IndexError.
Proof.
  revert idx acc. induction taz_state0 as [|st l IH]; intros idx acc H;
    simpl in H; [done|].
  apply bind_Raise in H as [H|(c & _ & H)].
  { unfold STATE_COST in H. destruct (STATE_HYPER st) as [[? ?]|]; [done|].
    by injection H as <-. }
  destruct (_ <? 1)%Z; by eapply IH.
Qed.

Lemma choose_path_from_states_ends fuel stop_states states0 taz_state0 rand0 :
  (length rand0 <= fuel)%nat ->
  match choose_path_from_hyperpath_states fuel stop_states states0 taz_state0 rand0
  with
  | Raise e => e <> FuelExhausted
  | Ok (_, _, _, rand1) => (length rand1 <= length rand0)%nat
  end.
Proof.
  intros Hlen. unfold choose_path_from_hyperpath_states.
  destruct (py_last taz_state0) as [final|e] eqn:Hf; simpl;
    [|by apply py_last_raise in Hf as [-> _]].
  destruct (access_cum_prob _ _ _ _) as [cum|e] eqn:Hc; simpl;
    [|by apply access_cum_prob_raise in Hc as ->].
  destruct (Choice.choose_state cum rand0) as [[idx rand']|e] eqn:Hch; simpl;
    [|by eapply Choice.choose_state_raise].
  apply Choice.choose_state_draws in Hch as [r ->].
  destruct (taz_state0 !! idx) as [start|]; simpl; [|done].
  match goal with
  | |- context [sample_loop stop_states fuel ?x] =>
      pose proof (sample_loop_ends stop_states fuel x) as Hs;
      destruct (sample_loop stop_states fuel x) as [[found a]|e]
  end; simpl in *.
  - specialize (Hs ltac:(lia)). lia.
  - apply Hs. lia.
Qed.

Lemma delay_raise states0 e :
  delay_inbound_path_departure states0 = Raise e -> e <> FuelExhausted.
Proof.
  unfold delay_inbound_path_departure. intros H.
  apply bind_Raise in H as [H|([k st] & _ & H)];
    [by apply py_index_raise in H as ->|].
  apply bind_Raise in H as [H|(trip & _ & H)];
    [by apply trip_of_mode_raise in H as ->|].
  apply bind_Raise in H as [H|(da & _ & H)];
    [by apply get_scheduled_departure_raise in H as ->|].
  apply bind_Raise in H as [H|(db & _ & H)];
    [by apply get_scheduled_departure_raise in H as ->|].
  apply bind_Raise in H as [H|([k2 st2] & _ & H)];
    [by apply py_index_raise in H as ->|].
  destruct (bump_wait !! _); [|done]. by destruct (_ <=? _)%Z.
Qed.

Lemma attempt_ends fuel stop_states c :
  (length (chosen_rand c) <= fuel)%nat ->
  match attempt fuel stop_states c with
  | Raise e => e <> FuelExhausted
  | Ok (_, c') => (length (chosen_rand c') <= length (chosen_rand c))%nat
  end.
Proof.
  intros Hlen. unfold attempt.
  pose proof (choose_path_from_states_ends fuel stop_states (chosen_states c)
                (chosen_taz_state c) (chosen_rand c) Hlen) as Hc.
  destruct (choose_path_from_hyperpath_states _ _ _ _ _)
    as [[[[found st1] tz1] r1]|e]; simpl; [|done].
  destruct (negb found); [done|].
  destruct (negb is_outbound && _); simpl; [|done].
  destruct (delay_inbound_path_departure st1) as [st2|e] eqn:Hd; simpl; [done|].
  by eapply delay_raise.
Qed.

Lemma choose_loop_ends fuel stop_states remaining c :
  (length (chosen_rand c) <= fuel)%nat ->
  choose_loop fuel stop_states remaining c <> Raise FuelExhausted.
Proof.
  revert c. induction remaining as [|n IH]; intros c Hlen; simpl; [done|].
  pose proof (attempt_ends fuel stop_states c Hlen) as Ha.
  destruct (attempt fuel stop_states c) as [[[|] c']|e]; [done| |congruence].
  apply IH. lia.
Qed.

(** X20. The [while True] loop of the sampler draws a random number on every
    pass that goes on, so a pass count of the numbers left in the random file
    is enough for it to end: with a path, at a dead end, or with an exception
    of the program (at the latest the [ValueError] of the end of the file).
    The same holds for the whole choice of the path. *)
Theorem sampler_loop_ends fuel stop_states :
  (forall a, (length (rand a) < fuel)%nat ->
     sample_loop stop_states fuel a <> Raise FuelExhausted)
  /\ (forall states0 taz_state0 rand0,
        (length rand0 <= fuel)%nat ->
        choose_path fuel stop_states states0 taz_state0 rand0
          <> Raise FuelExhausted).
Proof.
  split.
  - intros a Hlen H. pose proof (sample_loop_ends stop_states fuel a Hlen) as Hs.
    rewrite H in Hs. done.
  - intros states0 taz_state0 rand0 Hlen. unfold choose_path.
    destruct (bool_decide _); [done|]. by apply choose_loop_ends.
Qed.

(** The delay of the hyperpath search is the one of [Departure]. *)
Lemma hyper_delay_is_departure states0 :
  delay_inbound_path_departure states0
  = Departure.delay_inbound_path_departure trips BUMP_BUFFER bump_wait preferred
      states0.
Proof. reflexivity. Qed.

End search.

End Hyperpath.

(** *** A worked hyperpath search

    With [theta = 1], unit weights, no fare and no transfer penalty, an
    OUTBOUND request to arrive at TAZ 200 by 08:00.  Stop 30 is five minutes
    from the TAZ; trip 7 leaves stop 10 at 07:40 and reaches stop 30 at
    07:50; stops 10 and 20 are two minutes apart on foot. *)

Module ExampleHyperpath.

Import Example.

Definition tazs : gmap Z TAZ := {[200%Z := mkTAZ [(30%Z, minutes 5)]]}.

Definition stop30 : Stop :=
  mkStop [] true (ExampleSearch.arriving [(7%Z, 2%Z, hm 7 50)]) (fun _ _ => []).
Definition stop10 : Stop :=
  mkStop [(20%Z, minutes 2)] true (ExampleSearch.arriving []) (fun _ _ => []).
Definition stop20 : Stop :=
  mkStop [(10%Z, minutes 2)] true (ExampleSearch.arriving []) (fun _ _ => []).

Definition stops : gmap Z Stop :=
  <[30%Z := stop30]> (<[10%Z := stop10]> {[20%Z := stop20]}).

Definition trip7 : Trip :=
  mkTrip [(10%Z, hm 7 40, hm 7 40); (30%Z, hm 7 50, hm 7 50)] 40.

Definition trips : gmap Z Trip := {[7%Z := trip7]}.

Definition window : Z := minutes 30.

(** The seeded state: stop 30 by the egress link, at cost 6. *)
Definition cost30 : R := (1 + 1 * Hyperpath.total_minutes (minutes 5))%R.

Definition at30 : State R :=
  mkState cost30 (hm 8 0 - minutes 5 * 1)%Z EGRESS 200 (minutes 5)
    (Some (cost30, Hyperpath.MAX_DATETIME)).

Definition seeds : Hyperpath.search :=
  Hyperpath.mkSearch (<[30%Z := [at30]]> ∅) [(cost30, 30%Z)] ∅ ∅ 0.

Lemma hyperpath_seeds_seeded :
  Hyperpath.seeded tazs 1 1 OUTBOUND 100 200 (hm 8 0) = Ok seeds.
Proof. reflexivity. Qed.

Lemma queue_get_singleton x : Hyperpath.queue_get [x] = Some (x, []).
Proof.
  unfold Hyperpath.queue_get. simpl. unfold Hyperpath.entry_eqb.
  destruct (Req_dec_T x.1 x.1) as [_|Hne]; [|done]. by rewrite Z.eqb_refl.
Qed.

Lemma add_state_eq stop_id state s :
  (0 < STATE_LABEL state < Hyperpath.MAX_COST)%R ->
  Hyperpath.add_state stop_id state s
  = Hyperpath.set_stop_queue
      (Hyperpath.queue_put (STATE_LABEL state, stop_id) (Hyperpath.stop_queue s))
      (Hyperpath.set_stop_states
         (append_at (Hyperpath.stop_states s) stop_id state) s).
Proof.
  intros [Hpos Hlt]. unfold Hyperpath.add_state.
  destruct (Rlt_dec _ _) as [_|]; [|done].
  by destruct (Rgt_dec _ _) as [_|Hn]; [|destruct Hn].
Qed.

(** The label iteration of stop 30: trip 7 labels stop 10, at cost 21. *)
Definition popped30 : Hyperpath.search :=
  Hyperpath.set_stop_done ({[30%Z]} ∪ Hyperpath.stop_done seeds)
    (Hyperpath.set_stop_queue [] seeds).

Definition cost10 : R :=
  (cost30 + Hyperpath.total_minutes ((hm 7 50 - hm 7 40) * 1)
   + 1 * Hyperpath.total_minutes ((hm 8 0 - minutes 5 * 1 - hm 7 50) * 1)
   + 0 * 60 / 1)%R.

Definition at10 : State R :=
  mkState cost10 (hm 7 40) (TRIP 7) 30
    ((hm 7 50 - hm 7 40) * 1 + (hm 8 0 - minutes 5 * 1 - hm 7 50) * 1)%Z
    (Some (cost10, hm 7 50)).

Definition labelled30 : Hyperpath.search :=
  Hyperpath.mkSearch (<[10%Z := [at10]]> (<[30%Z := [at30]]> ∅))
    [(cost10, 10%Z)] ({[30%Z]} ∪ ∅) ({[7%Z]} ∪ ∅) (0 + 1).

Lemma cost30_value : cost30 = 6%R.
Proof.
  unfold cost30, Hyperpath.total_minutes. change (minutes 5) with 300000000%Z. lra.
Qed.

Lemma cost10_value : cost10 = 21%R.
Proof.
  unfold cost10. rewrite cost30_value. unfold Hyperpath.total_minutes.
  change ((hm 7 50 - hm 7 40) * 1)%Z with 600000000%Z.
  change ((hm 8 0 - minutes 5 * 1 - hm 7 50) * 1)%Z with 300000000%Z. lra.
Qed.

Lemma at10_label : (0 < STATE_LABEL at10 < Hyperpath.MAX_COST)%R.
Proof. simpl. rewrite cost10_value. unfold Hyperpath.MAX_COST. lra. Qed.

Lemma relax_trip30 :
  Hyperpath.relax_trip trips 1 1 1 0 1 0 OUTBOUND cost30 30 EGRESS
    (hm 8 0 - minutes 5 * 1) (7%Z, 2%Z, hm 7 50) popped30
  = Ok (Hyperpath.add_state 10 at10
          (Hyperpath.set_trips_used ({[7%Z]} ∪ Hyperpath.trips_used popped30)
             popped30)).
Proof.
  unfold Hyperpath.relax_trip.
  rewrite decide_False by (simpl; set_solver).
  change (if Hyperpath.is_outbound OUTBOUND then _ else _) with (Ok [1%Z]).
  cbn [mbind result_bind for_each].
  unfold Hyperpath.relax_trip_stop.
  change (getitem trips 7%Z) with (Ok trip7).
  cbn [mbind result_bind].
  change (py_index (trip_stops trip7) (1 - 1)) with (Ok (10%Z, hm 7 40, hm 7 40)).
  cbn [mbind result_bind].
  change (Hyperpath.stop_states _ !! 10%Z) with (@None (list (State R))).
  cbn [mbind result_bind is_access_egress].
  destruct (Req_dec_T 1 0) as [H|_]; [lra|].
  cbn [mbind result_bind].
  unfold Hyperpath.new_label_at.
  change (Hyperpath.stop_states _ !! 10%Z) with (@None (list (State R))).
  reflexivity.
Qed.

Lemma iteration30 :
  Hyperpath.label_iteration stops trips window 1 1 1 1 0 1 0 OUTBOUND cost30 30
    popped30
  = Ok labelled30.
Proof.
  unfold Hyperpath.label_iteration.
  change (getlist _ 30%Z) with [at30].
  change (py_index [at30] 0) with (Ok at30).
  cbn [mbind result_bind STATE_DEPARRMODE at30 tail].
  unfold Hyperpath.update_by_transfer.
  cbn [is_access_egress mbind result_bind].
  unfold Hyperpath.update_by_trips.
  change (getitem stops 30%Z) with (Ok stop30).
  cbn [mbind result_bind].
  change (if Hyperpath.is_outbound OUTBOUND then _ else _)
    with [(7%Z, 2%Z, hm 7 50)].
  cbn [for_each mbind result_bind].
  change (Hyperpath.latest_dep_earliest_arr OUTBOUND at30 [])
    with (hm 8 0 - minutes 5 * 1)%Z.
  rewrite relax_trip30. cbn [mbind result_bind].
  rewrite add_state_eq by apply at10_label.
  reflexivity.
Qed.

(** The label iteration of stop 10, whose mode is trip 7: the transfer to
    stop 20 is relaxed, at cost 23. *)
Definition popped10 : Hyperpath.search :=
  Hyperpath.set_stop_done ({[10%Z]} ∪ Hyperpath.stop_done labelled30)
    (Hyperpath.set_stop_queue [] labelled30).

Definition nonwalk10 : R := (-1 / 1 * ln (0 + Hyperpath.weight 1 cost10))%R.

Definition cost20 : R := (nonwalk10 + 1 * Hyperpath.total_minutes (minutes 2))%R.

Definition at20 : State R :=
  mkState cost20 (hm 7 40 - minutes 2 * 1)%Z TRANSFER 10 (minutes 2)
    (Some (cost20, Hyperpath.MAX_DATETIME)).

Definition labelled10 : Hyperpath.search :=
  Hyperpath.mkSearch
    (<[20%Z := [at20]]> (<[10%Z := [at10]]> (<[30%Z := [at30]]> ∅)))
    [(cost20, 20%Z)] ({[10%Z]} ∪ ({[30%Z]} ∪ ∅)) ({[7%Z]} ∪ ∅) (0 + 1 + 1).

Lemma nonwalk10_value : nonwalk10 = 21%R.
Proof.
  unfold nonwalk10, Hyperpath.weight. rewrite Rplus_0_l, ln_exp, cost10_value. lra.
Qed.

Lemma cost20_value : cost20 = 23%R.
Proof.
  unfold cost20. rewrite nonwalk10_value. unfold Hyperpath.total_minutes.
  change (minutes 2) with 120000000%Z. lra.
Qed.

Lemma at20_label : (0 < STATE_LABEL at20 < Hyperpath.MAX_COST)%R.
Proof. simpl. rewrite cost20_value. unfold Hyperpath.MAX_COST. lra. Qed.

Lemma nonwalk_at10 :
  Hyperpath.calculate_nonwalk_label 1 [at10] Hyperpath.MAX_COST = Ok nonwalk10.
Proof.
  unfold Hyperpath.calculate_nonwalk_label.
  cbn [Hyperpath.nonwalk_sum is_walk_mode STATE_DEPARRMODE at10 Hyperpath.STATE_COST
       STATE_HYPER mbind result_bind].
  destruct (Req_dec_T _ 0) as [H0|_].
  { pose proof (Hyperpath.weight_pos 1 cost10). lra. }
  destruct (Req_dec_T 1 0) as [H1|_]; [lra|]. done.
Qed.

Lemma iteration10 :
  Hyperpath.label_iteration stops trips window 1 1 1 1 0 1 0 OUTBOUND cost10 10
    popped10
  = Ok labelled10.
Proof.
  unfold Hyperpath.label_iteration.
  change (getlist _ 10%Z) with [at10].
  change (py_index [at10] 0) with (Ok at10).
  cbn [mbind result_bind STATE_DEPARRMODE at10 tail].
  unfold Hyperpath.update_by_transfer.
  cbn [is_access_egress]. rewrite nonwalk_at10.
  change (getitem stops 10%Z) with (Ok stop10).
  cbn [mbind result_bind for_each transfers stop10].
  unfold Hyperpath.relax_transfer, Hyperpath.new_label_at.
  change (Hyperpath.stop_states popped10 !! 20%Z) with (@None (list (State R))).
  cbn [mbind result_bind].
  change (Hyperpath.latest_dep_earliest_arr OUTBOUND at10 []) with (hm 7 40).
  fold cost20. change (hm 7 40 - minutes 2 * Hyperpath.dir OUTBOUND)%Z
    with (hm 7 40 - minutes 2 * 1)%Z. fold at20.
  rewrite add_state_eq by apply at20_label.
  unfold Hyperpath.update_by_trips.
  change (getitem stops 10%Z) with (Ok stop10).
  reflexivity.
Qed.

Lemma labelled10_head :
  Hyperpath.loop_head tazs stops trips window 1 1 1 1 1 1 0 1 0 OUTBOUND
    100 200 (hm 8 0) labelled10.
Proof.
  eapply (Hyperpath.head_labeled _ _ _ _ _ _ _ _ _ _ _ _ _ _ _ _ _
            labelled30 cost10 10%Z [] stop10).
  - eapply (Hyperpath.head_labeled _ _ _ _ _ _ _ _ _ _ _ _ _ _ _ _ _
              seeds cost30 30%Z [] stop30).
    + apply Hyperpath.head_seeded, hyperpath_seeds_seeded.
    + apply queue_get_singleton.
    + simpl. set_solver.
    + reflexivity.
    + reflexivity.
    + apply iteration30.
  - apply queue_get_singleton.
  - simpl. set_solver.
  - reflexivity.
  - reflexivity.
  - apply iteration10.
Qed.

(** Stop 20 is popped next; its only state is the transfer from stop 10.
    The cost and the state of the transfer from stop 20 back to stop 10. *)
Definition popped20 : Hyperpath.search :=
  Hyperpath.set_stop_done ({[20%Z]} ∪ Hyperpath.stop_done labelled10)
    (Hyperpath.set_stop_queue [] labelled10).

Definition back_cost : R :=
  (Hyperpath.MAX_COST + 1 * Hyperpath.total_minutes (minutes 2))%R.

Definition back : State R :=
  mkState (Hyperpath.logsum_spec 1 cost10 back_cost)
    (hm 7 40 - minutes 2 * 1 - minutes 2 * 1)%Z
    TRANSFER 20 (minutes 2) (Some (back_cost, Hyperpath.MAX_DATETIME)).

Lemma popped20_at10 : Hyperpath.stop_states popped20 !! 10%Z = Some [at10].
Proof. reflexivity. Qed.

Lemma nonwalk_at20 :
  Hyperpath.calculate_nonwalk_label 1 [at20] Hyperpath.MAX_COST
    = Ok Hyperpath.MAX_COST.
Proof.
  unfold Hyperpath.calculate_nonwalk_label.
  cbn [Hyperpath.nonwalk_sum is_walk_mode STATE_DEPARRMODE at20 mbind result_bind].
  by destruct (Req_dec_T 0 0).
Qed.

Lemma relax_back :
  Hyperpath.relax_transfer 1 1 OUTBOUND 20 Hyperpath.MAX_COST
    (hm 7 40 - minutes 2 * 1) (10%Z, minutes 2) popped20
  = Ok (Hyperpath.add_state 10 back popped20).
Proof.
  unfold Hyperpath.relax_transfer, Hyperpath.new_label_at.
  rewrite popped20_at10.
  cbn [py_last last mbind result_bind STATE_LABEL at10].
  fold back_cost. rewrite Hyperpath.logsum_eq by lra. done.
Qed.

Lemma back_label : (0 < STATE_LABEL back < Hyperpath.MAX_COST)%R.
Proof.
  split; [apply Hyperpath.logsum_spec_pos|].
  apply Hyperpath.logsum_spec_lt; [lra|]. apply at10_label.
Qed.

Lemma back_stored :
  Hyperpath.stop_states (Hyperpath.add_state 10 back popped20) !! 10%Z
    = Some [at10; back]
  /\ Hyperpath.stop_queue (Hyperpath.add_state 10 back popped20)
     = [(STATE_LABEL back, 10%Z)].
Proof. rewrite add_state_eq by apply back_label. split; reflexivity. Qed.

End ExampleHyperpath.

(** C4.  The hyperpath search relaxes a transfer out of a stop whose mode is
    TRANSFER, against the comment of its own guard ("We don't want to
    transfer to egress or transfer to a transfer") and against the guard of
    the deterministic search.  In the worked search stop 20 is popped with
    TRANSFER as its current mode and its only state; its non-walk label is
    [MAX_COST], which is meant to keep the transfer out, but the log-sum
    with the label of stop 10 is below [MAX_COST]: stop 10 receives a second
    state, a transfer from stop 20, and goes on the queue. *)
Lemma transfer_relaxed_out_of_transfer_stop :
  Hyperpath.loop_head ExampleHyperpath.tazs ExampleHyperpath.stops
    ExampleHyperpath.trips ExampleHyperpath.window 1 1 1 1 1 1 0 1 0 OUTBOUND
    100 200 (Example.hm 8 0) ExampleHyperpath.labelled10
  /\ Hyperpath.queue_get (Hyperpath.stop_queue ExampleHyperpath.labelled10)
     = Some ((ExampleHyperpath.cost20, 20%Z), [])
  /\ (20%Z ∉ Hyperpath.stop_done ExampleHyperpath.labelled10)
  /\ getlist (Hyperpath.stop_states ExampleHyperpath.popped20) 20%Z
     = [ExampleHyperpath.at20]
  /\ STATE_DEPARRMODE ExampleHyperpath.at20 = TRANSFER
  /\ Hyperpath.update_by_transfer ExampleHyperpath.stops 1 1 OUTBOUND 20
       [ExampleHyperpath.at20] (STATE_DEPARRMODE ExampleHyperpath.at20)
       (STATE_DEPARR ExampleHyperpath.at20) ExampleHyperpath.popped20
     = Ok (Hyperpath.add_state 10 ExampleHyperpath.back ExampleHyperpath.popped20)
  /\ Hyperpath.stop_states
       (Hyperpath.add_state 10 ExampleHyperpath.back ExampleHyperpath.popped20)
       !! 10%Z
     = Some [ExampleHyperpath.at10; ExampleHyperpath.back]
  /\ STATE_DEPARRMODE ExampleHyperpath.back = TRANSFER
  /\ STATE_SUCCPRED ExampleHyperpath.back = 20%Z
  /\ Hyperpath.add_state 10 ExampleHyperpath.back ExampleHyperpath.popped20
     <> ExampleHyperpath.popped20.
Proof.
  split; [apply ExampleHyperpath.labelled10_head|].
  split; [apply ExampleHyperpath.queue_get_singleton|].
  split; [simpl; set_solver|].
  split; [reflexivity|]. split; [reflexivity|].
  split; [|split; [|split; [|split]]]; try done.
  - unfold Hyperpath.update_by_transfer.
    change (is_access_egress (STATE_DEPARRMODE ExampleHyperpath.at20)) with false.
    rewrite ExampleHyperpath.nonwalk_at20.
    change (getitem ExampleHyperpath.stops 20%Z) with (Ok ExampleHyperpath.stop20).
    cbn [mbind result_bind for_each transfers ExampleHyperpath.stop20].
    change (STATE_DEPARR ExampleHyperpath.at20)
      with (Example.hm 7 40 - Example.minutes 2 * 1)%Z.
    by rewrite ExampleHyperpath.relax_back.
  - apply ExampleHyperpath.back_stored.
  - intros Heq.
    pose proof (proj1 ExampleHyperpath.back_stored) as H. rewrite Heq in H.
    rewrite ExampleHyperpath.popped20_at10 in H. discriminate H.
Qed.

(** The guards at work: the deterministic search relaxes no transfer out of
    the access-moded stop of the worked search, and the hyperpath search
    sends the transfer of stop 20 through the relaxation. *)
Lemma transfer_relaxation_guards_witness :
  ShortestPath.update_by_transfer ExampleSearch.stops ExampleSearch.window
    (Example.minutes 5) ExampleSearch.bump_wait ExampleSearch.request
    (Example.minutes 5) 10 ExampleSearch.access_state ExampleSearch.popped
  = Ok ExampleSearch.popped
  /\ Hyperpath.update_by_transfer ExampleHyperpath.stops 1 1 OUTBOUND 20
       [ExampleHyperpath.at20] TRANSFER (Example.hm 7 38)
       ExampleHyperpath.popped20
     = for_each
         (Hyperpath.relax_transfer 1 1 OUTBOUND 20 Hyperpath.MAX_COST
            (Example.hm 7 38))
         [(10%Z, Example.minutes 2)] ExampleHyperpath.popped20.
Proof.
  destruct (Hyperpath.transfer_relaxation_guards ExampleHyperpath.stops 1 1 OUTBOUND)
    as (Hdet & _ & _ & Hhp).
  split.
  - apply Hdet. reflexivity.
  - apply (Hhp 20%Z [ExampleHyperpath.at20] TRANSFER (Example.hm 7 38)
             ExampleHyperpath.popped20 Hyperpath.MAX_COST ExampleHyperpath.stop20).
    + reflexivity.
    + apply ExampleHyperpath.nonwalk_at20.
    + reflexivity.
Defined.

(** *** A worked sampling: a hyperpath with a dead end

    The TAZ has one state, an access link to stop 10, and stop 10 has no
    state at all: every attempt chooses the access link and then finds the
    candidate set of stop 10 empty. *)

Module ExampleSampling.

Import Example.

Definition at_taz : State R :=
  mkState 10%R (hm 7 20) ACCESS 10 (minutes 5)
    (Some (10%R, Hyperpath.MAX_DATETIME)).

Lemma py_int_IZR z : Hyperpath.py_int (IZR z) = z.
Proof.
  unfold Hyperpath.py_int. destruct (Rle_dec 0 (IZR z)) as [Hle|Hlt].
  - symmetry. apply Int_part_spec. lra.
  - rewrite <- opp_IZR. rewrite <- (Int_part_spec (IZR (- z)) (- z)%Z); [lia|lra].
Qed.

Lemma attempt_fails states0 rand0 k :
  Hyperpath.attempt ∅ 0 1 ∅ OUTBOUND 100 200 (hm 8 0) 1 ∅
    (Hyperpath.mkChoosing states0 [at_taz] (0%Z :: rand0) k)
  = Ok (false, Hyperpath.mkChoosing [] [at_taz] rand0 (k + 1)%Z).
Proof.
  unfold Hyperpath.attempt, Hyperpath.choose_path_from_hyperpath_states.
  cbn [Hyperpath.chosen_states Hyperpath.chosen_taz_state Hyperpath.chosen_rand
       Hyperpath.attempts py_last last at_taz mbind result_bind STATE_LABEL
       Hyperpath.access_cum_prob Hyperpath.STATE_COST STATE_HYPER].
  replace (1000 * Hyperpath.weight 1 10 / Hyperpath.weight 1 10)%R with (IZR 1000).
  2:{ pose proof (Hyperpath.weight_pos 1 10). field. lra. }
  rewrite py_int_IZR.
  cbn -[Hyperpath.feasible].
  done.
Qed.

Lemma all_attempts_fail n states0 k :
  Hyperpath.all_fail ∅ 0 1 ∅ OUTBOUND 100 200 (hm 8 0) 1 ∅ n
    (Hyperpath.mkChoosing states0 [at_taz] (replicate n 0%Z) k).
Proof.
  revert states0 k. induction n as [|n IH]; intros states0 k; simpl; [done|].
  eexists. split; [apply attempt_fails|]. apply IH.
Qed.

End ExampleSampling.

(** In the worked sampling all 1001 attempts fail and the search returns
    with a path without states. *)
Lemma sampling_attempts_witness :
  exists c,
    Hyperpath.choose_path ∅ 0 1 ∅ OUTBOUND 100 200 (Example.hm 8 0) 1 ∅
      [] [ExampleSampling.at_taz] (replicate 1001 0%Z) = Ok c
    /\ Hyperpath.chosen_states c = []
    /\ Hyperpath.attempts c = 1001%Z.
Proof.
  destruct (Hyperpath.sampling_attempts ∅ 0 1 ∅ OUTBOUND 100 200 (Example.hm 8 0)
              1 ∅) as (_ & _ & _ & _ & _ & Hall).
  apply (Hall [] [ExampleSampling.at_taz] (replicate 1001 0%Z)).
  - discriminate.
  - apply ExampleSampling.all_attempts_fail.
Defined.

(** ** Further worked examples *)

(** *** The event pass of the two passengers, stopped early

    Before trip 7 calls, another vehicle calls at stop 30 at 07:31: by then
    passenger 1 has walked to stop 10 and waits there, passenger 2 is still
    on the way. *)

Module ExampleEvents.

Import Example.

Definition early_events : list Simulator.Event :=
  [ Simulator.mkEvent 8 30 (hm 7 31) Simulator.EVENT_TYPE_ARRIVAL;
    Simulator.mkEvent 8 30 (hm 7 31) Simulator.EVENT_TYPE_DEPARTURE ].

Definition early : @Simulator.sim Z :=
  ok_or start (Simulator.run_events passengers trips dwell true early_events start).

Lemma early_run :
  Simulator.run_events passengers trips dwell true early_events start = Ok early.
Proof. vm_compute. reflexivity. Qed.

Lemma early_point : Simulator.point passengers trips dwell true start early.
Proof.
  eapply Simulator.run_events_point; [apply Simulator.point_start|apply early_run].
Qed.

Lemma early_waiting : 1%Z ∈ getlist (Simulator.stop_pax early) 10%Z.
Proof. apply (bool_decide_unpack _). vm_compute. exact I. Qed.

Lemma finish_point : Simulator.point passengers trips dwell true start finish.
Proof.
  eapply Simulator.run_events_point; [apply Simulator.point_start|apply finish_run].
Qed.

(** The departure of trip 7 from stop 10, met before any of its arrivals. *)
Definition leaving : Simulator.Event :=
  Simulator.mkEvent 7 10 (hm 7 35) Simulator.EVENT_TYPE_DEPARTURE.

End ExampleEvents.

(** Passenger 1, waiting at stop 10 at 07:31, has the arrival on record. *)
Lemma waiting_passenger_has_arrival_witness :
  exists arrival,
    py_last (getlist (Simulator.passenger_arrivals ExampleEvents.early) 1%Z)
      = Ok arrival.
Proof.
  apply (Simulator.waiting_passenger_has_arrival Example.passengers Example.trips
           Example.goes_somewhere Example.path_found Example.dwell true ∅
           Example.start ExampleEvents.early 10%Z 1%Z).
  - apply Example.start_started.
  - apply ExampleEvents.early_point.
  - apply ExampleEvents.early_waiting.
Defined.

(** Met as the first event, the departure of trip 7 raises [IndexError]. *)
Lemma departure_before_arrival_witness :
  Simulator.process_event Example.passengers Example.trips Example.dwell true
    ExampleEvents.leaving Example.start
  = Raise IndexError.
Proof.
  destruct (Simulator.departure_before_arrival Example.passengers Example.trips
              Example.goes_somewhere Example.path_found Example.dwell true
              ExampleEvents.leaving eq_refl) as [Hev _].
  destruct (Hev Example.start) as [_ Hraise]; [vm_compute; reflexivity|].
  eapply Hraise; [vm_compute; reflexivity|vm_compute; reflexivity|reflexivity].
Defined.

(** At the end of the worked pass trip 7 is empty: one board, one alight. *)
Lemma load_is_boards_less_alights_witness :
  Z.of_nat (length (Simulator.on_board Example.finish 7))
  = (total (getlist (Simulator.trip_boards Example.finish) 7%Z)
     - total (getlist (Simulator.trip_alights Example.finish) 7%Z))%Z.
Proof.
  apply (Simulator.load_is_boards_less_alights Example.passengers Example.trips
           Example.goes_somewhere Example.path_found Example.dwell true ∅
           Example.start Example.events Example.finish).
  - apply Example.start_started.
  - apply Example.finish_run.
Defined.

(** At the end of the worked pass the two passengers are accounted for: one
    arrived, one bumped. *)
Lemma passengers_are_conserved_witness :
  Simulator.accounted Example.finish = 2%Z
  /\ (Simulator.passengers_arrived Example.finish
      + Simulator.passengers_bumped Example.finish <= 2)%Z.
Proof.
  destruct (Simulator.passengers_are_conserved Example.passengers Example.trips
              Example.goes_somewhere Example.path_found Example.dwell true ∅
              Example.start Example.start_started) as [Hpoint _].
  destruct (Hpoint Example.finish ExampleEvents.finish_point) as (Hacc & _ & _ & Hle).
  split; [exact Hacc|exact Hle].
Defined.

(** *** The deterministic search to its end

    The request of the worked search, from TAZ 100 to TAZ 200, is answered
    with trip 9; a request to TAZ 300, whose stops are stop 10, reached on
    foot only, and stop 30, which no trip serves, finds nothing. *)

Module ExampleRoutes.

Import Example ExampleSearch.

Definition searched : ShortestPath.search :=
  match ShortestPath.labeling_loop stops trips window (minutes 5) bump_wait request
          12 seeds with
  | ShortestPath.Finished s => s
  | _ => seeds
  end.

Lemma searched_finished :
  ShortestPath.labeling_loop stops trips window (minutes 5) bump_wait request 12 seeds
  = ShortestPath.Finished searched.
Proof. vm_compute. reflexivity. Qed.

Lemma seeds_links_distinct : ShortestPath.links_distinct tazs request.
Proof.
  intros taz H. vm_compute in H. injection H as <-. simpl.
  apply NoDup_singleton.
Qed.

Example shortest_path_found :
  ShortestPath.find_trip_based_shortest_path tazs stops trips window (minutes 5)
    bump_wait request 12
  = Ok (2%Z,
        [ (200%Z, mkState (minutes 35) (hm 8 0) EGRESS 20 (minutes 5) None);
          (20%Z, mkState (minutes 30) (hm 7 55) (TRIP 9) 10 (minutes 15) None);
          (10%Z, mkState (minutes 5) (hm 7 40) ACCESS 100 (minutes 5) None) ]).
Proof. vm_compute. reflexivity. Qed.

Definition far_tazs : gmap Z TAZ :=
  <[300%Z := mkTAZ [(10%Z, minutes 7); (30%Z, minutes 5)]]> tazs.

Definition far_request : Path Z := mkPath 100 300 (hm 7 25) INBOUND [].

Definition far_seeds : ShortestPath.search :=
  ok_or ShortestPath.empty_search (ShortestPath.seeded far_tazs far_request).

Lemma far_seeds_seeded : ShortestPath.seeded far_tazs far_request = Ok far_seeds.
Proof. vm_compute. reflexivity. Qed.

Definition far_searched : ShortestPath.search :=
  match ShortestPath.labeling_loop stops trips window (minutes 5) bump_wait
          far_request 12 far_seeds with
  | ShortestPath.Finished s => s
  | _ => far_seeds
  end.

Lemma far_searched_finished :
  ShortestPath.labeling_loop stops trips window (minutes 5) bump_wait far_request
    12 far_seeds
  = ShortestPath.Finished far_searched.
Proof. vm_compute. reflexivity. Qed.

Lemma far_links_walked stop_id access_time stop_state :
  (stop_id, access_time) ∈ [(10%Z, minutes 7); (30%Z, minutes 5)] ->
  ShortestPath.stop_states far_searched !! stop_id = Some stop_state ->
  is_walk_mode (STATE_DEPARRMODE stop_state) = true.
Proof.
  intros Hin Hst.
  apply elem_of_cons in Hin as [[= -> ->]|Hin].
  { vm_compute in Hst. by injection Hst as <-. }
  apply list_elem_of_singleton in Hin as [= -> ->].
  vm_compute in Hst. discriminate Hst.
Qed.

End ExampleRoutes.

(** The first stop popped in the worked search is stop 10 with the label of
    its access link. *)
Lemma popped_stop_has_its_label_witness :
  exists current_stop_state,
    ShortestPath.stop_states ExampleSearch.seeds !! 10%Z = Some current_stop_state
    /\ STATE_LABEL current_stop_state = Example.minutes 5.
Proof.
  destruct (ShortestPath.popped_stop_has_its_label ExampleSearch.tazs
              ExampleSearch.stops ExampleSearch.trips ExampleSearch.window
              (Example.minutes 5) ExampleSearch.bump_wait ExampleSearch.request
              ExampleSearch.seeds (Example.minutes 5) 10%Z [])
    as (current_stop_state & Hstate & Hlabel & _).
  - apply ExampleRoutes.seeds_links_distinct.
  - apply ShortestPath.head_seeded, ExampleSearch.seeds_seeded.
  - vm_compute. reflexivity.
  - apply (bool_decide_unpack _). vm_compute. exact I.
  - exists current_stop_state. by split.
Defined.

(** In the worked search stop 10 keeps a state with a label of at most 5
    minutes. *)
Lemma labels_only_improve_witness :
  exists st',
    ShortestPath.stop_states ExampleRoutes.searched !! 10%Z = Some st'
    /\ (STATE_LABEL st' <= Example.minutes 5)%Z.
Proof.
  destruct (ShortestPath.labels_only_improve ExampleSearch.stops
              ExampleSearch.trips ExampleSearch.window (Example.minutes 5)
              ExampleSearch.bump_wait ExampleSearch.request 12
              ExampleSearch.seeds ExampleRoutes.searched
              ExampleRoutes.searched_finished) as [Hkeep _].
  apply (Hkeep 10%Z ExampleSearch.access_state). vm_compute. reflexivity.
Defined.

(** The request to TAZ 300 finds no path, after two label iterations. *)
Lemma no_trip_no_path_witness :
  ShortestPath.find_trip_based_shortest_path ExampleRoutes.far_tazs
    ExampleSearch.stops ExampleSearch.trips ExampleSearch.window
    (Example.minutes 5) ExampleSearch.bump_wait ExampleRoutes.far_request 12
  = Ok (ShortestPath.label_iterations ExampleRoutes.far_searched, []).
Proof.
  apply (ShortestPath.no_trip_no_path ExampleRoutes.far_tazs ExampleSearch.stops
           ExampleSearch.trips ExampleSearch.window (Example.minutes 5)
           ExampleSearch.bump_wait ExampleRoutes.far_request 12
           ExampleRoutes.far_seeds ExampleRoutes.far_searched
           (mkTAZ [(10%Z, Example.minutes 7); (30%Z, Example.minutes 5)])).
  - apply ExampleRoutes.far_seeds_seeded.
  - apply ExampleRoutes.far_searched_finished.
  - vm_compute. reflexivity.
  - apply ExampleRoutes.far_links_walked.
Defined.

(** *** The hyperpath search to its end

    A passenger whose destination TAZ has no stop: nothing is labelled, and
    the stop of the origin TAZ has no state. *)

Module ExampleNoStops.

Import Example.

Definition tazs : gmap Z TAZ :=
  <[200%Z := mkTAZ []]> {[100%Z := mkTAZ [(40%Z, minutes 5)]]}.

Definition nothing : Hyperpath.search := Hyperpath.mkSearch ∅ [] ∅ ∅ 0.

Lemma nothing_seeded :
  Hyperpath.seeded tazs 1 1 OUTBOUND 100 200 (hm 8 0) = Ok nothing.
Proof. reflexivity. Qed.

Lemma nothing_finished :
  Hyperpath.labeling_loop ExampleHyperpath.stops ExampleHyperpath.trips
    ExampleHyperpath.window 1 1 1 1 0 1 0 OUTBOUND 1 nothing
  = Hyperpath.Finished nothing.
Proof. reflexivity. Qed.

End ExampleNoStops.

(** The labeling of the worked hyperpath search ends within the bound. *)
Lemma hyperpath_labeling_terminates_witness :
  (exists s,
     Hyperpath.labeling_loop ExampleHyperpath.stops ExampleHyperpath.trips
       ExampleHyperpath.window 1 1 1 1 0 1 0 OUTBOUND
       (S (Hyperpath.potential ExampleHyperpath.stops ExampleHyperpath.trips
             ExampleHyperpath.seeds))
       ExampleHyperpath.seeds
     = Hyperpath.Finished s
     /\ Hyperpath.stop_queue s = []
     /\ Hyperpath.label_iterations s = Z.of_nat (size (Hyperpath.stop_done s))
     /\ (Hyperpath.label_iterations s
         <= Z.of_nat (size (dom ExampleHyperpath.stops)))%Z)
  \/ (exists e,
        Hyperpath.labeling_loop ExampleHyperpath.stops ExampleHyperpath.trips
          ExampleHyperpath.window 1 1 1 1 0 1 0 OUTBOUND
          (S (Hyperpath.potential ExampleHyperpath.stops ExampleHyperpath.trips
                ExampleHyperpath.seeds))
          ExampleHyperpath.seeds
        = Hyperpath.Failed e).
Proof.
  destruct (Hyperpath.hyperpath_labeling_terminates ExampleHyperpath.tazs
              ExampleHyperpath.stops ExampleHyperpath.trips
              ExampleHyperpath.window 1 1 1 1 1 1 0 1 0 OUTBOUND 100 200
              (Example.hm 8 0) ExampleHyperpath.seeds
              ExampleHyperpath.hyperpath_seeds_seeded) as [Hends _].
  exact Hends.
Defined.

(** Stop 20, popped third in the worked hyperpath search, has its state. *)
Lemma popped_stop_has_states_witness :
  exists first rest,
    getlist (Hyperpath.stop_states ExampleHyperpath.labelled10) 20%Z = first :: rest
    /\ py_index (first :: rest) 0 = Ok first.
Proof.
  destruct (Hyperpath.popped_stop_has_states ExampleHyperpath.tazs
              ExampleHyperpath.stops ExampleHyperpath.trips
              ExampleHyperpath.window 1 1 1 1 1 1 0 1 0 OUTBOUND 100 200
              (Example.hm 8 0) ExampleHyperpath.labelled10
              ExampleHyperpath.cost20 20%Z []
              ExampleHyperpath.labelled10_head
              (ExampleHyperpath.queue_get_singleton
                 (ExampleHyperpath.cost20, 20%Z)))
    as (first & rest & Hget & Hidx & _).
  exists first, rest. by split.
Defined.

(** The passenger without a stop at the destination keeps the path. *)
Lemma nothing_found_leaves_the_path_witness :
  Hyperpath.find_trip_based_hyperpath ExampleNoStops.tazs ExampleHyperpath.stops
    ExampleHyperpath.trips ExampleHyperpath.window 0 1 1 1 1 1 1 0 1 0 ∅ OUTBOUND
    100 200 (Example.hm 8 0) 1 None [] [7%Z]
  = Ok (0%Z, Hyperpath.mkChoosing [] [] [7%Z] 0).
Proof.
  apply (Hyperpath.nothing_found_leaves_the_path ExampleNoStops.tazs
           ExampleHyperpath.stops ExampleHyperpath.trips ExampleHyperpath.window
           0 1 1 1 1 1 1 0 1 0 ∅ OUTBOUND 100 200 (Example.hm 8 0) 1 None
           ExampleNoStops.nothing ExampleNoStops.nothing
           (mkTAZ [(40%Z, Example.minutes 5)]) [] [7%Z]).
  - apply ExampleNoStops.nothing_seeded.
  - apply ExampleNoStops.nothing_finished.
  - reflexivity.
  - intros stop_id access_time Hin.
    apply list_elem_of_singleton in Hin as [= -> ->].
    split; [reflexivity|].
    unfold Hyperpath.end_walk_weight, Hyperpath.total_minutes. simpl.
    change (Example.minutes 5) with 300000000%Z. lra.
Defined.

(** With one random number, one pass of the loops decides the sampling. *)
Lemma sampler_loop_ends_witness :
  Hyperpath.choose_path ∅ 0 1 ∅ OUTBOUND 100 200 (Example.hm 8 0) 1 ∅ []
    [ExampleSampling.at_taz] [0%Z]
  <> Raise FuelExhausted.
Proof.
  destruct (Hyperpath.sampler_loop_ends ∅ 0 1 ∅ OUTBOUND 100 200 (Example.hm 8 0)
              1 ∅) as [_ Hends].
  apply Hends. simpl. lia.
Defined.

(** *** More draws *)

(** A table that ends with the weight 0, and one that ends with -5. *)
Lemma choose_state_failures_witness :
  Choice.choose_state [(0%Z, ACCESS)] [5%Z] = Raise ZeroDivisionError
  /\ Choice.choose_state [((-5)%Z, ACCESS)] [3%Z] = Raise ThisShouldntHappen.
Proof.
  split.
  - destruct (Choice.choose_state_failures [(0%Z, ACCESS)]) as (_ & _ & Hzero & _).
    by apply (Hzero 5%Z [] ACCESS).
  - destruct (Choice.choose_state_failures [((-5)%Z, ACCESS)])
      as (_ & _ & _ & Hneg).
    apply (Hneg 3%Z [] (-5)%Z ACCESS); [done|lia|].
    intros x Hin. apply list_elem_of_singleton in Hin as ->. simpl. lia.
Defined.

(** *** The delay of the worked inbound path

    The path of the worked search before the delay: trip 9 from stop 10 at
    07:40, reached from TAZ 100 at 07:30.  No passenger was bumped off trip
    9, so the passenger leaves to reach stop 10 at 07:40; had one waited for
    it since 07:45, the passenger would start at 07:35 and reach the stop at
    07:40 as well. *)

Module ExampleDelay.

Import Example.

Definition egress : State Z :=
  mkState (minutes 35) (hm 8 0) EGRESS 20 (minutes 5) None.
Definition ride : State Z :=
  mkState (minutes 30) (hm 7 55) (TRIP 9) 10 (minutes 25) None.
Definition bumped : bump_wait_table := <[(TRIP 9, 10%Z) := hm 7 45]> ∅.

End ExampleDelay.

Lemma delay_of_inbound_departure_witness :
  Departure.delay_inbound_path_departure ExampleSearch.trips (Example.minutes 5)
    ExampleSearch.bump_wait (Example.hm 7 25)
    [ (200%Z, ExampleDelay.egress); (20%Z, ExampleDelay.ride);
      (10%Z, ExampleSearch.access_state) ]
  = Ok [ (200%Z, ExampleDelay.egress);
         (20%Z, Departure.set_linktime (Example.minutes 15) ExampleDelay.ride);
         (10%Z, Departure.set_deparr (Example.hm 7 40) ExampleSearch.access_state) ]
  /\ Departure.delay_inbound_path_departure ExampleSearch.trips (Example.minutes 5)
       ExampleDelay.bumped (Example.hm 7 25)
       [ (200%Z, ExampleDelay.egress); (20%Z, ExampleDelay.ride);
         (10%Z, ExampleSearch.access_state) ]
     = Ok [ (200%Z, ExampleDelay.egress);
            (20%Z, Departure.set_linktime (Example.minutes 15) ExampleDelay.ride);
            (10%Z, Departure.set_deparr (Example.hm 7 40) ExampleSearch.access_state) ].
Proof.
  split.
  - exact (Departure.delay_of_inbound_departure ExampleSearch.trips
             (Example.minutes 5) ExampleSearch.bump_wait (Example.hm 7 25)
             [(200%Z, ExampleDelay.egress)] 20%Z ExampleDelay.ride 10%Z
             ExampleSearch.access_state 9%Z
             (mkTrip [(10%Z, Example.hm 7 40, Example.hm 7 40);
                      (20%Z, Example.hm 7 55, Example.hm 7 55)] 1)
             (Example.hm 7 55) (Example.hm 7 40)
             eq_refl eq_refl eq_refl eq_refl).
  - exact (proj1 (Departure.delay_of_inbound_departure ExampleSearch.trips
                    (Example.minutes 5) ExampleDelay.bumped (Example.hm 7 25)
                    [(200%Z, ExampleDelay.egress)] 20%Z ExampleDelay.ride 10%Z
                    ExampleSearch.access_state 9%Z
                    (mkTrip [(10%Z, Example.hm 7 40, Example.hm 7 40);
                             (20%Z, Example.hm 7 55, Example.hm 7 55)] 1)
                    (Example.hm 7 55) (Example.hm 7 40)
                    eq_refl eq_refl eq_refl eq_refl)).
Defined.

(** The draw 1450 on the weights 400 and 1000 falls to the second state. *)
Lemma choose_state_picks_first_above_witness :
  Choice.choose_state [(400%Z, ACCESS); (1000%Z, EGRESS)] [1450%Z; 7%Z]
  = Ok (EGRESS, [7%Z]).
Proof.
  apply (Choice.choose_state_picks_first_above [(400%Z, ACCESS)] 1000%Z EGRESS []
           1450%Z [7%Z] 1000%Z EGRESS).
  - reflexivity.
  - lia.
  - intros x Hin. apply list_elem_of_singleton in Hin as ->. vm_compute.
    discriminate.
  - reflexivity.
Defined.

(** *** The assignment of three passengers

    The second iteration of a deterministic assignment: passenger 1 asks
    for the worked path and gets it, passenger 2 asks for TAZ 300 and gets
    none, passenger 3 has arrived in the first iteration and is counted
    with the path unsearched. *)

Module ExampleAssign.

Import Example ExampleSearch.

Definition search (p : Path Z) : result (Z * Path Z) :=
  '(label_iterations, found) ←
     ShortestPath.find_trip_based_shortest_path ExampleRoutes.far_tazs stops trips
       window (minutes 5) bump_wait p 12;
  Ok (label_iterations,
      mkPath (origin_taz_id p) (destination_taz_id p) (preferred_time p)
        (path_direction p) found).

Definition passengers : list (Z * Assigner.Passenger) :=
  [ (1%Z, Assigner.mkPassenger request Simulator.STATUS_BUMPED);
    (2%Z, Assigner.mkPassenger ExampleRoutes.far_request Simulator.STATUS_INITIAL);
    (3%Z, Assigner.mkPassenger request Simulator.STATUS_ARRIVED) ].

Example assigned_two :
  exists found,
    Assigner.assign_passengers goes_somewhere path_found
      Controller.ASSIGNMENT_TYPE_DET_ASGN search search passengers 2
    = Ok (2%Z,
          [ (1%Z, Assigner.mkPassenger found Simulator.STATUS_BUMPED);
            (2%Z, Assigner.mkPassenger ExampleRoutes.far_request
                    Simulator.STATUS_INITIAL);
            (3%Z, Assigner.mkPassenger request Simulator.STATUS_ARRIVED) ])
    /\ num_states found = 3%Z.
Proof. eexists. split; [vm_compute; reflexivity|]. reflexivity. Qed.

End ExampleAssign.
